(** * BK_SYS_NET: tracker-mediated peer discovery and chat broadcast

    A shallow embedding of [daemon/tracker.py] (the registry) and
    [daemon/peer.py] (the peer agent), and the properties of the
    registration, broadcast, fan-out, deduplication and inbox-drain
    operations.

    Conventions of the embedding.
    - Every connection handler is one atomic step on the process state.
    - [time.time()] is an input of the step; timestamps are exact rationals
      (rounding of float arithmetic is not modelled).
    - Python's [json.loads], [json.dumps], [str], [int] and the socket layer
      are library code: they are variables of the sections below. *)

From Stdlib Require Import ZArith QArith Lqa Ascii String List.
From stdpp Require Import base option list gmap sets strings pretty.

#[local] Set Warnings "-register-all".
Local Open Scope string_scope.
Local Open Scope Z_scope.

(** ** JSON values and Python dictionaries *)

Module Json.

(** The values [json.loads] produces. A dictionary keeps its insertion
    order; keys are unique. *)
Inductive json :=
  | JNull
  | JBool (b : bool)
  | JInt (z : Z)
  | JFloat (q : Q)
  | JStr (s : string)
  | JArr (l : list json)
  | JObj (d : list (string * json)).

Abbreviation dict := (list (string * json)).

(** [d.get(k)] on a dictionary: [None] when the key is absent. *)
Fixpoint dict_find (d : dict) (k : string) : option json :=
  match d with
  | [] => None
  | (k', v) :: d' => if String.eqb k k' then Some v else dict_find d' k
  end.

(** [d.get(k, dflt)]. *)
Definition dict_get (d : dict) (k : string) (dflt : json) : json :=
  default dflt (dict_find d k).

(** [d[k] = v]: overwrite in place, or append a new key at the end. *)
Fixpoint dict_set (d : dict) (k : string) (v : json) : dict :=
  match d with
  | [] => [(k, v)]
  | (k', v') :: d' =>
      if String.eqb k k' then (k', v) :: d' else (k', v') :: dict_set d' k v
  end.

(** Python truthiness, as used by [if x], [not x] and [x or y]. *)
Definition truthy (j : json) : bool :=
  match j with
  | JNull => false
  | JBool b => b
  | JInt z => negb (z =? 0)
  | JFloat q => negb (Qeq_bool q 0)
  | JStr s => negb (String.eqb s "")
  | JArr l => match l with [] => false | _ => true end
  | JObj d => match d with [] => false | _ => true end
  end.

(** [x or y]. *)
Definition py_or (x y : json) : json := if truthy x then x else y.

(** [x < y] on timestamps. *)
Definition Qltb (x y : Q) : bool := negb (Qle_bool y x).

End Json.

(** ** Python exceptions *)

Module Exn.
Import Json.

(** The exceptions the handlers can meet. [str(e)] is needed only for
    the error descriptions sent back, and is a variable below. *)
Inductive pyexn :=
  | KeyError (k : string)            (* d[k] with k absent *)
  | TypeError (on : json)            (* an operation the value does not support *)
  | AttributeError (on : json)       (* x.get on something that is not a dict *)
  | IndexError
  | JSONDecodeError (doc : string)
  | ConversionError (on : json)      (* int(x) raised *)
  | SocketTimeout
  | ConnectionRefusedError
  | OSError (msg : string)
  | UnicodeEncodeError (text : string).   (* print of a text stdout cannot encode *)

(** A computation that returns or raises. *)
Definition result (A : Type) : Type := pyexn + A.

Definition raise {A} (e : pyexn) : result A := inl e.

#[global] Instance result_ret : MRet result := λ A a, inr a.
#[global] Instance result_bind : MBind result :=
  λ A B f m, match m with inl e => inl e | inr a => f a end.

(** [j[k]] *)
Definition subscript (j : json) (k : string) : result json :=
  match j with
  | JObj d =>
      match dict_find d k with
      | Some v => mret v
      | None => raise (KeyError k)
      end
  | _ => raise (TypeError j)
  end.

(** [j.get(k)] *)
Definition get (j : json) (k : string) : result json :=
  match j with
  | JObj d => mret (dict_get d k JNull)
  | _ => raise (AttributeError j)
  end.

(** [{**j}]: the keys of a mapping. *)
Definition spread (j : json) : result dict :=
  match j with
  | JObj d => mret d
  | _ => raise (TypeError j)
  end.

(** [j == s] for a string literal [s]. *)
Definition eq_str (j : json) (s : string) : bool :=
  match j with
  | JStr s' => String.eqb s' s
  | _ => false
  end.

(** One connect / send / receive exchange with a peer's listener. *)
Inductive delivery :=
  | ConnectFailed (e : pyexn)   (* connect or sendall raised *)
  | ReplyFailed (e : pyexn)     (* the request went out, recv raised *)
  | Replied.

End Exn.

(** ** The tracker ([daemon/tracker.py]) *)

Module Tracker.
Import Json Exn.

(** What Python hashes a JSON value to when it is used as a dictionary
    key: numbers and booleans that are equal are the same key; lists and
    dictionaries cannot be keys. *)
Inductive hkey :=
  | HNone
  | HNum (n : Z) (d : positive)
  | HStr (s : string).

#[global] Instance hkey_eq_dec : EqDecision hkey.
Proof. solve_decision. Defined.

#[global] Instance hkey_countable : Countable hkey :=
  inj_countable'
    (λ k, match k with
          | HNone => inl ()
          | HNum n d => inr (inl (n, d))
          | HStr s => inr (inr s)
          end)
    (λ x, match x with
          | inl _ => HNone
          | inr (inl (n, d)) => HNum n d
          | inr (inr s) => HStr s
          end)
    (λ k, match k with HNone | HNum _ _ | HStr _ => eq_refl end).

Definition hash_key (j : json) : result hkey :=
  match j with
  | JNull => mret HNone
  | JBool b => mret (HNum (if b then 1 else 0) 1)
  | JInt z => mret (HNum z 1)
  | JFloat q => mret (HNum (Qnum (Qred q)) (Qden (Qred q)))
  | JStr s => mret (HStr s)
  | JArr _ | JObj _ => raise (TypeError j)
  end.

(** An entry of [CHANNELS]: [{'peers': set(), 'messages': []}]. *)
Record channel := Channel {
  peers : gset string;
  messages : list json
}.

Definition new_channel : channel := Channel ∅ [].

(** The two tables guarded by [LOCK]. *)
Record tracker := Tracker {
  PEERS : gmap string dict;
  CHANNELS : gmap hkey channel
}.

(** A request after the request line has been split and the target
    parsed by [urlparse] and [parse_qs]. *)
Record request := Request {
  method : string;
  route : string;
  qs : gmap string (list string);
  content : string
}.

Record response := Response {
  code : Z;
  body : json
}.

(** [build_response(status_code, obj)] sends [json.dumps(obj or {})]. *)
Definition build_response (status_code : Z) (obj : json) : response :=
  Response status_code (py_or obj (JObj [])).

(** [[PEERS[p] for p in ch['peers'] if p in PEERS]] *)
Definition member_records (P : gmap string dict) (members : gset string)
  : list dict :=
  omap (λ p, P !! p) (elements members).

Section Handlers.

Variable json_loads : string → option json.
Variable json_dumps : json → string.
Variable py_str : json → string.
Variable py_int : json → option Z.
Variable exn_str : pyexn → string.

(** The network as seen by the tracker: an exchange with the listener
    at an address changes the world and ends in one of three ways. *)
Variable World : Type.
Variable exchange : World → json → Z → string → World * delivery.

(** [print(text)]: the exception it raises, if it raises one (standard
    output cannot encode every string a request can carry). Only the two
    calls of [handle_http] that no [try] guards are modelled. *)
Variable py_print : string → option pyexn.

(** [json.loads(content or '{}')] *)
Definition loads (content : string) : option json :=
  json_loads (if String.eqb content "" then "{}" else content).

Definition invalid_json (content : string) : response :=
  build_response 400
    (JObj [("error", JStr "invalid json");
           ("detail", JStr (exn_str (JSONDecodeError content)))]).

(** [f"{info['ip']}:{info['port']}"] *)
Definition _peer_id (info : json) : result string :=
  ip ← subscript info "ip";
  port ← subscript info "port";
  mret (py_str ip ++ ":" ++ py_str port).

(** POST /submit-info *)
Definition submit_info (now : Q) (content : string) (st : tracker)
  : result (tracker * response) :=
  match loads content with
  | None => mret (st, invalid_json content)
  | Some obj =>
      pid ← _peer_id obj;
      d ← spread obj;
      let P := <[pid := dict_set d "ts" (JFloat now)]> (PEERS st) in
      mret (Tracker P (CHANNELS st),
            build_response 200
              (JObj [("status", JStr "ok");
                     ("peers_count", JInt (Z.of_nat (size P)))]))
  end.

(** [qs.get('channel', [None])[0]] *)
Definition channel_param (q : gmap string (list string))
  : result (option string) :=
  match q !! "channel" with
  | None => mret None
  | Some [] => raise IndexError
  | Some (c :: _) => mret (Some c)
  end.

(** GET /get-list *)
Definition get_list (q : gmap string (list string)) (st : tracker)
  : result (tracker * response) :=
  c ← channel_param q;
  match c with
  | Some name =>
      if String.eqb name "" then
        mret (st, build_response 200
                    (JObj [("peers", JArr (JObj <$> (map_to_list (PEERS st)).*2))]))
      else
        let ch := default new_channel (CHANNELS st !! HStr name) in
        mret (st, build_response 200
                    (JObj [("channel", JStr name);
                           ("peers", JArr (JObj <$> member_records (PEERS st) (peers ch)));
                           ("messages", JArr (messages ch))]))
  | None =>
      mret (st, build_response 200
                  (JObj [("peers", JArr (JObj <$> (map_to_list (PEERS st)).*2))]))
  end.

(** [CHANNELS.setdefault(channel, {...})] followed by an update of the
    entry. *)
Definition with_channel (k : hkey) (f : channel → channel)
    (C : gmap hkey channel) : gmap hkey channel :=
  <[k := f (default new_channel (C !! k))]> C.

(** [f"[Tracker] /add-list: added {pid} to {channel}"] *)
Definition added_line (pid : string) (chan : json) : string :=
  "[Tracker] /add-list: added " ++ pid ++ " to " ++ py_str chan.

(** POST /add-list: the table it leaves, and its response or the
    exception that leaves it. The [print] comes after the table has been
    updated and is not guarded. *)
Definition add_list (content : string) (st : tracker)
  : tracker * result response :=
  match loads content with
  | None => (st, mret (invalid_json content))
  | Some obj =>
      match (chan ← get obj "channel";
             peer ← get obj "peer";
             mret (chan, peer)) with
      | inl e => (st, raise e)
      | inr (chan, peer) =>
          if negb (truthy chan) || negb (truthy peer) then
            (st, mret (build_response 400
                         (JObj [("error", JStr "missing channel or peer")])))
          else
            match (pid ← _peer_id peer; k ← hash_key chan; mret (pid, k)) with
            | inl e => (st, raise e)
            | inr (pid, k) =>
                let C := with_channel k
                           (λ ch, Channel (peers ch ∪ {[pid]}) (messages ch))
                           (CHANNELS st) in
                match py_print (added_line pid chan) with
                | Some e => (Tracker (PEERS st) C, raise e)
                | None =>
                    (Tracker (PEERS st) C,
                     mret (build_response 200 (JObj [("status", JStr "ok")])))
                end
            end
      end
  end.

(** The body of the [try] in [_forward_to_peers]: the address is
    computed, then the exchange is run; an error of [recv] is passed
    over. *)
Definition attempt (w : World) (p : dict) (b : string)
  : World * result unit :=
  let port := dict_get p "port" JNull in
  match py_int port with
  | None => (w, raise (ConversionError port))
  | Some n =>
      match exchange w (dict_get p "ip" JNull) n b with
      | (w', ConnectFailed e) => (w', raise e)
      | (w', ReplyFailed _) => (w', mret ())
      | (w', Replied) => (w', mret ())
      end
  end.

(** [f"{p.get('ip')}:{p.get('port')}"] *)
Definition target_id (p : dict) : string :=
  py_str (dict_get p "ip" JNull) ++ ":" ++ py_str (dict_get p "port" JNull).

(** [exclude_pid and pid == exclude_pid] *)
Definition excluded (exclude_pid : option string) (pid : string) : bool :=
  match exclude_pid with
  | Some x => negb (String.eqb x "") && String.eqb pid x
  | None => false
  end.

Definition result_entry (pid : string) (r : result unit) : json :=
  match r with
  | inr _ => JObj [("peer", JStr pid); ("ok", JBool true)]
  | inl e => JObj [("peer", JStr pid); ("ok", JBool false);
                   ("error", JStr (exn_str e))]
  end.

(** The loop of [_forward_to_peers], from the state it has reached:
    the world and the [results] collected so far. *)
Fixpoint forward_loop (w : World) (results : list json)
    (targets : list dict) (b : string) (exclude_pid : option string)
  : World * list json :=
  match targets with
  | [] => (w, results)
  | p :: rest =>
      let pid := target_id p in
      if excluded exclude_pid pid
      then forward_loop w results rest b exclude_pid
      else
        let '(w', r) := attempt w p b in
        forward_loop w' (results ++ [result_entry pid r]) rest b exclude_pid
  end.

Definition _forward_to_peers (w : World) (targets : list dict)
    (entry : json) (exclude_pid : option string) : World * list json :=
  forward_loop w [] targets (json_dumps entry) exclude_pid.

(** POST /broadcast-peer *)
Definition broadcast_peer (w : World) (now : Q) (content : string)
    (st : tracker) : result (World * tracker * response) :=
  match loads content with
  | None => mret (w, st, invalid_json content)
  | Some obj =>
      from_peer ← get obj "from";
      chan ← get obj "channel";
      message ← get obj "message";
      if negb (truthy from_peer) || negb (truthy chan)
         || match message with JNull => true | _ => false end
      then mret (w, st, build_response 400
                          (JObj [("error", JStr "missing fields")]))
      else
        pid ← _peer_id from_peer;
        let entry := JObj [("from", from_peer); ("message", message);
                           ("ts", JFloat now)] in
        if eq_str chan "private" then
          mret (w, st, build_response 200
                         (JObj [("status", JStr "ok");
                                ("peers", JArr []);
                                ("forwarded", JArr [])]))
        else
          k ← hash_key chan;
          let C := with_channel k
                     (λ ch, Channel (peers ch ∪ {[pid]})
                                    (messages ch ++ [entry]))
                     (CHANNELS st) in
          let members := peers (default new_channel (C !! k)) in
          let snapshot := member_records (PEERS st) members in
          let '(w', forward_results) :=
            _forward_to_peers w snapshot entry (Some pid) in
          mret (w', Tracker (PEERS st) C,
                build_response 200
                  (JObj [("status", JStr "ok");
                         ("peers", JArr (JObj <$> snapshot));
                         ("forwarded", JArr forward_results)]))
  end.

(** [f"[Tracker] /connect-peer: returning info for {pid}"] *)
Definition returning_line (pid : string) : string :=
  "[Tracker] /connect-peer: returning info for " ++ pid.

(** POST /connect-peer; the [print] before the answer is not guarded. *)
Definition connect_peer (content : string) (st : tracker)
  : result (tracker * response) :=
  match loads content with
  | None => mret (st, invalid_json content)
  | Some obj =>
      to ← get obj "to";
      if negb (truthy to) then
        mret (st, build_response 400 (JObj [("error", JStr "missing to")]))
      else
        pid ← _peer_id to;
        match PEERS st !! pid with
        | Some ((_ :: _) as info) =>
            match py_print (returning_line pid) with
            | Some e => raise e
            | None => mret (st, build_response 200 (JObj [("peer", JObj info)]))
            end
        | _ =>
            mret (st, build_response 404 (JObj [("error", JStr "peer not found")]))
        end
  end.

Definition dispatch (w : World) (now : Q) (req : request) (st : tracker)
  : World * tracker * result response :=
  let keep (r : result (tracker * response)) :=
    match r with
    | inr (st', resp) => (w, st', mret resp)
    | inl e => (w, st, raise e)
    end in
  if String.eqb (method req) "POST" && String.eqb (route req) "/submit-info"
  then keep (submit_info now (content req) st)
  else if String.eqb (method req) "GET" && String.eqb (route req) "/get-list"
  then keep (get_list (qs req) st)
  else if String.eqb (method req) "POST" && String.eqb (route req) "/add-list"
  then let '(st', r) := add_list (content req) st in (w, st', r)
  else if String.eqb (method req) "POST" && String.eqb (route req) "/broadcast-peer"
  then match broadcast_peer w now (content req) st with
       | inr (w', st', resp) => (w', st', mret resp)
       | inl e => (w, st, raise e)
       end
  else if String.eqb (method req) "POST" && String.eqb (route req) "/connect-peer"
  then keep (connect_peer (content req) st)
  else (w, st, mret (build_response 404 (JObj [("error", JStr "not found")]))).

(** One connection: the preflight is answered at once, and a fault that
    escapes the dispatch becomes a 500 response carrying [str(e)]; the
    tables stay as the fault found them. *)
Definition handle_http (w : World) (now : Q) (req : request) (st : tracker)
  : World * tracker * response :=
  if String.eqb (method req) "OPTIONS"
  then (w, st, build_response 200 (JObj []))
  else
    match dispatch w now req st with
    | (w', st', inr resp) => (w', st', resp)
    | (w', st', inl e) =>
        (w', st', build_response 500 (JObj [("error", JStr (exn_str e))]))
    end.

(** Handling a sequence of connections, one after the other. *)
Fixpoint serve (w : World) (reqs : list (Q * request)) (st : tracker)
  : World * tracker * list response :=
  match reqs with
  | [] => (w, st, [])
  | (now, req) :: reqs' =>
      let '(w1, st1, r) := handle_http w now req st in
      let '(w2, st2, rs) := serve w1 reqs' st1 in
      (w2, st2, r :: rs)
  end.

(** *** Notions used to state the properties *)

(** The targets [_forward_to_peers] does not skip. *)
Definition attempted (exclude_pid : option string) (targets : list dict)
  : list dict :=
  filter (λ p, excluded exclude_pid (target_id p) = false) targets.

(** The attempts made on a list of targets, one after the other, each
    from the world the previous one left. *)
Fixpoint outcomes (w : World) (targets : list dict) (b : string)
  : World * list (result unit) :=
  match targets with
  | [] => (w, [])
  | p :: rest =>
      let a := attempt w p b in
      let o := outcomes a.1 rest b in
      (o.1, a.2 :: o.2)
  end.

(** The entry for a target whose exchange ended in [d]: an error while
    waiting for the reply is passed over. *)
Definition delivered_entry (pid : string) (d : delivery) : json :=
  match d with
  | ConnectFailed e =>
      JObj [("peer", JStr pid); ("ok", JBool false);
            ("error", JStr (exn_str e))]
  | ReplyFailed _ => JObj [("peer", JStr pid); ("ok", JBool true)]
  | Replied => JObj [("peer", JStr pid); ("ok", JBool true)]
  end.

(** One exchange per target, in order, each from the world the one
    before left and whatever its result, and one entry per target: for a
    port [int] rejects no exchange is made and the entry says so. *)
Inductive fans_out (b : string)
  : World → list dict → World → list json → Prop :=
  | fans_done w : fans_out b w [] w []
  | fans_no_port w p rest w' entries :
      py_int (dict_get p "port" JNull) = None →
      fans_out b w rest w' entries →
      fans_out b w (p :: rest) w'
        (JObj [("peer", JStr (target_id p)); ("ok", JBool false);
               ("error",
                JStr (exn_str (ConversionError (dict_get p "port" JNull))))]
         :: entries)
  | fans_exchange w p n rest w' entries :
      py_int (dict_get p "port" JNull) = Some n →
      fans_out b (exchange w (dict_get p "ip" JNull) n b).1 rest w' entries →
      fans_out b w (p :: rest) w'
        (delivered_entry (target_id p)
           (exchange w (dict_get p "ip" JNull) n b).2 :: entries).

(** Every record of the peer table is stored under its own identity. *)
Definition peers_wf (P : gmap string dict) : Prop :=
  ∀ k v, P !! k = Some v → _peer_id (JObj v) = inr k.

(** The records GET /get-list returns. *)
Definition listing (st : tracker) : list dict := (map_to_list (PEERS st)).*2.

(** The record carries the identity [pid]. *)
Definition has_id (pid : string) (r : dict) : bool :=
  match _peer_id (JObj r) with
  | inr p => String.eqb p pid
  | inl _ => false
  end.

Definition server_error (e : pyexn) : response :=
  Response 500 (JObj [("error", JStr (exn_str e))]).

(** What the top level of [handle_http] makes of a handler that does not
    use the network. *)
Definition settle (w : World) (st : tracker) (r : result (tracker * response))
  : World * tracker * response :=
  match r with
  | inr (st', resp) => (w, st', resp)
  | inl e => (w, st, server_error e)
  end.

(** The same for POST /add-list, whose fault can come after the update. *)
Definition settle_at (w : World) (out : tracker * result response)
  : World * tracker * response :=
  match out.2 with
  | inr resp => (w, out.1, resp)
  | inl e => (w, out.1, server_error e)
  end.

Definition ok_registration (count : nat) : response :=
  Response 200 (JObj [("status", JStr "ok");
                      ("peers_count", JInt (Z.of_nat count))]).

Definition submit (q : gmap string (list string)) (content : string)
  : request :=
  Request "POST" "/submit-info" q content.

Definition ok_status : response :=
  Response 200 (JObj [("status", JStr "ok")]).

(** The members of a channel, none if the channel does not exist. *)
Definition members_of (st : tracker) (name : string) : gset string :=
  peers (default new_channel (CHANNELS st !! HStr name)).

(** The log of a channel, empty if the channel does not exist. *)
Definition log_of (st : tracker) (name : string) : list json :=
  messages (default new_channel (CHANNELS st !! HStr name)).

(** A broadcast request with all its fields: a sender that has an address,
    a channel name and a message. *)
Definition well_formed_broadcast (content : string) (from_peer : dict)
    (chan : string) (message : json) : Prop :=
  ∃ d, loads content = Some (JObj d)
       ∧ dict_find d "from" = Some (JObj from_peer)
       ∧ is_Some (dict_find from_peer "ip")
       ∧ is_Some (dict_find from_peer "port")
       ∧ dict_find d "channel" = Some (JStr chan) ∧ chan ≠ ""
       ∧ dict_find d "message" = Some message ∧ message ≠ JNull.

Definition ok_broadcast (snapshot : list dict) (forwarded : list json)
  : response :=
  Response 200 (JObj [("status", JStr "ok");
                      ("peers", JArr (JObj <$> snapshot));
                      ("forwarded", JArr forwarded)]).

End Handlers.

(** *** Further notions: requests, and what a step may not undo *)

Definition join_request (q : gmap string (list string)) (content : string)
  : request :=
  Request "POST" "/add-list" q content.

Definition connect_request (q : gmap string (list string)) (content : string)
  : request :=
  Request "POST" "/connect-peer" q content.

Definition broadcast_request (q : gmap string (list string))
    (content : string) : request :=
  Request "POST" "/broadcast-peer" q content.

Definition list_request (q : gmap string (list string)) : request :=
  Request "GET" "/get-list" q "".

(** Nothing registered, joined or logged in [st] is missing from [st']. *)
Definition grows (st st' : tracker) : Prop :=
  dom (PEERS st) ⊆ dom (PEERS st')
  ∧ ∀ k ch, CHANNELS st !! k = Some ch →
      ∃ ch', CHANNELS st' !! k = Some ch'
             ∧ peers ch ⊆ peers ch'
             ∧ messages ch `prefix_of` messages ch'.

(** What /add-list and /broadcast-peer do to the entry of a channel. *)
Definition joined (pid : string) (ch : channel) : channel :=
  Channel (peers ch ∪ {[pid]}) (messages ch).

Definition logged (pid : string) (entry : json) (ch : channel) : channel :=
  Channel (peers ch ∪ {[pid]}) (messages ch ++ [entry]).

(** The value of the field [peer] of a result entry of the fan-out. *)
Definition entry_peer (e : json) : option json :=
  match e with
  | JObj d => dict_find d "peer"
  | _ => None
  end.

End Tracker.

(** ** The peer agent ([daemon/peer.py]) *)

Module PeerAgent.
Import Json Exn.

(** [Peer.messages] is the inbox, [Peer._recent_keys] the dedupe cache. *)
Record peer := Peer {
  messages : list json;
  _recent_keys : gmap string Q
}.

(** A request after the request line and the body have been split off. *)
Record request := Request {
  method : string;
  path : string;
  content : string
}.

(** The status code and the JSON body sent back ([None]: no body). *)
Record response := Response {
  status : Z;
  body : option json
}.

Definition _build_response (st : Z) (obj : json) : response :=
  Response st (Some obj).

Definition ok_response : response :=
  _build_response 200 (JObj [("status", JStr "ok")]).

Definition duplicate_ignored : response :=
  _build_response 200 (JObj [("status", JStr "duplicate_ignored")]).

Section Agent.

(** [json.loads] ([None]: the document does not parse), [str] and
    [int] ([None]: the conversion raises). *)
Variable json_loads : string → option json.
Variable py_str : json → string.
Variable py_int : json → option Z.

(** [json.loads(content or '{}')], with [{'raw': content}] when the
    document does not parse. *)
Definition parse_payload (content : string) : json :=
  match json_loads (if String.eqb content "" then "{}" else content) with
  | Some j => j
  | None => JObj [("raw", JStr content)]
  end.

Definition from_ip (sender : json) : json :=
  match sender with
  | JObj s => dict_get s "ip" (JStr "")
  | _ => JStr ""
  end.

Definition from_port (sender : json) : Z :=
  match sender with
  | JObj s =>
      let p := dict_get s "port" JNull in
      if truthy p then default 0 (py_int p) else 0
  | _ => 0
  end.

(** The four components [key_msg] and the joined [key]. *)
Definition key_msg (obj : dict) : list string :=
  let sender := dict_get obj "from" JNull in
  [ py_str (from_ip sender);
    py_str (JInt (from_port sender));
    py_str (py_or (dict_get obj "channel" JNull) (JStr "general"));
    py_str (py_or (py_or (dict_get obj "message" JNull)
                         (dict_get obj "raw" JNull)) (JStr "")) ].

Definition dedupe_key (obj : dict) : string :=
  String.concat "|" (key_msg obj).

(** [last and (now_ts - last) < 2.0] *)
Definition is_duplicate (now : Q) (last : option Q) : bool :=
  match last with
  | Some l => negb (Qeq_bool l 0) && Qltb (now - l) 2
  | None => false
  end.

(** The pruning pass: run once the cache holds more than 500 keys, it
    deletes the keys last seen more than 5 seconds ago. *)
Definition prune (now : Q) (rk : gmap string Q) : gmap string Q :=
  if (500 <? size rk)%nat
  then filter (λ kt, Qltb kt.2 (now - 5) = false) rk
  else rk.

(** POST /p2p/receive. A document that parses to something that is not
    a dictionary makes [obj['ts'] = now_ts] raise; the handler logs the
    error and still answers ok. *)
Definition receive (now : Q) (content : string) (st : peer)
  : peer * response :=
  match parse_payload content with
  | JObj d =>
      let obj := dict_set d "ts" (JFloat now) in
      let key := dedupe_key obj in
      if is_duplicate now (_recent_keys st !! key)
      then (st, duplicate_ignored)
      else
        (Peer (messages st ++ [JObj obj])
              (prune now (<[key := now]> (_recent_keys st))),
         ok_response)
  | _ => (st, ok_response)
  end.

(** GET /peer-inbox: [out = self.messages.copy(); self.messages.clear()]. *)
Definition drain (st : peer) : peer * response :=
  (Peer [] (_recent_keys st), Response 200 (Some (JArr (messages st)))).

Definition _handle_conn (now : Q) (req : request) (st : peer)
  : peer * response :=
  if String.eqb (method req) "OPTIONS" then (st, Response 200 None)
  else if String.eqb (method req) "POST" && String.eqb (path req) "/p2p/receive"
  then receive now (content req) st
  else if String.eqb (method req) "GET" && String.eqb (path req) "/peer-inbox"
  then drain st
  else (st, _build_response 404 (JObj [("error", JStr "not found")])).

(** Handling a sequence of connections, each with its clock reading. *)
Fixpoint serve (reqs : list (Q * request)) (st : peer)
  : peer * list response :=
  match reqs with
  | [] => (st, [])
  | (now, req) :: reqs' =>
      let '(st1, r) := _handle_conn now req st in
      let '(st2, rs) := serve reqs' st1 in
      (st2, r :: rs)
  end.

(** The request that delivers [content] to the peer. *)
Definition delivery_of (content : string) : request :=
  Request "POST" "/p2p/receive" content.

Definition poll : request := Request "GET" "/peer-inbox" "".

(** The cache holds an entry for [key] that is less than 2 seconds old. *)
Definition younger (st : peer) (key : string) (now : Q) : Prop :=
  ∃ last, _recent_keys st !! key = Some last ∧ (now - last < 2)%Q.

(** No recorded receipt time is the zero of the clock. *)
Definition clock_started (st : peer) : Prop :=
  ∀ k t, _recent_keys st !! k = Some t → ¬ (t == 0)%Q.

(** The message a request appends to the inbox, if any: the stamped
    payload of a delivery that is accepted. *)
Definition enqueues (now : Q) (req : request) (st : peer) : list json :=
  if String.eqb (method req) "POST" && String.eqb (path req) "/p2p/receive"
  then
    match parse_payload (content req) with
    | JObj d =>
        if is_duplicate now (_recent_keys st !! dedupe_key d) then []
        else [JObj (dict_set d "ts" (JFloat now))]
    | _ => []
    end
  else [].

(** All the messages enqueued while [reqs] are served, in order. *)
Fixpoint enqueued (reqs : list (Q * request)) (st : peer) : list json :=
  match reqs with
  | [] => []
  | (now, req) :: reqs' =>
      enqueues now req st ++ enqueued reqs' (_handle_conn now req st).1
  end.

Definition is_poll (req : request) : bool :=
  String.eqb (method req) "GET" && String.eqb (path req) "/peer-inbox".

(** A queued message: an object whose [ts] is one of the clock readings
    [times]. *)
Definition queued_at (times : list Q) (m : json) : Prop :=
  ∃ d t, m = JObj d ∧ dict_find d "ts" = Some (JFloat t) ∧ t ∈ times.

(** A payload as a peer sends it, with its channel and text. *)
Definition labelled (d : dict) (channel text : string) : dict :=
  dict_set (dict_set d "channel" (JStr channel)) "message" (JStr text).

End Agent.

(** What [Peer.broadcast] prints, one constructor per [print]. *)
Inductive log_line :=
  | NoOtherPeers (channel : json)
  | Broadcasting (n : nat)
  | Sent (name ip : json) (port : Z)
  | Timeout (name ip port : json)
  | Refused (name ip port : json)
  | Failed (name ip port : json) (e : pyexn).

Section Outbound.

Variable json_dumps : json → string.
Variable py_int : json → option Z.
Variable World : Type.
Variable exchange : World → json → Z → string → World * delivery.

(** [print] of a line: the exception it raises, if it raises one (the
    lines carry names and addresses taken from the tracker's answer, which
    standard output may be unable to encode). *)
Variable py_print : log_line → option pyexn.

(** A line is logged once it has been printed. *)
Definition say (l : log_line) : result log_line :=
  match py_print l with
  | Some e => raise e
  | None => mret l
  end.

(** [p.get('ip') == my_ip and int(p.get('port')) == self.port] *)
Definition is_self (my_ip : string) (my_port : Z) (p : json)
  : result bool :=
  ip ← get p "ip";
  if eq_str ip my_ip then
    port ← get p "port";
    match py_int port with
    | Some n => mret (n =? my_port)
    | None => raise (ConversionError port)
    end
  else mret false.

(** [[p for p in peers if not (...)]] *)
Fixpoint target_peers (my_ip : string) (my_port : Z) (peers : list json)
  : result (list json) :=
  match peers with
  | [] => mret []
  | p :: rest =>
      self ← is_self my_ip my_port p;
      others ← target_peers my_ip my_port rest;
      mret (if self : bool then others else p :: others)
  end.

(** The body of the [try]: address, exchange (an error of [recv] is an
    error here), and the line printed on success; that [print] is inside
    the [try] too. *)
Definition send_to (w : World) (p : json) (b : string)
  : World * result log_line :=
  match (ip ← subscript p "ip"; port ← subscript p "port"; mret (ip, port)) with
  | inl e => (w, raise e)
  | inr (ip, port) =>
      match py_int port with
      | None => (w, raise (ConversionError port))
      | Some n =>
          match exchange w ip n b with
          | (w', ConnectFailed e) => (w', raise e)
          | (w', ReplyFailed e) => (w', raise e)
          | (w', Replied) =>
              (w', name ← subscript p "name"; say (Sent name ip n))
          end
      end
  end.

(** The line of the [except] clause that catches [e]. *)
Definition failure_line (name ip port : json) (e : pyexn) : log_line :=
  match e with
  | SocketTimeout => Timeout name ip port
  | ConnectionRefusedError => Refused name ip port
  | _ => Failed name ip port e
  end.

(** The three [except] clauses; each formats [p['name']], [p['ip']]
    and [p['port']] and prints, and each of these can raise in turn. *)
Definition on_error (p : json) (e : pyexn) : result log_line :=
  name ← subscript p "name";
  ip ← subscript p "ip";
  port ← subscript p "port";
  say (failure_line name ip port e).

(** The [for] loop, from the state it has reached. An exception raised
    inside an [except] clause leaves the loop and the call. *)
Fixpoint broadcast_loop (w : World) (log : list log_line)
    (targets : list json) (b : string)
  : World * list log_line * option pyexn :=
  match targets with
  | [] => (w, log, None)
  | p :: rest =>
      let '(w', r) := send_to w p b in
      let line := match r with
                  | inr l => mret l
                  | inl e => on_error p e
                  end in
      match line with
      | inr l => broadcast_loop w' (log ++ [l]) rest b
      | inl e => (w', log, Some e)
      end
  end.

(** [Peer.broadcast], given the member list the tracker returned and
    the address this peer registered with. *)
Definition broadcast (w : World) (peers : list json)
    (my_ip : string) (my_port : Z) (my_name : string)
    (message : string) (channel : json)
  : World * list log_line * option pyexn :=
  match target_peers my_ip my_port peers with
  | inl e => (w, [], Some e)
  | inr [] =>
      match say (NoOtherPeers channel) with
      | inl e => (w, [], Some e)
      | inr l => (w, [l], None)
      end
  | inr targets =>
      let payload :=
        JObj [("from", JObj [("ip", JStr my_ip); ("port", JInt my_port);
                             ("name", JStr my_name)]);
              ("channel", channel); ("message", JStr message)] in
      let b := json_dumps payload in
      match say (Broadcasting (length targets)) with
      | inl e => (w, [], Some e)
      | inr l => broadcast_loop w [l] targets b
      end
  end.

(** [register_to_tracker] followed by the [add_to_channel('general',
    reg_ip)] it ends with: the two requests the tracker receives when
    both connections go through. *)
Definition peer_info (reg_ip : string) (port : Z) (name : string) : json :=
  JObj [("ip", JStr reg_ip); ("port", JInt port); ("name", JStr name)].

Definition add_to_channel (channel_name reg_ip : string) (port : Z)
    (name : string) : Tracker.request :=
  Tracker.Request "POST" "/add-list" ∅
    (json_dumps (JObj [("channel", JStr channel_name);
                       ("peer", peer_info reg_ip port name)])).

Definition register_to_tracker (reg_ip : string) (port : Z) (name : string)
  : list Tracker.request :=
  [ Tracker.Request "POST" "/submit-info" ∅
      (json_dumps (peer_info reg_ip port name));
    add_to_channel "general" reg_ip port name ].

(** *** Notions used to state the properties *)

(** A peer record with the three fields [Peer.broadcast] reads. *)
Definition has_fields (p : json) : Prop :=
  ∃ name ip port,
    subscript p "name" = inr name ∧ subscript p "ip" = inr ip
    ∧ subscript p "port" = inr port.

(** The target's lines can all be printed. *)
Definition printable (p : json) : Prop :=
  ∀ l name ip port,
    subscript p "name" = inr name → subscript p "ip" = inr ip →
    subscript p "port" = inr port →
    (l = Timeout name ip port ∨ l = Refused name ip port
     ∨ (∃ e, l = Failed name ip port e) ∨ (∃ n, l = Sent name ip n)) →
    py_print l = None.

(** The line for a target whose exchange ended in [d]. *)
Definition delivered_line (name ip port : json) (n : Z) (d : delivery)
  : log_line :=
  match d with
  | Replied => Sent name ip n
  | ConnectFailed e => failure_line name ip port e
  | ReplyFailed e => failure_line name ip port e
  end.

(** One exchange per target, in order, each from the world the one
    before left and whatever its result, and one line per target: for a
    port [int] rejects no exchange is made and the line says so. *)
Inductive sends (b : string)
  : World → list json → World → list log_line → Prop :=
  | sends_done w : sends b w [] w []
  | sends_no_port w p name ip port rest w' lines :
      subscript p "name" = inr name → subscript p "ip" = inr ip →
      subscript p "port" = inr port →
      py_int port = None →
      sends b w rest w' lines →
      sends b w (p :: rest) w'
        (failure_line name ip port (ConversionError port) :: lines)
  | sends_exchange w p name ip port n rest w' lines :
      subscript p "name" = inr name → subscript p "ip" = inr ip →
      subscript p "port" = inr port →
      py_int port = Some n →
      sends b (exchange w ip n b).1 rest w' lines →
      sends b w (p :: rest) w'
        (delivered_line name ip port n (exchange w ip n b).2 :: lines).

(** The line printed for target [p]: it names [p], and says that the
    message was sent or how the attempt failed. *)
Definition line_for (p : json) (l : log_line) : Prop :=
  ∃ name ip port,
    subscript p "name" = inr name ∧ subscript p "ip" = inr ip
    ∧ subscript p "port" = inr port
    ∧ (l = Timeout name ip port ∨ l = Refused name ip port
       ∨ (∃ e, l = Failed name ip port e)
       ∨ (∃ n, py_int port = Some n ∧ l = Sent name ip n)).

End Outbound.

End PeerAgent.

(** ** Peers as the other end of the network

    The tracker and the sample application reach a peer by connecting to
    its address and posting to /p2p/receive. Here the network is the set
    of peers that listen: connecting to an address where none listens is
    refused; otherwise the request is sent, the peer reads it with its one
    [conn.recv(8192)] and handles what it has read at the time its clock
    shows. Strings stand for the bytes on the wire, and what [sendall]
    sent is there when the peer reads. *)

Module Relay.
Import Json Exn.

Definition CRLF : string := String "013"%char (String "010"%char EmptyString).

(** [s.split(sep, 1)[0]], which is [s.partition(sep)[0]]. *)
Fixpoint before (sep s : string) : string :=
  match s with
  | EmptyString => EmptyString
  | String c s' =>
      if String.prefix sep s then EmptyString else String c (before sep s')
  end.

Fixpoint skip (n : nat) (s : string) : string :=
  match n, s with
  | S n', String _ s' => skip n' s'
  | _, _ => s
  end.

(** [s.partition(sep)[2]] *)
Fixpoint after (sep s : string) : string :=
  match s with
  | EmptyString => EmptyString
  | String _ s' =>
      if String.prefix sep s then skip (String.length sep) s
      else after sep s'
  end.

(** The first [n] bytes of what was sent. *)
Definition first_bytes (n : N) (s : string) : string :=
  String.substring 0 (N.to_nat n) s.

Section Listeners.

Variable json_loads : string → option json.
Variable py_str : json → string.
Variable py_int : json → option Z.
Variable clock : string → Z → Q.

(** [bytes.decode('utf-8', 'ignore')], [str.split()] and [str.strip()] *)
Variable py_decode : string → string.
Variable py_split : string → list string.
Variable py_strip : string → string.

(** The request the three senders build around the body [b]
    ([tracker.py] 223-225, [peer.py] 280-282, [start_sampleapp.py]
    93-95). *)
Definition request_text (ip : json) (b : string) : string :=
  "POST /p2p/receive HTTP/1.1" ++ CRLF
  ++ "Host: " ++ py_str ip ++ CRLF
  ++ "Content-Type: application/json" ++ CRLF
  ++ "Content-Length: " ++ pretty (N.of_nat (String.length b)) ++ CRLF
  ++ CRLF ++ b.

(** [Peer._handle_conn], from the bytes read to the request it
    dispatches on ([peer.py] 68-79); [None] when it returns without an
    answer. *)
Definition read_request (data : string) : option PeerAgent.request :=
  if String.eqb data "" then None
  else
    let text := py_decode data in
    match py_split (before CRLF text) with
    | method :: path :: _ =>
        Some (PeerAgent.Request method path
                (py_strip (after (CRLF ++ CRLF) text)))
    | _ => None
    end.

(** What the peer at [host] makes of the body [b] sent to it: it reads
    at most 8192 bytes of the request. *)
Definition accepted (host : string) (t : Q) (b : string)
    (st : PeerAgent.peer) : PeerAgent.peer :=
  match read_request (first_bytes 8192 (request_text (JStr host) b)) with
  | Some req => (PeerAgent._handle_conn json_loads py_str py_int t req st).1
  | None => st
  end.

(** [s.connect((ip, port)); s.sendall(req); s.recv(4096)]: the peer
    answers or closes the connection, and [recv] returns in both cases. *)
Definition deliver (L : gmap (string * Z) PeerAgent.peer) (ip : json)
    (port : Z) (b : string) : gmap (string * Z) PeerAgent.peer * delivery :=
  match ip with
  | JStr host =>
      match L !! (host, port) with
      | Some st =>
          (<[(host, port) := accepted host (clock host port) b st]> L,
           Replied)
      | None => (L, ConnectFailed ConnectionRefusedError)
      end
  | _ => (L, ConnectFailed (TypeError ip))
  end.

(** What one delivery of the body [b] at time [t] makes of a peer that
    has read the whole of it. *)
Definition received (t : Q) (b : string) (st : PeerAgent.peer)
  : PeerAgent.peer :=
  (PeerAgent._handle_conn json_loads py_str py_int t
     (PeerAgent.delivery_of b) st).1.

(** The request around [b] fits in the peer's buffer, and the peer
    finds in it the POST to /p2p/receive with the body [b]. *)
Definition arrives (host : string) (b : string) : Prop :=
  (N.of_nat (String.length (request_text (JStr host) b)) <= 8192)%N
  ∧ read_request (request_text (JStr host) b)
    = Some (PeerAgent.delivery_of b).

(** The address at which the fan-out contacts a record. *)
Definition reached_at (p : dict) (host : string) (n : Z) : Prop :=
  dict_get p "ip" JNull = JStr host
  ∧ py_int (dict_get p "port" JNull) = Some n.

End Listeners.

End Relay.

(** ** The sample application's /send-peer ([start_sampleapp.py]) *)

Module Backend.
Import Json Exn.

Section SendPeer.

Variable json_loads : string → option json.
Variable json_dumps : json → string.
Variable py_int : json → option Z.
Variable exn_str : pyexn → string.
Variable World : Type.
Variable exchange : World → json → Z → string → World * delivery.

(** The payload forwarded to the peer. *)
Definition webapp_payload (message : json) : json :=
  JObj [("from", JStr "webapp"); ("message", message)].

(** [int(payload.get('port') or 0)] *)
Definition port_of (payload : json) : result Z :=
  p ← get payload "port";
  if truthy p then
    match py_int p with
    | Some n => mret n
    | None => raise (ConversionError p)
    end
  else mret 0.

(** [send_peer(headers, body)]: the value returned, or the exception
    that leaves the handler. *)
Definition send_peer (w : World) (body : string) : World * result json :=
  match json_loads (if String.eqb body "" then "{}" else body) with
  | None => (w, mret (JObj [("error", JStr "invalid json")]))
  | Some payload =>
      match (ip ← get payload "ip";
             port ← port_of payload;
             message ← get payload "message";
             mret (ip, port, message)) with
      | inl e => (w, raise e)
      | inr (ip, port, message) =>
          if negb (truthy ip) || (port =? 0)
             || match message with JNull => true | _ => false end
          then (w, mret (JObj [("error", JStr "missing fields")]))
          else
            match exchange w ip port (json_dumps (webapp_payload message)) with
            | (w', ConnectFailed e) =>
                (w', mret (JObj [("error", JStr (exn_str e))]))
            | (w', ReplyFailed e) =>
                (w', mret (JObj [("error", JStr (exn_str e))]))
            | (w', Replied) => (w', mret (JObj [("status", JStr "ok")]))
            end
      end
  end.

(** The three answers of [send_peer]. *)
Definition sent_ok : json := JObj [("status", JStr "ok")].

Definition failed (e : pyexn) : json := JObj [("error", JStr (exn_str e))].

Definition missing_fields : json := JObj [("error", JStr "missing fields")].

(** What [send_peer] answers after an exchange. *)
Definition answer (d : delivery) : json :=
  match d with
  | Replied => sent_ok
  | ConnectFailed e => failed e
  | ReplyFailed e => failed e
  end.

End SendPeer.

End Backend.

(** ** Reading a request ([handle_http], the receive loop) *)

Module Framing.

(** What one [conn.recv(8192)] does: it returns some bytes (none at the
    end of the stream) or the 0.5 second timeout expires. *)
Inductive recv_event :=
  | Chunk (data : string)
  | TimedOut.

(** The loop that fills [raw]; when nothing more is known to arrive the
    timeout ends it. *)
Fixpoint read_request (raw : string) (events : list recv_event) : string :=
  match events with
  | [] => raw
  | TimedOut :: _ => raw
  | Chunk chunk :: rest =>
      if String.eqb chunk "" then raw
      else
        let raw' := raw ++ chunk in
        if (N.of_nat (String.length chunk) <? 8192)%N then raw'
        else read_request raw' rest
  end.

(** The bytes of the chunks, one after the other. *)
Fixpoint stream (chunks : list string) : string :=
  match chunks with
  | [] => ""
  | c :: rest => c ++ stream rest
  end.

End Framing.

(** ** The chat prompt ([start_peer.py]) *)

Module Prompt.

Section Loop.

(** [str.strip] *)
Variable strip : string → string.

(** One turn of the loop on the line typed: the channel afterwards, and
    the call [peer.broadcast(msg, channel)] if one is made. *)
Definition turn (channel : option string) (msg : string)
  : option string * option (string * string) :=
  match msg with
  | EmptyString => (channel, None)
  | String c rest =>
      if Ascii.eqb c "#" then (Some (strip rest), None)
      else
        match channel with
        | None => (None, None)
        | Some ch => (channel, Some (msg, ch))
        end
  end.

(** The broadcasts made while the lines are typed, in order. *)
Fixpoint broadcasts (channel : option string) (lines : list string)
  : list (string * string) :=
  match lines with
  | [] => []
  | msg :: rest =>
      let '(channel', call) := turn channel msg in
      match call with
      | Some b => b :: broadcasts channel' rest
      | None => broadcasts channel' rest
      end
  end.

(** A line that sets the channel. *)
Definition is_command (msg : string) : bool :=
  match msg with
  | String c _ => Ascii.eqb c "#"
  | EmptyString => false
  end.

End Loop.

End Prompt.

(** ** A concrete instance of the library functions

    A serialiser for JSON values, a decoder that is its inverse on the
    documents listed in [documents], Python's [str] and [int] on the values
    those documents hold, and a network in which port 9 refuses
    connections. They are used to run the handlers on examples. *)

Module Sample.
Import Json Exn.

Definition quoted (s : string) : string :=
  String "034"%char (s ++ String "034"%char EmptyString).

Fixpoint dumps (j : json) : string :=
  match j with
  | JNull => "null"
  | JBool b => if b then "true" else "false"
  | JInt z => pretty z
  | JFloat q => pretty (Qnum q) ++ "/" ++ pretty (Zpos (Qden q))
  | JStr s => quoted s
  | JArr l => "[" ++ String.concat ", " (map dumps l) ++ "]"
  | JObj d =>
      "{" ++ String.concat ", "
               (map (λ kv, quoted kv.1 ++ ": " ++ dumps kv.2) d) ++ "}"
  end.

Definition alice : json := PeerAgent.peer_info "10.0.0.1" 7000 "alice".
Definition bob : json := PeerAgent.peer_info "10.0.0.2" 9 "bob".
Definition carol : json := PeerAgent.peer_info "10.0.0.3" 7002 "carol".
Definition nameless : json := JObj [("ip", JStr "10.0.0.4"); ("port", JInt 7003)].
Definition portless : json := JObj [("ip", JStr "10.0.0.5"); ("name", JStr "eve")].

Definition chat (sender : json) (channel text : string) : json :=
  JObj [("from", sender); ("channel", JStr channel); ("message", JStr text)].

Definition join (channel : string) (peer : json) : json :=
  JObj [("channel", JStr channel); ("peer", peer)].

Definition documents : list json :=
  [ JObj []; JArr []; alice; bob; carol; nameless; portless;
    chat alice "team" "hi"; chat alice "private" "psst";
    join "general" alice; join "team" alice; join "team" bob;
    join "team" carol ].

Definition loads (s : string) : option json :=
  List.find (λ j, String.eqb (dumps j) s) documents.

Definition str (j : json) : string :=
  match j with
  | JStr s => s
  | JNull => "None"
  | JBool b => if b then "True" else "False"
  | _ => dumps j
  end.

Definition int (j : json) : option Z :=
  match j with
  | JInt z => Some z
  | JBool b => Some (if b then 1 else 0)
  | JFloat q => Some (Z.quot (Qnum q) (Zpos (Qden q)))
  | _ => None
  end.

Definition exn_str (e : pyexn) : string :=
  match e with
  | KeyError k => "'" ++ k ++ "'"
  | TypeError _ => "unsupported operation"
  | AttributeError _ => "object has no attribute 'get'"
  | IndexError => "list index out of range"
  | JSONDecodeError _ => "Expecting value"
  | ConversionError _ => "invalid literal for int()"
  | SocketTimeout => "timed out"
  | ConnectionRefusedError => "Connection refused"
  | OSError msg => msg
  | UnicodeEncodeError _ => "surrogates not allowed"
  end.

(** Standard output encodes every character but the last one. *)
Fixpoint mentions (c : ascii) (s : string) : bool :=
  match s with
  | EmptyString => false
  | String c' rest => Ascii.eqb c c' || mentions c rest
  end.

Definition print (text : string) : option pyexn :=
  if mentions "255"%char text then Some (UnicodeEncodeError text) else None.

(** The world is the list of addresses contacted so far. *)
Definition world : Type := list (json * Z).

Definition exchange (w : world) (ip : json) (port : Z) (b : string)
  : world * delivery :=
  ((w ++ [(ip, port)])%list,
   if port =? 9 then ConnectFailed ConnectionRefusedError else Replied).

Definition tracker_step :=
  Tracker.handle_http loads dumps str int exn_str world exchange print.

Definition tracker_serve :=
  Tracker.serve loads dumps str int exn_str world exchange print.

Definition fan_out :=
  Tracker._forward_to_peers dumps str int exn_str world exchange.

(** A network where, in addition, the peer at port 8 accepts the request
    and never answers. *)
Definition slow_exchange (w : world) (ip : json) (port : Z) (b : string)
  : world * delivery :=
  ((w ++ [(ip, port)])%list,
   if port =? 8 then ReplyFailed SocketTimeout
   else if port =? 9 then ConnectFailed ConnectionRefusedError
   else Replied).

Definition dave : json := PeerAgent.peer_info "10.0.0.6" 8 "dave".

(** The lines of [Peer.broadcast] name a peer; printing raises when the
    name cannot be encoded. *)
Definition print_line (l : PeerAgent.log_line) : option pyexn :=
  match l with
  | PeerAgent.Sent name _ _ => print (str name)
  | PeerAgent.Timeout name _ _ => print (str name)
  | PeerAgent.Refused name _ _ => print (str name)
  | PeerAgent.Failed name _ _ _ => print (str name)
  | _ => None
  end.

Definition peer_step := PeerAgent._handle_conn loads str int.

Definition peer_serve := PeerAgent.serve loads str int.

Definition empty_tracker : Tracker.tracker := Tracker.Tracker ∅ ∅.

Definition empty_peer : PeerAgent.peer := PeerAgent.Peer [] ∅.

Definition post (route : string) (j : json) : Tracker.request :=
  Tracker.Request "POST" route ∅ (dumps j).

(** Alice, Bob and Carol register and join the channel team. *)
Definition team_setup : list (Q * Tracker.request) :=
  [ (1%Q, post "/submit-info" alice); (2%Q, post "/submit-info" bob);
    (3%Q, post "/submit-info" carol);
    (4%Q, post "/add-list" (join "team" alice));
    (5%Q, post "/add-list" (join "team" bob));
    (6%Q, post "/add-list" (join "team" carol)) ].

Definition team_tracker : Tracker.tracker :=
  (tracker_serve [] team_setup empty_tracker).1.2.

Definition hi : string := dumps (chat alice "team" "hi").

Definition psst : string := dumps (chat alice "private" "psst").

(** The records of Alice, Bob and Carol, and one without a name. *)
Definition record_of (j : json) : dict :=
  match j with JObj d => d | _ => [] end.

Definition trio : list json := [alice; bob; carol].

Definition nowhere : gmap string (list string) := {[ "channel" := ["nowhere"] ]}.

(** *** More documents, and peers that listen *)

(** The entry the tracker relays. *)
Definition relayed (sender : json) (text : string) (t : Q) : dict :=
  [("from", sender); ("message", JStr text); ("ts", JFloat t)].

Definition ask (peer : json) : json := JObj [("to", peer)].

Definition send_body : json :=
  JObj [("ip", JStr "10.0.0.3"); ("port", JInt 7002);
        ("message", JStr "hello")].

Definition no_port_body : json :=
  JObj [("ip", JStr "10.0.0.3"); ("message", JStr "hello")].

(** A channel name standard output cannot encode. *)
Definition odd : string := String "255"%char EmptyString.

Definition relay_documents : list json :=
  documents
  ++ [ JObj (relayed alice "hi" 7); ask alice; send_body; no_port_body;
       Backend.webapp_payload (JStr "hello");
       join "ops" carol; chat alice "ops" "hi";
       JObj (relayed alice "hi" (15 # 2)); join odd alice ].

Definition relay_loads (s : string) : option json :=
  List.find (λ j, String.eqb (dumps j) s) relay_documents.

(** [str.strip] and [str.split] on spaces; the bytes are ASCII. *)
Fixpoint lstrip (s : string) : string :=
  match s with
  | String c rest => if Ascii.eqb c " " then lstrip rest else s
  | EmptyString => s
  end.

Definition strip (s : string) : string :=
  String.rev (lstrip (String.rev (lstrip s))).

Fixpoint split_from (word s : string) : list string :=
  match s with
  | EmptyString => if String.eqb word "" then [] else [word]
  | String c rest =>
      if Ascii.eqb c " " then
        if String.eqb word "" then split_from "" rest
        else word :: split_from "" rest
      else split_from (word ++ String c EmptyString) rest
  end.

Definition split (s : string) : list string := split_from "" s.

Definition decode (s : string) : string := s.

(** The network of listening peers, each with its clock. *)
Definition deliver (clock : string → Z → Q) :=
  Relay.deliver relay_loads str int clock decode split strip.

(** Carol listens, the others do not. *)
Definition listening : gmap (string * Z) PeerAgent.peer :=
  {[ ("10.0.0.3", 7002) := empty_peer ]}.

Definition at_eight (host : string) (port : Z) : Q := 8.

Definition at_nine (host : string) (port : Z) : Q := 9.

Definition relay_step :=
  Tracker.handle_http relay_loads dumps str int exn_str
    (gmap (string * Z) PeerAgent.peer) (deliver at_eight) print.

Definition web_send (clock : string → Z → Q) :=
  Backend.send_peer relay_loads dumps int exn_str
    (gmap (string * Z) PeerAgent.peer) (deliver clock).

(** Carol has joined ops as well. *)
Definition ops_tracker : Tracker.tracker :=
  (Tracker.serve relay_loads dumps str int exn_str
     (gmap (string * Z) PeerAgent.peer) (deliver at_eight) print listening
     [((13 # 2)%Q, post "/add-list" (join "ops" carol))] team_tracker).1.2.

Definition hi_ops : string := dumps (chat alice "ops" "hi").

(** A cache of 501 keys, the key [n] recorded at time [n]. *)
Definition crowded : gmap string Q :=
  list_to_map ((λ n : nat, (pretty n, inject_Z (Z.of_nat n))) <$> seq 0 501).

(** A message of 9000 bytes. *)
Definition long_text : string := Pos.iter (String "x") EmptyString 9000.

(** A chunk of 8192 bytes. *)
Definition full_chunk : string :=
  Pos.iter (String "x") EmptyString 8192.

End Sample.

(** * Properties *)

(** ** Dictionaries and timestamps *)

Module JsonFacts.
Import Json.

Lemma Qltb_lt x y : Qltb x y = true ↔ (x < y)%Q.
Proof.
  unfold Qltb. rewrite negb_true_iff, <- not_true_iff_false, Qle_bool_iff.
  split; [apply Qnot_le_lt | apply Qlt_not_le].
Qed.

Lemma Qltb_ge x y : Qltb x y = false ↔ (y <= x)%Q.
Proof. unfold Qltb. rewrite negb_false_iff. apply Qle_bool_iff. Qed.

Lemma dict_find_set_eq d k v : dict_find (dict_set d k v) k = Some v.
Proof.
  induction d as [|[k' v'] d IH]; simpl.
  - by rewrite String.eqb_refl.
  - destruct (String.eqb k k') eqn:E; simpl; rewrite E; [done | apply IH].
Qed.

Lemma dict_find_set_ne d k k' v :
  k ≠ k' → dict_find (dict_set d k v) k' = dict_find d k'.
Proof.
  intros Hne. induction d as [|[k0 v0] d IH]; simpl.
  - destruct (String.eqb k' k) eqn:E; [|done].
    apply String.eqb_eq in E. congruence.
  - destruct (String.eqb k k0) eqn:E; simpl.
    + apply String.eqb_eq in E. subst k0.
      destruct (String.eqb k' k) eqn:E'; [|done].
      apply String.eqb_eq in E'. congruence.
    + by rewrite IH.
Qed.

Lemma dict_get_set_ne d k k' v dflt :
  k ≠ k' → dict_get (dict_set d k v) k' dflt = dict_get d k' dflt.
Proof. intros. unfold dict_get. by rewrite dict_find_set_ne. Qed.

End JsonFacts.

(** ** The peer agent: deduplication and the inbox *)

Module PeerAgentSpec.
Import Json Exn PeerAgent JsonFacts.
Local Open Scope list_scope.

Section Inbound.

Variable json_loads : string → option json.
Variable py_str : json → string.
Variable py_int : json → option Z.

Local Abbreviation handle := (_handle_conn json_loads py_str py_int).
Local Abbreviation key_of := (dedupe_key py_str py_int).
Local Abbreviation parse := (parse_payload json_loads).
Local Abbreviation enqueues := (enqueues json_loads py_str py_int).
Local Abbreviation enqueued := (enqueued json_loads py_str py_int).

Lemma handle_delivery now content st :
  handle now (delivery_of content) st
  = receive json_loads py_str py_int now content st.
Proof. reflexivity. Qed.

Lemma handle_poll now st : handle now poll st = drain st.
Proof. reflexivity. Qed.

(** The key is computed after the receipt time has been stamped on the
    payload, and does not read it. *)
Lemma key_ignores_ts d v : key_of (dict_set d "ts" v) = key_of d.
Proof.
  unfold dedupe_key, key_msg.
  by rewrite !dict_get_set_ne.
Qed.

Lemma is_duplicate_true now last :
  is_duplicate now last = true ↔
  ∃ l, last = Some l ∧ ¬ (l == 0)%Q ∧ (now - l < 2)%Q.
Proof.
  destruct last as [l|]; simpl.
  - rewrite andb_true_iff, negb_true_iff, Qltb_lt,
      <- not_true_iff_false, Qeq_bool_iff.
    split; [intros []; eauto | intros (? & [= <-] & ? & ?); auto].
  - split; [done | intros (? & ? & _); done].
Qed.

Lemma is_duplicate_younger now st key :
  clock_started st →
  is_duplicate now (_recent_keys st !! key) = true ↔ younger st key now.
Proof.
  intros Hclock. rewrite is_duplicate_true. unfold younger. split.
  - intros (l & Hl & _ & Hage). eauto.
  - intros (l & Hl & Hage). exists l. eauto.
Qed.

(** The pruning pass never deletes the key recorded just before it. *)
Lemma prune_keeps_fresh now key rk :
  prune now (<[key := now]> rk) !! key = Some now.
Proof.
  unfold prune. destruct (500 <? size _)%nat.
  - apply map_lookup_filter_Some. split; [apply lookup_insert_eq|].
    simpl. apply Qltb_ge. lra.
  - apply lookup_insert_eq.
Qed.

(** Pruning only deletes entries older than 5 seconds. *)
Lemma prune_lookup now rk k t :
  rk !! k = Some t → (now - 5 <= t)%Q → prune now rk !! k = Some t.
Proof.
  intros Hk Hage. unfold prune. destruct (500 <? size _)%nat; [|done].
  apply map_lookup_filter_Some. split; [done|]. by apply Qltb_ge.
Qed.

Lemma prune_lookup_Some now rk k t :
  prune now rk !! k = Some t → rk !! k = Some t.
Proof.
  unfold prune. destruct (500 <? size _)%nat; [|done].
  intros H. by apply map_lookup_filter_Some in H as [? _].
Qed.

Lemma receive_duplicate now content d st :
  parse content = JObj d →
  is_duplicate now (_recent_keys st !! key_of d) = true →
  receive json_loads py_str py_int now content st = (st, duplicate_ignored).
Proof.
  intros Hp Hdup. unfold receive. rewrite Hp. cbv zeta.
  by rewrite key_ignores_ts, Hdup.
Qed.

Lemma receive_fresh now content d st :
  parse content = JObj d →
  is_duplicate now (_recent_keys st !! key_of d) = false →
  receive json_loads py_str py_int now content st
  = (Peer (messages st ++ [JObj (dict_set d "ts" (JFloat now))])
          (prune now (<[key_of d := now]> (_recent_keys st))),
     ok_response).
Proof.
  intros Hp Hdup. unfold receive. rewrite Hp. cbv zeta.
  by rewrite key_ignores_ts, Hdup.
Qed.

(** A body that parses to something other than a dictionary is answered
    ok and changes nothing. *)
Lemma receive_non_object now content st :
  (∀ d, parse content ≠ JObj d) →
  receive json_loads py_str py_int now content st = (st, ok_response).
Proof.
  intros Hp. unfold receive. destruct (parse content); try done.
  by destruct (Hp d).
Qed.

(** A recording clock that never reads zero keeps the cache free of
    zero entries. *)
Lemma clock_started_step now req st :
  ¬ (now == 0)%Q → clock_started st → clock_started (handle now req st).1.
Proof.
  intros Hnow Hst. unfold _handle_conn.
  destruct (String.eqb _ "OPTIONS"); [done|].
  destruct (_ && _).
  - unfold receive. destruct (parse _); try done. cbv zeta.
    destruct (is_duplicate _ _); [done|]. simpl.
    intros k t Hk. apply prune_lookup_Some in Hk.
    apply lookup_insert_Some in Hk as [[_ <-]|[_ Hk]]; [done|].
    by apply (Hst k).
  - destruct (_ && _); done.
Qed.

Lemma peer_serve_cons now req reqs st :
  serve json_loads py_str py_int ((now, req) :: reqs) st
  = let out := handle now req st in
    let rest := serve json_loads py_str py_int reqs out.1 in
    (rest.1, out.2 :: rest.2).
Proof.
  cbn [serve]. cbv zeta. destruct (handle now req st) as [st1 r].
  cbn [fst snd]. by destruct (serve _ _ _ reqs st1).
Qed.

(** *** Deduplication *)

Lemma window_scenario content d st t1 t2 t3 :
  parse content = JObj d →
  clock_started st →
  ¬ younger st (key_of d) t1 →
  ¬ (t1 == 0)%Q → (t2 - t1 < 2)%Q → (2 <= t3 - t1)%Q →
  (serve json_loads py_str py_int
     [(t1, delivery_of content); (t2, delivery_of content);
      (t3, delivery_of content)] st).2
  = [ok_response; duplicate_ignored; ok_response].
Proof.
  intros Hp Hclock Hfresh Ht1 Ht2 Ht3.
  assert (is_duplicate t1 (_recent_keys st !! key_of d) = false) as H1.
  { apply not_true_iff_false. by rewrite is_duplicate_younger. }
  rewrite peer_serve_cons, handle_delivery, (receive_fresh _ _ d) by done.
  cbn [fst snd]. set (st1 := Peer _ _).
  assert (_recent_keys st1 !! key_of d = Some t1) as Hrec
    by apply prune_keeps_fresh.
  rewrite peer_serve_cons, handle_delivery, (receive_duplicate t2 _ d) by
    (rewrite ?Hrec, ?is_duplicate_true; eauto).
  cbn [fst snd].
  rewrite peer_serve_cons, handle_delivery, (receive_fresh t3 _ d); [done | done |].
  apply not_true_iff_false. rewrite Hrec, is_duplicate_true.
  intros (l & [= <-] & _ & Hage). lra.
Qed.

(** X23. For every inbound payload whose body does not
    parse (and is wrapped as [{'raw': body}]) or parses to a JSON
    object, received by a peer whose recorded receipt times are not the
    zero of the clock: if the dedupe key has an entry younger than 2
    seconds the response is duplicate_ignored and nothing changes;
    otherwise the key is recorded with the receipt time, the stamped
    message is appended to the inbox and the response is ok. Delivering
    one payload three times, the second time within 2 seconds of the
    first and the third time 2 seconds or more after it, yields ok,
    duplicate_ignored, ok. *)
Theorem receive_dedupe now content d st :
  parse content = JObj d →
  clock_started st →
  let key := key_of d in
  let out := handle now (delivery_of content) st in
  (younger st key now → out = (st, duplicate_ignored)) ∧
  (¬ younger st key now →
     out.2 = ok_response ∧
     messages out.1 = messages st ++ [JObj (dict_set d "ts" (JFloat now))] ∧
     _recent_keys out.1 !! key = Some now) ∧
  (∀ t2 t3,
     ¬ younger st key now → ¬ (now == 0)%Q →
     (t2 - now < 2)%Q → (2 <= t3 - now)%Q →
     (serve json_loads py_str py_int
        [(now, delivery_of content); (t2, delivery_of content);
         (t3, delivery_of content)] st).2
     = [ok_response; duplicate_ignored; ok_response]).
Proof.
  intros Hp Hclock key out. subst out. rewrite handle_delivery.
  split; [|split].
  - intros Hy. apply (receive_duplicate _ _ d); [done|].
    by apply is_duplicate_younger.
  - intros Hn. rewrite (receive_fresh _ _ d); [|done|].
    + simpl. split; [done|]. split; [done|]. apply prune_keeps_fresh.
    + apply not_true_iff_false. by rewrite is_duplicate_younger.
  - intros t2 t3 ????. by apply (window_scenario _ d).
Qed.

(** *** Duplicates leave the peer untouched *)

Lemma duplicate_response_noop now req st :
  (handle now req st).2 = duplicate_ignored → (handle now req st).1 = st.
Proof.
  unfold _handle_conn.
  destruct (String.eqb _ "OPTIONS"); [done|].
  destruct (_ && _).
  - unfold receive. destruct (parse _); try done. cbv zeta.
    by destruct (is_duplicate _ _).
  - by destruct (_ && _).
Qed.

Lemma duplicates_are_ignored content d st t0 ts :
  parse content = JObj d →
  _recent_keys st !! key_of d = Some t0 →
  ¬ (t0 == 0)%Q →
  Forall (λ t, (t - t0 < 2)%Q) ts →
  serve json_loads py_str py_int ((λ t, (t, delivery_of content)) <$> ts) st
  = (st, (λ _, duplicate_ignored) <$> ts).
Proof.
  intros Hp Hrec Ht0. induction 1 as [|t ts Ht _ IH]; [done|].
  rewrite fmap_cons, peer_serve_cons, handle_delivery, (receive_duplicate t _ d).
  - cbn [fst snd]. by rewrite IH.
  - done.
  - rewrite Hrec, is_duplicate_true. eauto.
Qed.

(** C10. A request answered duplicate_ignored leaves the whole peer
    state as it was: the inbox and the dedupe cache, hence the recorded
    time of the key. So once a payload has been accepted at time [t0],
    any run of identical payloads arriving less than 2 seconds after
    [t0] is ignored without moving that time, and the next identical
    payload arriving 2 seconds or more after [t0] is accepted again. *)
Theorem duplicate_is_noop :
  (∀ now req st,
     (handle now req st).2 = duplicate_ignored →
     (handle now req st).1 = st) ∧
  (∀ content d st t0 ts t,
     parse content = JObj d →
     ¬ (t0 == 0)%Q →
     let accepted := handle t0 (delivery_of content) st in
     accepted.2 = ok_response →
     Forall (λ t', (t' - t0 < 2)%Q) ts →
     (2 <= t - t0)%Q →
     let run := serve json_loads py_str py_int
                  ((λ t', (t', delivery_of content)) <$> ts) accepted.1 in
     run = (accepted.1, (λ _, duplicate_ignored) <$> ts) ∧
     _recent_keys run.1 !! key_of d = Some t0 ∧
     let again := handle t (delivery_of content) run.1 in
     again.2 = ok_response ∧
     messages again.1
     = messages accepted.1 ++ [JObj (dict_set d "ts" (JFloat t))]).
Proof.
  split; [apply duplicate_response_noop|].
  intros content d st t0 ts t Hp Ht0 accepted Hok Hts Ht run.
  assert (_recent_keys accepted.1 !! key_of d = Some t0) as Hrec.
  { subst accepted. revert Hok. rewrite handle_delivery.
    destruct (is_duplicate t0 (_recent_keys st !! key_of d)) eqn:E.
    - by rewrite (receive_duplicate _ _ d).
    - rewrite (receive_fresh _ _ d) by done. intros _.
      apply prune_keeps_fresh. }
  assert (run = (accepted.1, (λ _, duplicate_ignored) <$> ts)) as Hrun
    by (by apply (duplicates_are_ignored _ d _ t0)).
  split; [done|]. rewrite Hrun. simpl. split; [done|].
  rewrite handle_delivery, (receive_fresh _ _ d); [done | done |].
  apply not_true_iff_false. rewrite Hrec, is_duplicate_true.
  intros (l & [= <-] & _ & Hage). lra.
Qed.

(** *** The inbox *)

Lemma handle_is_poll now req st :
  is_poll req = true → handle now req st = drain st.
Proof.
  unfold is_poll, _handle_conn. intros [Hm Hp]%andb_true_iff.
  apply String.eqb_eq in Hm. rewrite Hm, Hp. reflexivity.
Qed.

Lemma step_appends now req st :
  is_poll req = false →
  messages (handle now req st).1 = messages st ++ enqueues now req st.
Proof.
  unfold is_poll, _handle_conn, enqueues. intros Hpoll.
  destruct (String.eqb (method req) "OPTIONS") eqn:Ho.
  { apply String.eqb_eq in Ho. rewrite Ho. simpl. by rewrite app_nil_r. }
  destruct (String.eqb (method req) "POST" && _).
  - unfold receive. destruct (parse _); simpl; rewrite ?app_nil_r; try done.
    rewrite key_ignores_ts.
    destruct (is_duplicate _ _); simpl; by rewrite ?app_nil_r.
  - rewrite Hpoll. simpl. by rewrite app_nil_r.
Qed.

Lemma serve_appends reqs st :
  Forall (λ r, is_poll r.2 = false) reqs →
  messages (serve json_loads py_str py_int reqs st).1
  = messages st ++ enqueued reqs st.
Proof.
  intros Hreqs. revert st.
  induction Hreqs as [|[now req] reqs Hreq _ IH]; intros st.
  - simpl. by rewrite app_nil_r.
  - rewrite peer_serve_cons. cbn [fst enqueued].
    by rewrite IH, step_appends, app_assoc.
Qed.

(** C4. A poll of the inbox returns the whole inbox, oldest message
    first, and leaves it empty; a poll that follows at once returns the
    empty list, so the two share no message; and whatever is served
    between two polls, the second returns exactly the messages enqueued
    in between, in the order they were enqueued. *)
Theorem drain_inbox now req st :
  is_poll req = true →
  let out := handle now req st in
  out.2 = Response 200 (Some (JArr (messages st))) ∧
  messages out.1 = [] ∧
  _recent_keys out.1 = _recent_keys st ∧
  (∀ now', handle now' req out.1 = (out.1, Response 200 (Some (JArr [])))) ∧
  (∀ reqs now',
     Forall (λ r, is_poll r.2 = false) reqs →
     let later := handle now' req
                    (serve json_loads py_str py_int reqs out.1).1 in
     later.2 = Response 200 (Some (JArr (enqueued reqs out.1))) ∧
     messages later.1 = []).
Proof.
  intros Hpoll out. subst out. rewrite handle_is_poll by done.
  repeat split.
  - intros now'. by rewrite handle_is_poll.
  - rewrite handle_is_poll by done. simpl.
    by rewrite serve_appends.
  - by rewrite handle_is_poll.
Qed.

(** *** The window under other traffic *)

Lemma recorded_key_step now req st key t0 :
  _recent_keys st !! key = Some t0 → ¬ (t0 == 0)%Q → (now - t0 < 2)%Q →
  _recent_keys (handle now req st).1 !! key = Some t0.
Proof.
  intros Hrec Ht0 Hage. unfold _handle_conn.
  destruct (String.eqb _ "OPTIONS"); [done|].
  destruct (_ && _).
  - unfold receive. destruct (parse _); try done. cbv zeta.
    rewrite key_ignores_ts.
    destruct (is_duplicate _ _) eqn:Hdup; [done|]. cbn [fst _recent_keys].
    destruct (decide (key_of d = key)) as [Heq|Hne].
    + rewrite Heq, Hrec in Hdup. apply not_true_iff_false in Hdup.
      destruct Hdup. apply is_duplicate_true. eauto.
    + apply prune_lookup; [by rewrite lookup_insert_ne | lra].
  - by destruct (_ && _).
Qed.

(** X9. Once a key is recorded at a nonzero time [t0], nothing served
    less than 2 seconds after [t0] removes or refreshes it: not other
    payloads, not the pruning pass they may trigger, not a poll of the
    inbox. So a repetition of the payload arriving within the window is
    ignored whatever was served in between. *)
Theorem window_survives_traffic content d st t0 reqs t :
  parse content = JObj d →
  _recent_keys st !! key_of d = Some t0 →
  ¬ (t0 == 0)%Q →
  Forall (λ r, (r.1 - t0 < 2)%Q) reqs →
  (t - t0 < 2)%Q →
  let st' := (serve json_loads py_str py_int reqs st).1 in
  _recent_keys st' !! key_of d = Some t0
  ∧ handle t (delivery_of content) st' = (st', duplicate_ignored).
Proof.
  intros Hp Hrec Ht0 Hreqs Ht st'.
  assert (_recent_keys st' !! key_of d = Some t0) as Hrec'.
  { subst st'. revert st Hrec.
    induction Hreqs as [|[now req] reqs Hnow _ IH]; intros st Hrec; [done|].
    rewrite peer_serve_cons. cbn [fst]. apply IH.
    by apply recorded_key_step. }
  split; [done|]. rewrite handle_delivery.
  apply (receive_duplicate _ _ d); [done|].
  rewrite Hrec'. apply is_duplicate_true. eauto.
Qed.

(** *** Pruning *)

(** X10. The pruning pass does nothing to a cache of at most 500 keys;
    on a larger one it keeps exactly the entries that are not older than
    5 seconds. It never adds or alters an entry, and an entry at most 5
    seconds old always survives it. *)
Theorem prune_spec now (rk : gmap string Q) :
  ((size rk ≤ 500)%nat → prune now rk = rk)
  ∧ ((500 < size rk)%nat →
     ∀ k t, prune now rk !! k = Some t ↔ rk !! k = Some t ∧ (now - 5 <= t)%Q)
  ∧ prune now rk ⊆ rk
  ∧ (∀ k t, rk !! k = Some t → (now - 5 <= t)%Q → prune now rk !! k = Some t).
Proof.
  unfold prune. repeat split.
  - intros Hsize. apply Nat.ltb_ge in Hsize. by rewrite Hsize.
  - apply Nat.ltb_lt in H. rewrite H in H0.
    by apply map_lookup_filter_Some in H0 as [? _].
  - apply Nat.ltb_lt in H. rewrite H in H0.
    apply map_lookup_filter_Some in H0 as [_ Hkeep]. by apply Qltb_ge in Hkeep.
  - apply Nat.ltb_lt in H. rewrite H. intros [Hk Hage].
    apply map_lookup_filter_Some. split; [done|]. by apply Qltb_ge.
  - destruct (500 <? size rk)%nat; [apply map_filter_subseteq | done].
  - intros k t Hk Hage. destruct (500 <? size rk)%nat; [|done].
    apply map_lookup_filter_Some. split; [done|]. by apply Qltb_ge.
Qed.

(** *** What the inbox holds *)

Lemma queued_at_mono times times' m :
  times ⊆ times' → queued_at times m → queued_at times' m.
Proof. intros Hsub (d & t & ? & ? & Hin). exists d, t. auto. Qed.

Lemma queued_step times now req st :
  Forall (queued_at times) (messages st) →
  Forall (queued_at (times ++ [now])) (messages (handle now req st).1).
Proof.
  intros Hst.
  assert (Forall (queued_at (times ++ [now])) (messages st)) as Hst'.
  { eapply Forall_impl; [done|]. intros m. apply queued_at_mono.
    intros x Hx. apply elem_of_app. by left. }
  unfold _handle_conn. destruct (String.eqb _ "OPTIONS"); [done|].
  destruct (_ && _).
  - unfold receive. destruct (parse _); try done. cbv zeta.
    destruct (is_duplicate _ _); [done|]. cbn [fst messages].
    apply Forall_app. split; [done|]. constructor; [|done].
    exists (dict_set d "ts" (JFloat now)), now. split; [done|].
    split; [apply dict_find_set_eq|]. apply elem_of_app. right. by left.
  - destruct (_ && _); [constructor | done].
Qed.

(** X11. Every message a poll can return is a JSON object whose [ts]
    is the clock reading of one of the requests this peer has served: the
    receipt time replaces whatever [ts] the sender wrote. *)
Theorem inbox_is_stamped reqs st :
  messages st = [] →
  Forall (queued_at reqs.*1)
    (messages (serve json_loads py_str py_int reqs st).1).
Proof.
  intros Hempty.
  assert (∀ times st,
            Forall (queued_at times) (messages st) →
            Forall (queued_at (times ++ reqs.*1))
              (messages (serve json_loads py_str py_int reqs st).1)) as H.
  { clear st Hempty. induction reqs as [|[now req] reqs IH]; intros times st Hst.
    - simpl. by rewrite app_nil_r.
    - rewrite peer_serve_cons. cbn [fst]. rewrite fmap_cons. cbn [fst].
      rewrite (cons_middle now), app_assoc. apply IH. by apply queued_step. }
  apply (H [] st). rewrite Hempty. constructor.
Qed.

(** *** What the key cannot tell apart *)

Lemma append_assoc (a b c : string) : ((a +:+ b) +:+ c = a +:+ (b +:+ c))%string.
Proof.
  induction a as [|x a IH]; [done|].
  change (String x ((a +:+ b) +:+ c) = String x (a +:+ b +:+ c))%string.
  by f_equal.
Qed.

Lemma dict_get_set_eq d k v dflt : dict_get (dict_set d k v) k dflt = v.
Proof. unfold dict_get. by rewrite dict_find_set_eq. Qed.

(** X12. A payload without a channel (absent, null or empty) is keyed
    as if its channel were general, so it and the same payload sent on
    general suppress each other within the window. *)
Theorem missing_channel_is_general d :
  truthy (dict_get d "channel" JNull) = false →
  key_of d = key_of (dict_set d "channel" (JStr "general")).
Proof.
  intros Hc. unfold dedupe_key, key_msg.
  rewrite dict_get_set_eq, !dict_get_set_ne by done.
  unfold py_or at 1 4. by rewrite Hc.
Qed.

Lemma key_labelled d ch text :
  ch ≠ "" → text ≠ "" →
  key_of (labelled d ch text)
  = String.concat "|"
      [ py_str (from_ip (dict_get d "from" JNull));
        py_str (JInt (from_port py_int (dict_get d "from" JNull)));
        py_str (JStr ch); py_str (JStr text) ].
Proof.
  intros Hch%String.eqb_neq Htext%String.eqb_neq.
  unfold dedupe_key, key_msg, labelled.
  rewrite (dict_get_set_ne _ "message" "from"),
    (dict_get_set_ne _ "channel" "from") by done.
  rewrite (dict_get_set_ne _ "message" "channel") by done.
  rewrite !dict_get_set_eq.
  unfold py_or. cbn [truthy]. rewrite Hch, Htext. cbn [negb truthy].
  by rewrite Htext.
Qed.

(** X13. The four parts of the key are joined with a bar and none is
    escaped: when [str] leaves strings as they are, a message [c] on
    channel [a|b] and a message [b|c] on channel [a] from the same sender
    have the same key, so the second is dropped as a duplicate of the
    first within the window. *)
Theorem separator_collision d a b c :
  (∀ x, py_str (JStr x) = x) →
  a ≠ "" → c ≠ "" →
  key_of (labelled d (a +:+ "|" +:+ b) c)
  = key_of (labelled d a (b +:+ "|" +:+ c)).
Proof.
  intros Hstr Ha Hc.
  assert (a +:+ "|" +:+ b ≠ "")%string as Hab by by destruct a.
  assert (b +:+ "|" +:+ c ≠ "")%string as Hbc by by destruct b.
  rewrite !key_labelled, !Hstr by done.
  cbn [String.concat]. by rewrite !append_assoc.
Qed.

(** *** A delivery is never refused *)

(** X14. POST /p2p/receive never reports a failure: whatever the body,
    the answer has status 200 and says ok or duplicate_ignored. In
    particular a body that parses to something other than an object is
    answered ok although it is dropped: the peer is left as it was. *)
Theorem delivery_is_never_refused now content st :
  let out := handle now (delivery_of content) st in
  (out.2 = ok_response ∨ out.2 = duplicate_ignored)
  ∧ status out.2 = 200
  ∧ ((∀ d, parse content ≠ JObj d) → out = (st, ok_response)).
Proof.
  intros out. subst out. rewrite handle_delivery. unfold receive.
  destruct (parse content) as [| | | | | |d] eqn:Hp; cbv zeta;
    try (split; [by left|]; split; [done|]; done).
  destruct (is_duplicate _ _).
  - split; [by right|]. split; [done|]. intros H. by destruct (H d).
  - split; [by left|]. split; [done|]. intros H. by destruct (H d).
Qed.

End Inbound.

End PeerAgentSpec.

(** ** Delivery fan-out *)

Module FanoutSpec.
Import Json Exn JsonFacts.
Local Open Scope list_scope.

Section Fanout.

Variable json_loads : string → option json.
Variable json_dumps : json → string.
Variable py_str : json → string.
Variable py_int : json → option Z.
Variable exn_str : pyexn → string.
Variable World : Type.
Variable exchange : World → json → Z → string → World * delivery.
Variable py_print : PeerAgent.log_line → option pyexn.

Local Abbreviation forward_loop :=
  (Tracker.forward_loop py_str py_int exn_str World exchange).
Local Abbreviation _forward_to_peers :=
  (Tracker._forward_to_peers json_dumps py_str py_int exn_str World exchange).
Local Abbreviation outcomes := (Tracker.outcomes py_int World exchange).
Local Abbreviation attempted := (Tracker.attempted py_str).
Local Abbreviation target_id := (Tracker.target_id py_str).
Local Abbreviation result_entry := (Tracker.result_entry exn_str).
Local Abbreviation fans_out :=
  (Tracker.fans_out py_str py_int exn_str World exchange).
Local Abbreviation broadcast_loop :=
  (PeerAgent.broadcast_loop py_int World exchange py_print).
Local Abbreviation send_to :=
  (PeerAgent.send_to py_int World exchange py_print).
Local Abbreviation on_error := (PeerAgent.on_error py_print).
Local Abbreviation line_for := (PeerAgent.line_for py_int).
Local Abbreviation printable := (PeerAgent.printable py_print).
Local Abbreviation sends := (PeerAgent.sends py_int World exchange).

Lemma outcomes_length w targets b :
  length (outcomes w targets b).2 = length targets.
Proof.
  revert w. induction targets as [|p rest IH]; intros w; simpl; [done|].
  by rewrite IH.
Qed.

(** The loop visits every target that is not excluded, whatever happened
    at the targets before it, and appends one entry for it. *)
Lemma forward_loop_spec targets w results b ex :
  forward_loop w results targets b ex
  = let tried := attempted ex targets in
    let out := outcomes w tried b in
    (out.1, results ++ zip_with result_entry (target_id <$> tried) out.2).
Proof.
  revert w results. induction targets as [|p rest IH]; intros w results.
  - simpl. by rewrite app_nil_r.
  - cbn [Tracker.forward_loop]. unfold Tracker.attempted.
    rewrite filter_cons. fold (attempted ex rest).
    destruct (Tracker.excluded ex (target_id p)) eqn:E.
    + rewrite decide_False by done. apply IH.
    + rewrite decide_True by done.
      destruct (Tracker.attempt py_int World exchange w p b) as [w' r] eqn:Ea.
      rewrite IH. cbn [Tracker.outcomes fmap list_fmap zip_with fst snd].
      rewrite Ea. cbn [fst snd]. by rewrite <- app_assoc.
Qed.

(** The attempts are exchanges: one per target whose port [int]
    accepts, at the address of the record, with the body given. *)
Lemma outcomes_fans_out targets w b :
  fans_out b w targets (outcomes w targets b).1
    (zip_with result_entry (target_id <$> targets) (outcomes w targets b).2).
Proof.
  revert w. induction targets as [|p rest IH]; intros w; [constructor|].
  cbn [Tracker.outcomes fmap list_fmap zip_with fst snd].
  unfold Tracker.attempt at 1 3.
  destruct (py_int (dict_get p "port" JNull)) as [n|] eqn:Hn.
  - pose proof (Tracker.fans_exchange py_str py_int exn_str World exchange
                  b w p n rest _ _ Hn
                  (IH (exchange w (dict_get p "ip" JNull) n b).1)) as H.
    unfold Tracker.attempt.
    rewrite Hn. by destruct (exchange w (dict_get p "ip" JNull) n b) as [w1 []].
  - unfold Tracker.attempt. rewrite Hn. cbn [fst snd].
    by apply Tracker.fans_no_port.
Qed.

Lemma say_printed l : py_print l = None → PeerAgent.say py_print l = inr l.
Proof. intros H. unfold PeerAgent.say. by rewrite H. Qed.

(** One turn of the loop of [Peer.broadcast] on a record that has its
    fields and whose lines can be printed. *)
Lemma broadcast_turn w p name ip port b :
  subscript p "name" = inr name → subscript p "ip" = inr ip →
  subscript p "port" = inr port → printable p →
  ∃ l,
    match (send_to w p b).2 with
    | inr l => mret l
    | inl e => on_error p e
    end = inr l
    ∧ match py_int port with
      | None =>
          (send_to w p b).1 = w
          ∧ l = PeerAgent.failure_line name ip port (ConversionError port)
      | Some n =>
          (send_to w p b).1 = (exchange w ip n b).1
          ∧ l = PeerAgent.delivered_line name ip port n (exchange w ip n b).2
      end.
Proof.
  intros Hn Hi Hp Hprint.
  assert (∀ e, on_error p e = inr (PeerAgent.failure_line name ip port e))
    as Herr.
  { intros e. unfold PeerAgent.on_error. rewrite Hn, Hi, Hp. simpl.
    apply say_printed, (Hprint _ name ip port); [done..|].
    destruct e; simpl; eauto 6. }
  unfold PeerAgent.send_to. rewrite Hi, Hp. simpl.
  destruct (py_int port) as [n|] eqn:En; simpl; [|by eexists].
  destruct (exchange w ip n b) as [w1 [e|e|]]; simpl; [by eexists..|].
  rewrite Hn. simpl. rewrite say_printed; [by eexists|].
  apply (Hprint _ name ip port); [done..|]. right. right. right. by exists n.
Qed.

Lemma delivered_line_for p name ip port n d :
  subscript p "name" = inr name → subscript p "ip" = inr ip →
  subscript p "port" = inr port → py_int port = Some n →
  line_for p (PeerAgent.delivered_line name ip port n d).
Proof.
  intros Hn Hi Hp En. exists name, ip, port. repeat split; try done.
  destruct d as [e|e|]; simpl; [destruct e; simpl; eauto 6..|].
  right. right. right. by exists n.
Qed.

Lemma failure_line_for p name ip port e :
  subscript p "name" = inr name → subscript p "ip" = inr ip →
  subscript p "port" = inr port →
  line_for p (PeerAgent.failure_line name ip port e).
Proof.
  intros Hn Hi Hp. exists name, ip, port. repeat split; try done.
  destruct e; simpl; eauto 6.
Qed.

Lemma broadcast_loop_completes targets w log b :
  Forall PeerAgent.has_fields targets →
  Forall printable targets →
  ∃ w' lines,
    broadcast_loop w log targets b = (w', log ++ lines, None)
    ∧ sends b w targets w' lines
    ∧ Forall2 line_for targets lines.
Proof.
  intros Hall. revert w log.
  induction Hall as [|p rest (name & ip & port & Hn & Hi & Hp) _ IH];
    intros w log Hprint.
  - exists w, []. simpl. rewrite app_nil_r. by repeat constructor.
  - apply Forall_cons in Hprint as [Hprint Hrest].
    cbn [PeerAgent.broadcast_loop].
    destruct (broadcast_turn w p name ip port b Hn Hi Hp Hprint)
      as (l & Hl & Hturn).
    destruct (send_to w p b) as [w1 r] eqn:Es. cbn [fst snd] in *.
    rewrite Hl.
    destruct (IH w1 (log ++ [l]) Hrest) as (w' & lines & -> & Hsends & Hlines).
    exists w', (l :: lines). rewrite <- app_assoc. split; [done|].
    destruct (py_int port) as [n|] eqn:En; destruct Hturn as [-> ->].
    + split; [by eapply PeerAgent.sends_exchange|].
      constructor; [by eapply delivered_line_for | done].
    + split; [by eapply PeerAgent.sends_no_port|].
      constructor; [by eapply failure_line_for | done].
Qed.

(** C3 (as amended). [_forward_to_peers] makes one exchange per target
    that is not excluded and whose port [int] accepts, at the address of
    the record and in the order of its input, each from the world the one
    before left and whatever the earlier ones did, and returns exactly one
    entry per target that is not excluded, in that order:
    [{peer, ok: False, error}] when the port is rejected or the connection
    or the sending fails, the error being captured in the entry, and
    [{peer, ok: True}] otherwise, also when waiting for the reply fails.
    The call itself never fails. The loop of [Peer.broadcast] likewise
    makes one exchange per target, in order, and prints one line per
    target, saying sent, timeout, refused or failed, over targets that are
    peer records (with name, ip and port) whose lines can be printed; it
    raises nothing there. *)
Theorem fanout_isolates_failures :
  (∀ w targets entry ex,
     let tried := attempted ex targets in
     let out := outcomes w tried (json_dumps entry) in
     let fan := _forward_to_peers w targets entry ex in
     fan = (out.1, zip_with result_entry (target_id <$> tried) out.2)
     ∧ fans_out (json_dumps entry) w tried fan.1 fan.2
     ∧ length out.2 = length tried
     ∧ length fan.2 = length tried
     ∧ Forall2 (λ p e, ∃ r, e = result_entry (target_id p) r) tried fan.2)
  ∧ (∀ pid e,
       result_entry pid (inr ()) = JObj [("peer", JStr pid); ("ok", JBool true)]
       ∧ result_entry pid (inl e)
         = JObj [("peer", JStr pid); ("ok", JBool false);
                 ("error", JStr (exn_str e))])
  ∧ (∀ w log targets b,
       Forall PeerAgent.has_fields targets →
       Forall printable targets →
       ∃ w' lines,
         broadcast_loop w log targets b = (w', log ++ lines, None)
         ∧ sends b w targets w' lines
         ∧ Forall2 line_for targets lines).
Proof.
  split; [|split].
  - intros w targets entry ex tried out fan.
    assert (fan = (out.1, zip_with result_entry (target_id <$> tried) out.2))
      as Hfan by apply forward_loop_spec.
    assert (length out.2 = length tried) as Hlen by apply outcomes_length.
    split; [done|]. rewrite Hfan. cbn [fst snd].
    split; [apply outcomes_fans_out|]. split; [done|]. split.
    + rewrite length_zip_with, length_fmap. lia.
    + clear Hfan fan. revert Hlen. generalize out.2.
      induction tried as [|p tried IH]; intros [|r rs] Hlen;
        simplify_eq/=; constructor; [by exists r | by apply IH].
  - done.
  - intros w log targets b. apply broadcast_loop_completes.
Qed.

(** *** The whole of [Peer.broadcast] *)

Local Abbreviation is_self := (PeerAgent.is_self py_int).
Local Abbreviation target_peers := (PeerAgent.target_peers py_int).
Local Abbreviation broadcast :=
  (PeerAgent.broadcast json_dumps py_int World exchange py_print).

Lemma target_peers_spec my_ip my_port peers targets :
  target_peers my_ip my_port peers = inr targets →
  sublist targets peers
  ∧ Forall (λ p, is_self my_ip my_port p = inr false) targets
  ∧ (∀ p, p ∈ peers → is_self my_ip my_port p = inr false → p ∈ targets).
Proof.
  revert targets. induction peers as [|p rest IH]; intros targets.
  - intros [= <-]. split; [done|]. split; [constructor|]. by intros p Hp.
  - cbn [PeerAgent.target_peers].
    destruct (is_self my_ip my_port p) as [e|self] eqn:Hself; [done|].
    destruct (target_peers my_ip my_port rest) as [e|others]; [done|].
    destruct (IH others eq_refl) as (Hsub & Hall & Hin).
    destruct self; intros [= <-].
    + split; [by apply sublist_cons|]. split; [done|].
      intros q [->|Hq]%elem_of_cons Hq'; [congruence | by apply Hin].
    + split; [by apply sublist_skip|]. split; [by constructor|].
      intros q [->|Hq]%elem_of_cons Hq'; [by left | right; by apply Hin].
Qed.

Lemma target_peers_raises my_ip my_port peers p e :
  p ∈ peers → is_self my_ip my_port p = inl e →
  ∃ e', target_peers my_ip my_port peers = inl e'.
Proof.
  intros Hp He. induction peers as [|q rest IH]; [by apply elem_of_nil in Hp|].
  cbn [PeerAgent.target_peers].
  destruct (is_self my_ip my_port q) as [e0|self] eqn:Hself; [by exists e0|].
  apply elem_of_cons in Hp as [->|Hp]; [congruence|].
  destruct (IH Hp) as [e' ->]. by exists e'.
Qed.

(** X15. [Peer.broadcast] on a list of peer records (each with name, ip
    and port) from which the self-filter could be computed: the targets
    are the records of the list that are not this peer's own address, in
    the order of the list. With no target the call prints that there are
    no other peers and does not use the network. Otherwise it announces
    the number of targets and then makes one exchange per target, in
    order and whatever the earlier ones did, with the payload
    [{from, channel, message}], and prints one line per target; it raises
    nothing, provided the lines of the targets can be printed. When the
    first [print] raises, the call raises before anything is sent. *)
Theorem broadcast_reaches_the_others w peers my_ip my_port my_name
    message channel targets :
  Forall PeerAgent.has_fields peers →
  target_peers my_ip my_port peers = inr targets →
  let b := json_dumps
             (JObj [("from", JObj [("ip", JStr my_ip); ("port", JInt my_port);
                                   ("name", JStr my_name)]);
                    ("channel", channel); ("message", JStr message)]) in
  let out := broadcast w peers my_ip my_port my_name message channel in
  sublist targets peers
  ∧ Forall (λ p, is_self my_ip my_port p = inr false) targets
  ∧ (∀ p, p ∈ peers → is_self my_ip my_port p = inr false → p ∈ targets)
  ∧ (targets = [] →
     out = match py_print (PeerAgent.NoOtherPeers channel) with
           | None => (w, [PeerAgent.NoOtherPeers channel], None)
           | Some e => (w, [], Some e)
           end)
  ∧ (targets ≠ [] →
     match py_print (PeerAgent.Broadcasting (length targets)) with
     | Some e => out = (w, [], Some e)
     | None =>
         Forall printable targets →
         ∃ w' lines,
           out = (w', PeerAgent.Broadcasting (length targets) :: lines, None)
           ∧ sends b w targets w' lines
           ∧ Forall2 line_for targets lines
     end).
Proof.
  intros Hfields Htargets b out.
  destruct (target_peers_spec _ _ _ _ Htargets) as (Hsub & Hall & Hin).
  split; [done|]. split; [done|]. split; [done|].
  subst out. unfold PeerAgent.broadcast. rewrite Htargets. split.
  - intros ->. unfold PeerAgent.say. by destruct (py_print _).
  - intros Hne. destruct targets as [|p rest]; [done|].
    cbv zeta. unfold PeerAgent.say.
    destruct (py_print (PeerAgent.Broadcasting _)) as [e|]; [done|].
    intros Hprint.
    assert (Forall PeerAgent.has_fields (p :: rest)) as Hf.
    { apply Forall_forall. intros x Hx.
      eapply (proj1 (Forall_forall _ _) Hfields), sublist_subseteq; eauto. }
    destruct (broadcast_loop_completes (p :: rest) w
                [PeerAgent.Broadcasting (length (p :: rest))] b Hf Hprint)
      as (w' & lines & Hrun & Hsends & Hlines).
    by exists w', lines.
Qed.

(** X24. The loop of [Peer.broadcast] does not survive a record
    without a name: the targets before it are contacted and get their
    line; the record itself is contacted, if its port converts; then the
    [except] clause, formatting [p['name']], raises the [KeyError] out of
    the loop and of the call, and the targets after it are never
    contacted. *)
Theorem broadcast_stops_at_nameless w log pre p rest b ip port e :
  Forall PeerAgent.has_fields pre →
  Forall printable pre →
  subscript p "name" = inl e →
  subscript p "ip" = inr ip →
  subscript p "port" = inr port →
  ∃ w1 lines,
    sends b w pre w1 lines
    ∧ broadcast_loop w log (pre ++ p :: rest) b
      = (match py_int port with
         | Some n => (exchange w1 ip n b).1
         | None => w1
         end,
         log ++ lines, Some e).
Proof.
  intros Hall. revert w log.
  induction Hall as [|q pre (name & qip & qport & Hn & Hi & Hp) _ IH];
    intros w log Hprint Hname Hip Hport.
  - exists w, []. split; [constructor|]. rewrite app_nil_r.
    cbn [app PeerAgent.broadcast_loop]. unfold PeerAgent.send_to.
    rewrite Hip, Hport. simpl.
    assert (on_error p = λ _, inl e) as Herr.
    { unfold PeerAgent.on_error. by rewrite Hname. }
    destruct (py_int port) as [n|]; simpl; [|by rewrite Herr].
    destruct (exchange w ip n b) as [w1 [e0|e0|]]; simpl;
      rewrite ?Hname, ?Herr; done.
  - apply Forall_cons in Hprint as [Hq Hrest].
    cbn [app PeerAgent.broadcast_loop].
    destruct (broadcast_turn w q name qip qport b Hn Hi Hp Hq)
      as (l & Hl & Hturn).
    destruct (send_to w q b) as [w0 r] eqn:Es. cbn [fst snd] in *.
    rewrite Hl.
    destruct (IH w0 (log ++ [l]) Hrest Hname Hip Hport)
      as (w1 & lines & Hsends & ->).
    exists w1, (l :: lines). rewrite <- app_assoc. split; [|done].
    destruct (py_int qport) as [n|] eqn:En; destruct Hturn as [-> ->].
    + by eapply PeerAgent.sends_exchange.
    + by eapply PeerAgent.sends_no_port.
Qed.


End Fanout.

End FanoutSpec.

(** ** The tracker: registration, listing and broadcast *)

Module TrackerSpec.
Import Json Exn JsonFacts Tracker.
Local Open Scope list_scope.

Section Registry.

Variable json_loads : string → option json.
Variable json_dumps : json → string.
Variable py_str : json → string.
Variable py_int : json → option Z.
Variable exn_str : pyexn → string.
Variable World : Type.
Variable exchange : World → json → Z → string → World * delivery.
Variable py_print : string → option pyexn.

Local Abbreviation handle_http :=
  (handle_http json_loads json_dumps py_str py_int exn_str World exchange
     py_print).
Local Abbreviation serve :=
  (serve json_loads json_dumps py_str py_int exn_str World exchange py_print).
Local Abbreviation loads := (loads json_loads).
Local Abbreviation _peer_id := (_peer_id py_str).
Local Abbreviation submit_info := (submit_info json_loads py_str exn_str).
Local Abbreviation add_list := (add_list json_loads py_str exn_str py_print).
Local Abbreviation connect_peer :=
  (connect_peer json_loads py_str exn_str py_print).
Local Abbreviation settle_at := (settle_at exn_str World).
Local Abbreviation broadcast_peer :=
  (broadcast_peer json_loads json_dumps py_str py_int exn_str World exchange).
Local Abbreviation _forward_to_peers :=
  (_forward_to_peers json_dumps py_str py_int exn_str World exchange).
Local Abbreviation peers_wf := (peers_wf py_str).
Local Abbreviation has_id := (has_id py_str).
Local Abbreviation well_formed_broadcast := (well_formed_broadcast json_loads).
Local Abbreviation server_error := (server_error exn_str).
Local Abbreviation settle := (settle exn_str World).
Local Abbreviation invalid_json := (invalid_json exn_str).

Lemma handle_submit_info w now q content st :
  handle_http w now (submit q content) st
  = settle w st (submit_info now content st).
Proof.
  unfold Tracker.handle_http, dispatch. cbn.
  by destruct (submit_info now content st) as [e|[st' r]].
Qed.

Lemma handle_get_list w now q content st :
  handle_http w now (Request "GET" "/get-list" q content) st
  = settle w st (get_list q st).
Proof.
  unfold Tracker.handle_http, dispatch. cbn.
  by destruct (get_list q st) as [e|[st' r]].
Qed.

Lemma handle_add_list w now q content st :
  handle_http w now (Request "POST" "/add-list" q content) st
  = settle_at w (add_list content st).
Proof.
  unfold Tracker.handle_http, dispatch, Tracker.settle_at. cbn.
  by destruct (add_list content st) as [st' [e|r]].
Qed.

Lemma handle_broadcast_peer w now q content st :
  handle_http w now (Request "POST" "/broadcast-peer" q content) st
  = match broadcast_peer w now content st with
    | inr out => out
    | inl e => (w, st, server_error e)
    end.
Proof.
  unfold Tracker.handle_http, dispatch. cbn.
  by destruct (broadcast_peer w now content st) as [e|[[w' st'] r]].
Qed.

Lemma filter_none {A} (P : A → Prop) `{∀ x, Decision (P x)} (l : list A) :
  (∀ x, x ∈ l → ¬ P x) → filter P l = [].
Proof.
  induction l as [|x l IH]; intros Hl; [done|].
  rewrite filter_cons_False by (apply Hl; left).
  apply IH. intros y Hy. apply Hl. by right.
Qed.

(** *** The identity of a record *)

Lemma peer_id_fields d ip port :
  dict_find d "ip" = Some ip → dict_find d "port" = Some port →
  _peer_id (JObj d) = inr (py_str ip ++ ":" ++ py_str port)%string.
Proof. intros Hi Hp. unfold Tracker._peer_id. simpl. by rewrite Hi, Hp. Qed.

Lemma peer_id_inv obj pid :
  _peer_id obj = inr pid →
  ∃ d ip port, obj = JObj d ∧ dict_find d "ip" = Some ip
               ∧ dict_find d "port" = Some port
               ∧ pid = (py_str ip ++ ":" ++ py_str port)%string.
Proof.
  unfold Tracker._peer_id. destruct obj; try done. simpl.
  destruct (dict_find d "ip") as [ip|] eqn:Hi; [|done]. simpl.
  destruct (dict_find d "port") as [port|] eqn:Hp; [|done]. simpl.
  intros [= <-]. by exists d, ip, port.
Qed.

Lemma peer_id_missing d :
  dict_find d "ip" = None ∨ dict_find d "port" = None →
  ∃ k, _peer_id (JObj d) = inl (KeyError k).
Proof.
  unfold Tracker._peer_id. simpl. intros [Hi|Hp].
  - rewrite Hi. by exists "ip".
  - destruct (dict_find d "ip"); simpl; [|by exists "ip"].
    rewrite Hp. by exists "port".
Qed.

Lemma peer_id_non_object obj :
  (∀ d, obj ≠ JObj d) → _peer_id obj = inl (TypeError obj).
Proof. intros Hobj. destruct obj; try done. by destruct (Hobj d). Qed.

(** Stamping the registration time does not change the identity. *)
Lemma peer_id_stamped d v : _peer_id (JObj (dict_set d "ts" v)) = _peer_id (JObj d).
Proof.
  unfold Tracker._peer_id. simpl. by rewrite !dict_find_set_ne.
Qed.

Lemma peer_id_nonempty obj pid : _peer_id obj = inr pid → pid ≠ "".
Proof.
  intros (d & ip & port & _ & _ & _ & ->)%peer_id_inv.
  by destruct (py_str ip).
Qed.

(** *** Registration *)

Lemma submit_info_unparsable now content st :
  loads content = None →
  submit_info now content st = inr (st, invalid_json content).
Proof. intros H. unfold Tracker.submit_info. by rewrite H. Qed.

Lemma submit_info_raises now content obj e st :
  loads content = Some obj → _peer_id obj = inl e →
  submit_info now content st = inl e.
Proof. intros H He. unfold Tracker.submit_info. by rewrite H, He. Qed.

Lemma submit_info_ok now content d pid st :
  loads content = Some (JObj d) → _peer_id (JObj d) = inr pid →
  submit_info now content st
  = let P := <[pid := dict_set d "ts" (JFloat now)]> (PEERS st) in
    inr (Tracker P (CHANNELS st), ok_registration (size P)).
Proof. intros H Hp. unfold Tracker.submit_info. by rewrite H, Hp. Qed.

(** C8 (as amended). A registration whose body does not parse is
    refused with status 400, [invalid json] and a description; one whose
    body parses to something without [ip] or without [port] (or that is not
    an object) ends in the handler's 500 answer carrying the description
    of the fault; in both cases neither table changes. The field [name]
    is not looked at: an object that has [ip] and [port] is registered. *)
Theorem malformed_registration w now q content st :
  let out := handle_http w now (submit q content) st in
  (loads content = None →
     out = (w, st,
            Response 400
              (JObj [("error", JStr "invalid json");
                     ("detail", JStr (exn_str (JSONDecodeError content)))])))
  ∧ (∀ obj,
       loads content = Some obj →
       (∀ d, obj ≠ JObj d)
       ∨ (∃ d, obj = JObj d
               ∧ (dict_find d "ip" = None ∨ dict_find d "port" = None)) →
       ∃ e, out = (w, st, Response 500 (JObj [("error", JStr (exn_str e))])))
  ∧ (∀ d ip port,
       loads content = Some (JObj d) →
       dict_find d "ip" = Some ip → dict_find d "port" = Some port →
       code out.2 = 200
       ∧ PEERS out.1.2 !! (py_str ip ++ ":" ++ py_str port)%string
         = Some (dict_set d "ts" (JFloat now))).
Proof.
  intros out. subst out. rewrite handle_submit_info. split; [|split].
  - intros H. by rewrite submit_info_unparsable.
  - intros obj H Hbad.
    assert (∃ e, _peer_id obj = inl e) as [e He].
    { destruct Hbad as [Hobj|(d & -> & Hd)].
      - eexists. by apply peer_id_non_object.
      - destruct (peer_id_missing d Hd) as [k Hk]. eauto. }
    exists e. by rewrite (submit_info_raises _ _ obj e).
  - intros d ip port H Hi Hp.
    rewrite (submit_info_ok _ _ d _ _ H (peer_id_fields d ip port Hi Hp)).
    simpl. split; [done|]. apply lookup_insert_eq.
Qed.

(** The identities in the peer table stay those of the records. *)
Lemma peers_wf_insert P d pid v :
  peers_wf P → _peer_id (JObj d) = inr pid →
  peers_wf (<[pid := dict_set d "ts" v]> P).
Proof.
  intros HP Hpid k r [[<- <-]|[_ Hk]]%lookup_insert_Some.
  - by rewrite peer_id_stamped.
  - by apply HP.
Qed.

Lemma count_identity P pid v :
  peers_wf P → P !! pid = Some v →
  length (filter (λ r, has_id pid r = true) (map_to_list P).*2) = 1%nat.
Proof.
  intros HP Hv.
  rewrite <- (insert_delete_id P pid v Hv) at 1.
  rewrite map_to_list_insert by apply lookup_delete_eq.
  rewrite fmap_cons, filter_cons_True.
  2:{ unfold Tracker.has_id. cbn [snd]. rewrite (HP pid v Hv).
      apply String.eqb_refl. }
  rewrite filter_none; [done|].
  intros r [[k r'] [-> Hin]]%list_elem_of_fmap.
  apply elem_of_map_to_list in Hin.
  apply lookup_delete_Some in Hin as [Hne Hk]. cbn [snd].
  unfold Tracker.has_id. rewrite (HP k r' Hk).
  intros Heq%String.eqb_eq. congruence.
Qed.

(** C6. Registering the same body twice: both calls answer ok, the
    second reports the same peer count as the first, the table has the
    size it had after the first call and is the one a single registration
    at the second time would have produced, the record stored under the
    identity [ip:port] is the one of the second call, and the listing of a
    table whose records are stored under their own identities holds
    exactly one record with this identity. *)
Theorem registration_is_upsert w now1 now2 q content d pid st :
  loads content = Some (JObj d) →
  _peer_id (JObj d) = inr pid →
  let first := handle_http w now1 (submit q content) st in
  let second := handle_http first.1.1 now2 (submit q content) first.1.2 in
  first.2 = ok_registration (size (PEERS first.1.2))
  ∧ second.2 = ok_registration (size (PEERS first.1.2))
  ∧ size (PEERS second.1.2) = size (PEERS first.1.2)
  ∧ PEERS second.1.2 !! pid = Some (dict_set d "ts" (JFloat now2))
  ∧ PEERS second.1.2 = <[pid := dict_set d "ts" (JFloat now2)]> (PEERS st)
  ∧ CHANNELS second.1.2 = CHANNELS st
  ∧ (peers_wf (PEERS st) →
     length (filter (λ r, has_id pid r = true) (listing second.1.2)) = 1%nat).
Proof.
  intros H Hpid first second. subst first second.
  rewrite !handle_submit_info, (submit_info_ok now1 _ d pid) by done.
  cbn [Tracker.settle fst snd].
  rewrite (submit_info_ok now2 _ d pid) by done.
  cbn [Tracker.settle fst snd PEERS CHANNELS].
  assert (size (<[pid:=dict_set d "ts" (JFloat now2)]>
                  (<[pid:=dict_set d "ts" (JFloat now1)]> (PEERS st)))
          = size (<[pid:=dict_set d "ts" (JFloat now1)]> (PEERS st))) as Hsize.
  { apply map_size_insert_Some. rewrite lookup_insert_eq. by eexists. }
  rewrite Hsize. repeat split.
  - apply lookup_insert_eq.
  - apply insert_insert_eq.
  - intros HP. unfold listing. cbn [PEERS].
    eapply count_identity; [|apply lookup_insert_eq].
    rewrite insert_insert_eq. by apply peers_wf_insert.
Qed.

Lemma tracker_serve_cons w now req reqs st :
  serve w ((now, req) :: reqs) st
  = let out := handle_http w now req st in
    let rest := serve out.1.1 reqs out.1.2 in
    (rest.1, out.2 :: rest.2).
Proof.
  cbn [Tracker.serve]. destruct (handle_http w now req st) as [[w1 st1] r].
  cbn [fst snd]. by destruct (serve w1 reqs st1) as [[w2 st2] rs].
Qed.

Lemma submit_info_channels now content st st' r :
  submit_info now content st = inr (st', r) → CHANNELS st' = CHANNELS st.
Proof.
  unfold Tracker.submit_info. destruct (loads content) as [obj|].
  - destruct (_peer_id obj); [done|]. simpl.
    destruct (spread obj); [done|]. simpl. by intros [= <- _].
  - by intros [= <- _].
Qed.

Lemma get_list_state q st st' r : get_list q st = inr (st', r) → st' = st.
Proof.
  unfold Tracker.get_list. destruct (channel_param q) as [|[name|]]; [done|..].
  - simpl. destruct (String.eqb name ""); by intros [= <- _].
  - by intros [= <- _].
Qed.

Lemma connect_peer_state content st st' r :
  connect_peer content st = inr (st', r) → st' = st.
Proof.
  unfold connect_peer. destruct (Tracker.loads _ content) as [obj|].
  - destruct (get obj "to") as [|to]; [done|]. simpl.
    destruct (negb (truthy to)); [by intros [= <- _]|].
    destruct (Tracker._peer_id _ to) as [|pid]; [done|]. simpl.
    destruct (PEERS st !! pid) as [[|]|]; try by intros [= <- _].
    destruct (py_print _); [done | by intros [= <- _]].
  - by intros [= <- _].
Qed.

Lemma add_list_ok content d c peer pid st :
  loads content = Some (JObj d) →
  dict_find d "channel" = Some (JStr c) → c ≠ "" →
  dict_find d "peer" = Some peer → _peer_id peer = inr pid →
  add_list content st
  = (Tracker (PEERS st)
       (<[HStr c := Channel (members_of st c ∪ {[pid]}) (log_of st c)]>
          (CHANNELS st)),
     match py_print (added_line py_str pid (JStr c)) with
     | Some e => inl e
     | None => inr ok_status
     end).
Proof.
  intros H Hc Hne Hp Hpid. unfold Tracker.add_list. rewrite H. simpl.
  unfold dict_get. rewrite Hc, Hp. simpl.
  apply String.eqb_neq in Hne. rewrite Hne.
  destruct (peer_id_inv _ _ Hpid) as (f & ip & port & -> & Hi & _).
  destruct f; [done|]. simpl. rewrite Hpid. simpl.
  by destruct (py_print _).
Qed.

(** C7 (as amended). POST /submit-info leaves the channel table as it
    is, so registering joins no channel. The join of the default channel
    is made by the peer: [register_to_tracker] follows its registration
    with a POST /add-list for channel general, and once the tracker has
    handled the two requests the peer's identity is a member of general.
    The join is answered ok, or 500 when the tracker's own [print] of the
    identity raises; the identity is a member in both cases. *)
Theorem register_does_not_join :
  (∀ w now q content st,
     CHANNELS (handle_http w now (submit q content) st).1.2 = CHANNELS st)
  ∧ (∀ w t1 t2 ip port name st,
       let info := PeerAgent.peer_info ip port name in
       let join := JObj [("channel", JStr "general"); ("peer", info)] in
       let pid := (py_str (JStr ip) ++ ":" ++ py_str (JInt port))%string in
       loads (json_dumps info) = Some info →
       loads (json_dumps join) = Some join →
       let out := serve w (zip [t1; t2]
                             (PeerAgent.register_to_tracker json_dumps
                                ip port name)) st in
       out.2 = [ok_registration (size (PEERS out.1.2));
                match py_print (added_line py_str pid (JStr "general")) with
                | None => ok_status
                | Some e => server_error e
                end]
       ∧ PEERS out.1.2 !! pid = Some (dict_set [("ip", JStr ip);
                                                 ("port", JInt port);
                                                 ("name", JStr name)]
                                        "ts" (JFloat t1))
       ∧ members_of out.1.2 "general" = members_of st "general" ∪ {[pid]}
       ∧ pid ∈ members_of out.1.2 "general").
Proof.
  split.
  - intros w now q content st. rewrite handle_submit_info.
    destruct (submit_info now content st) as [e|[st' r]] eqn:E; [done|].
    by apply submit_info_channels in E.
  - intros w t1 t2 ip port name st info join pid Hinfo Hjoin out.
    assert (_peer_id info = inr pid) as Hpid by done.
    subst out. unfold PeerAgent.register_to_tracker, PeerAgent.add_to_channel.
    cbn [zip zip_with]. rewrite tracker_serve_cons.
    change (Request "POST" "/submit-info" ∅ ?c) with (submit ∅ c).
    rewrite handle_submit_info, (submit_info_ok t1 _ _ pid _ Hinfo Hpid).
    cbn [Tracker.settle fst snd].
    rewrite tracker_serve_cons, handle_add_list,
      (add_list_ok _ _ "general" info pid _ Hjoin);
      [|done..].
    unfold Tracker.settle_at. cbn [fst snd].
    destruct (py_print _);
      cbn [Tracker.settle Tracker.serve fst snd PEERS CHANNELS];
      unfold members_of, log_of; cbn [CHANNELS];
      rewrite !lookup_insert_eq; cbn [default peers];
      repeat split; set_solver.
Qed.

(** *** Listing *)

Lemma elements_empty_gset : elements (∅ : gset string) = [].
Proof. apply elements_empty. Qed.

Lemma channels_frame w now req st :
  route req ≠ "/add-list" → route req ≠ "/broadcast-peer" →
  CHANNELS (handle_http w now req st).1.2 = CHANNELS st.
Proof.
  intros Ha%String.eqb_neq Hb%String.eqb_neq.
  unfold Tracker.handle_http, dispatch. rewrite Ha, Hb, !andb_false_r.
  destruct (String.eqb (method req) "OPTIONS"); [done|].
  destruct (_ && _).
  { destruct (Tracker.submit_info _ _ _ _ _ st) as [e|[st' r]] eqn:E; [done|].
    by apply submit_info_channels in E. }
  destruct (_ && _).
  { destruct (get_list _ st) as [e|[st' r]] eqn:E; [done|].
    by apply get_list_state in E as ->. }
  destruct (_ && _); [|done].
  destruct (connect_peer _ st) as [e|[st' r]] eqn:E; [done|].
  by apply connect_peer_state in E as ->.
Qed.

(** C9. Asking for the members of a channel that does not exist returns
    the channel name with no peers and no messages, and changes nothing
    in the registry: the channel is not created. More generally only
    POST /add-list and POST /broadcast-peer requests can change the
    channel table. *)
Theorem list_absent_channel w now q name rest body st :
  q !! "channel" = Some (name :: rest) →
  name ≠ "" →
  CHANNELS st !! HStr name = None →
  handle_http w now (Request "GET" "/get-list" q body) st
  = (w, st,
     Response 200 (JObj [("channel", JStr name); ("peers", JArr []);
                         ("messages", JArr [])]))
  ∧ (∀ w' now' req st',
       route req ≠ "/add-list" → route req ≠ "/broadcast-peer" →
       CHANNELS (handle_http w' now' req st').1.2 = CHANNELS st').
Proof.
  intros Hq Hne%String.eqb_neq Habsent. split.
  - rewrite handle_get_list. unfold Tracker.get_list, channel_param.
    rewrite Hq. simpl. rewrite Hne, Habsent. simpl.
    unfold member_records. by rewrite elements_empty_gset.
  - intros. by apply channels_frame.
Qed.

(** *** Broadcast *)

Lemma excluded_sender pid x :
  pid ≠ "" → excluded (Some pid) x = String.eqb x pid.
Proof. intros Hne%String.eqb_neq. unfold excluded. by rewrite Hne. Qed.

Lemma broadcast_peer_wf w now content f c msg st :
  well_formed_broadcast content f c msg →
  ∃ pid,
    _peer_id (JObj f) = inr pid
    ∧ broadcast_peer w now content st
      = let entry := JObj [("from", JObj f); ("message", msg);
                           ("ts", JFloat now)] in
        if String.eqb c "private" then inr (w, st, ok_broadcast [] [])
        else
          let members := members_of st c ∪ {[pid]} in
          let snapshot := member_records (PEERS st) members in
          let fan := _forward_to_peers w snapshot entry (Some pid) in
          inr (fan.1,
               Tracker (PEERS st)
                 (<[HStr c := Channel members (log_of st c ++ [entry])]>
                    (CHANNELS st)),
               ok_broadcast snapshot fan.2).
Proof.
  intros (d & H & Hf & [ip Hi] & [port Hp] & Hc & Hne & Hm & Hmsg).
  exists (py_str ip ++ ":" ++ py_str port)%string.
  pose proof (peer_id_fields f ip port Hi Hp) as Hpid. split; [done|].
  unfold Tracker.broadcast_peer. rewrite H. simpl.
  unfold dict_get. rewrite Hf, Hc, Hm. simpl.
  apply String.eqb_neq in Hne. rewrite Hne.
  assert (match f with [] => false | _ :: _ => true end = true) as ->
    by by destruct f.
  simpl. assert (match msg with JNull => true | _ => false end = false) as ->
    by by destruct msg.
  rewrite Hpid. simpl. destruct (String.eqb c "private"); [done|].
  unfold with_channel. rewrite lookup_insert_eq. simpl.
  unfold members_of, log_of.
  by destruct (Tracker._forward_to_peers _ _ _ _ _ _ _ _ _ _).
Qed.

(** C2. A well-formed broadcast to the channel private is answered
    ok with an empty peers list and an empty forwarded list; the peer
    table and the channel table are unchanged, and the network is not
    used: no delivery is attempted. *)
Theorem private_broadcast_is_isolated w now q content f msg st :
  well_formed_broadcast content f "private" msg →
  handle_http w now (Request "POST" "/broadcast-peer" q content) st
  = (w, st,
     Response 200 (JObj [("status", JStr "ok"); ("peers", JArr []);
                         ("forwarded", JArr [])])).
Proof.
  intros Hwf. rewrite handle_broadcast_peer.
  destruct (broadcast_peer_wf w now content f "private" msg st Hwf)
    as (pid & _ & ->).
  done.
Qed.

(** C5. A well-formed broadcast to a channel other than private: the
    entry [{from, message, ts}] is appended to the log of the channel
    (created if absent), the sender's identity joins its members, the
    records of the members that are registered are returned as [peers],
    and [_forward_to_peers] is run on exactly these records with the
    sender's identity excluded; its results are returned as [forwarded],
    one per record of the snapshot that does not carry the sender's
    identity. The peer table and the other channels are unchanged. *)
Theorem broadcast_persists_and_fans_out w now q content f c msg st :
  well_formed_broadcast content f c msg →
  c ≠ "private" →
  ∃ pid,
    _peer_id (JObj f) = inr pid
    ∧ let entry := JObj [("from", JObj f); ("message", msg);
                         ("ts", JFloat now)] in
      let members := members_of st c ∪ {[pid]} in
      let snapshot := member_records (PEERS st) members in
      let fan := _forward_to_peers w snapshot entry (Some pid) in
      let out := handle_http w now
                   (Request "POST" "/broadcast-peer" q content) st in
      out = (fan.1,
             Tracker (PEERS st)
               (<[HStr c := Channel members (log_of st c ++ [entry])]>
                  (CHANNELS st)),
             Response 200 (JObj [("status", JStr "ok");
                                 ("peers", JArr (JObj <$> snapshot));
                                 ("forwarded", JArr fan.2)]))
      ∧ log_of out.1.2 c = log_of st c ++ [entry]
      ∧ members_of out.1.2 c = members
      ∧ pid ∈ members_of out.1.2 c
      ∧ PEERS out.1.2 = PEERS st
      ∧ (∀ k, k ≠ HStr c → CHANNELS out.1.2 !! k = CHANNELS st !! k)
      ∧ (∀ r, r ∈ snapshot ↔ ∃ p, p ∈ members ∧ PEERS st !! p = Some r)
      ∧ length fan.2
        = length (filter (λ r, target_id py_str r ≠ pid) snapshot).
Proof.
  intros Hwf Hc%String.eqb_neq.
  destruct (broadcast_peer_wf w now content f c msg st Hwf)
    as (pid & Hpid & Hb).
  exists pid. split; [done|]. intros entry members snapshot fan out.
  assert (out = (fan.1,
             Tracker (PEERS st)
               (<[HStr c := Channel members (log_of st c ++ [entry])]>
                  (CHANNELS st)),
             ok_broadcast snapshot fan.2)) as Hout.
  { subst out. rewrite handle_broadcast_peer, Hb. cbv zeta. by rewrite Hc. }
  split; [done|]. rewrite Hout. cbn [fst snd PEERS].
  unfold members_of at 1 2, log_of at 1. cbn [CHANNELS].
  rewrite lookup_insert_eq. cbn [default peers messages].
  repeat split.
  - set_solver.
  - intros k Hk. by rewrite lookup_insert_ne.
  - intros (p & Hp%elem_of_elements & Hr)%list_elem_of_omap. eauto.
  - intros (p & Hp & Hr). apply list_elem_of_omap. exists p.
    split; [by apply elem_of_elements | done].
  - subst fan. unfold Tracker._forward_to_peers.
    rewrite FanoutSpec.forward_loop_spec. cbn [snd app].
    rewrite length_zip_with, length_fmap, FanoutSpec.outcomes_length.
    rewrite Nat.min_id. unfold attempted. f_equal.
    apply list_filter_iff. intros r.
    rewrite (excluded_sender pid) by by eapply peer_id_nonempty.
    rewrite <- not_true_iff_false, String.eqb_eq. done.
Qed.

(** *** The peer table in reachable states *)

Lemma add_list_peers content st : PEERS (add_list content st).1 = PEERS st.
Proof.
  unfold Tracker.add_list. destruct (loads content) as [obj|]; [|done].
  destruct (get obj "channel") as [|chan]; [done|]. simpl.
  destruct (get obj "peer") as [|peer]; [done|]. simpl.
  destruct (_ || _); [done|].
  destruct (_peer_id peer); [done|]. simpl.
  destruct (hash_key chan); [done|]. simpl. by destruct (py_print _).
Qed.

Lemma broadcast_peer_peers w now content st w' st' r :
  broadcast_peer w now content st = inr (w', st', r) → PEERS st' = PEERS st.
Proof.
  unfold Tracker.broadcast_peer. destruct (loads content) as [obj|].
  - destruct (get obj "from") as [|from_peer]; [done|]. simpl.
    destruct (get obj "channel") as [|chan]; [done|]. simpl.
    destruct (get obj "message") as [|message]; [done|]. simpl.
    destruct (_ || _); [by intros [= _ <- _]|].
    destruct (_peer_id from_peer); [done|]. simpl.
    destruct (eq_str chan "private"); [by intros [= _ <- _]|].
    destruct (hash_key chan); [done|]. simpl.
    destruct (Tracker._forward_to_peers _ _ _ _ _ _ _ _ _ _).
    by intros [= _ <- _].
  - by intros [= _ <- _].
Qed.

Lemma submit_info_peers_wf now content st st' r :
  peers_wf (PEERS st) →
  submit_info now content st = inr (st', r) → peers_wf (PEERS st').
Proof.
  intros HP. unfold Tracker.submit_info. destruct (loads content) as [obj|].
  - destruct (_peer_id obj) as [|pid] eqn:Hpid; [done|]. simpl.
    destruct obj; try done. simpl. intros [= <- _]. simpl.
    by apply peers_wf_insert.
  - by intros [= <- _].
Qed.

(** Every record is stored under its own identity in the empty table,
    and every request keeps it so. *)
Lemma peers_wf_empty : peers_wf ∅.
Proof. intros k v H. by rewrite lookup_empty in H. Qed.

Lemma peers_wf_step w now req st :
  peers_wf (PEERS st) → peers_wf (PEERS (handle_http w now req st).1.2).
Proof.
  intros HP. unfold Tracker.handle_http, dispatch.
  destruct (String.eqb (method req) "OPTIONS"); [done|].
  destruct (_ && _).
  { destruct (Tracker.submit_info _ _ _ _ _ st) as [e|[st' r]] eqn:E; [done|].
    by apply submit_info_peers_wf in E. }
  destruct (_ && _).
  { destruct (get_list _ st) as [e|[st' r]] eqn:E; [done|].
    by apply get_list_state in E as ->. }
  destruct (_ && _).
  { pose proof (add_list_peers (content req) st) as E.
    destruct (Tracker.add_list _ _ _ _ _ st) as [st' [e|r]];
      simpl in *; by rewrite E. }
  destruct (_ && _).
  { destruct (Tracker.broadcast_peer _ _ _ _ _ _ _ _ _ _ st)
      as [e|[[w' st'] r]] eqn:E; [done|].
    simpl. by rewrite (broadcast_peer_peers _ _ _ _ _ _ _ E). }
  destruct (_ && _); [|done].
  destruct (connect_peer _ st) as [e|[st' r]] eqn:E; [done|].
  by apply connect_peer_state in E as ->.
Qed.

Lemma peers_wf_serve reqs w st :
  peers_wf (PEERS st) → peers_wf (PEERS (serve w reqs st).1.2).
Proof.
  revert w st. induction reqs as [|[now req] reqs IH]; intros w st HP; [done|].
  rewrite tracker_serve_cons. cbn [fst snd]. apply IH. by apply peers_wf_step.
Qed.

(** *** What each handler can do to the state *)

Local Ltac refused :=
  right; left; eexists; split; [|intros; reflexivity]; reflexivity.

Lemma submit_info_cases now content :
  (∃ e, ∀ st, submit_info now content st = inl e)
  ∨ (∃ r, code r = 400 ∧ ∀ st, submit_info now content st = inr (st, r))
  ∨ (∃ pid d,
       _peer_id (JObj d) = inr pid
       ∧ ∀ st, submit_info now content st
               = let P := <[pid := dict_set d "ts" (JFloat now)]> (PEERS st) in
                 inr (Tracker P (CHANNELS st), ok_registration (size P))).
Proof.
  unfold Tracker.submit_info. destruct (loads content) as [obj|].
  - destruct (_peer_id obj) as [e|pid] eqn:Hpid.
    + left. by exists e.
    + right. right. destruct (peer_id_inv _ _ Hpid) as (d & _ & _ & -> & _).
      by exists pid, d.
  - refused.
Qed.

(** The fourth outcome of POST /add-list, the join made and the
    [print] after it raising, is the third with an exception for answer. *)
Lemma add_list_cases content :
  (∃ e, ∀ st, add_list content st = (st, inl e))
  ∨ (∃ r, code r = 400 ∧ ∀ st, add_list content st = (st, inr r))
  ∨ (∃ k pid r,
       (r = inr ok_status ∨ ∃ e, r = inl e)
       ∧ ∀ st, add_list content st
               = (Tracker (PEERS st)
                    (with_channel k (joined pid) (CHANNELS st)), r)).
Proof.
  unfold Tracker.add_list. destruct (loads content) as [obj|].
  - destruct (get obj "channel") as [e|chan]; [left; by exists e|]. simpl.
    destruct (get obj "peer") as [e|peer]; [left; by exists e|]. simpl.
    destruct (_ || _); [refused|].
    destruct (_peer_id peer) as [e|pid]; [left; by exists e|]. simpl.
    destruct (hash_key chan) as [e|k]; [left; by exists e|]. simpl.
    right. right. destruct (py_print _) as [e|].
    + exists k, pid, (inl e). split; [right; by exists e | done].
    + exists k, pid, (inr ok_status). split; [by left | done].
  - refused.
Qed.

Lemma hash_key_private chan :
  hash_key chan = inr (HStr "private") → eq_str chan "private" = true.
Proof. destruct chan; try done. simpl. by intros [= ->]. Qed.

Lemma broadcast_peer_cases now content :
  (∃ e, ∀ w st, broadcast_peer w now content st = inl e)
  ∨ (∃ r, code r = 400 ∧ ∀ w st, broadcast_peer w now content st = inr (w, st, r))
  ∨ (∀ w st, broadcast_peer w now content st = inr (w, st, ok_broadcast [] []))
  ∨ (∃ k pid entry,
       k ≠ HStr "private" ∧ pid ≠ ""
       ∧ ∀ w st,
           let C := with_channel k (logged pid entry) (CHANNELS st) in
           let snapshot :=
             member_records (PEERS st)
               (peers (default new_channel (CHANNELS st !! k)) ∪ {[pid]}) in
           let fan := _forward_to_peers w snapshot entry (Some pid) in
           broadcast_peer w now content st
           = inr (fan.1, Tracker (PEERS st) C, ok_broadcast snapshot fan.2)).
Proof.
  unfold Tracker.broadcast_peer. destruct (loads content) as [obj|].
  - destruct (get obj "from") as [e|from_peer]; [left; by exists e|]. simpl.
    destruct (get obj "channel") as [e|chan]; [left; by exists e|]. simpl.
    destruct (get obj "message") as [e|message]; [left; by exists e|]. simpl.
    destruct (_ || _); [refused|].
    destruct (_peer_id from_peer) as [e|pid] eqn:Hpid; [left; by exists e|].
    simpl. destruct (eq_str chan "private") eqn:Hpriv; [by right; right; left|].
    destruct (hash_key chan) as [e|k] eqn:Hk; [left; by exists e|]. simpl.
    right. right. right.
    exists k, pid, (JObj [("from", from_peer); ("message", message);
                          ("ts", JFloat now)]).
    split. { intros ->. apply hash_key_private in Hk. congruence. }
    split; [by eapply peer_id_nonempty|].
    intros w st. cbv zeta. unfold with_channel, logged.
    rewrite lookup_insert_eq. cbn [default peers].
    by destruct (Tracker._forward_to_peers _ _ _ _ _ _ _ _ _ _).
  - refused.
Qed.

(** A request leaves world and state alone, or it is a POST that went
    through one of the three handlers that write. *)
Lemma handle_http_cases w now req st :
  let out := handle_http w now req st in
  out.1 = (w, st)
  ∨ method req = "POST"
    ∧ ((∃ st', submit_info now (content req) st = inr (st', out.2)
               ∧ out.1 = (w, st'))
       ∨ (route req = "/add-list"
          ∧ out = settle_at w (add_list (content req) st))
       ∨ (∃ w' st', broadcast_peer w now (content req) st
                    = inr (w', st', out.2)
                    ∧ out.1 = (w', st'))).
Proof.
  unfold Tracker.handle_http, dispatch.
  destruct (String.eqb (method req) "OPTIONS"); [by left|].
  destruct (String.eqb (method req) "POST") eqn:Hpost.
  2:{ rewrite !andb_false_l.
      destruct (_ && _); [|by left].
      destruct (get_list _ st) as [e|[st' r]] eqn:E; [by left|].
      left. by apply get_list_state in E as ->. }
  apply String.eqb_eq in Hpost. rewrite !andb_true_l.
  destruct (String.eqb (route req) "/submit-info").
  { destruct (Tracker.submit_info _ _ _ _ _ st) as [e|[st' r]] eqn:E;
      [by left|]. right. split; [done|]. left. by exists st'. }
  destruct (String.eqb (method req) "GET" && _).
  { destruct (get_list _ st) as [e|[st' r]] eqn:E; [by left|].
    left. by apply get_list_state in E as ->. }
  destruct (String.eqb (route req) "/add-list") eqn:Hjoin.
  { apply String.eqb_eq in Hjoin. right. split; [done|]. right. left.
    split; [done|]. unfold Tracker.settle_at.
    by destruct (Tracker.add_list _ _ _ _ _ st) as [st' [e|r]]. }
  destruct (String.eqb (route req) "/broadcast-peer").
  { destruct (Tracker.broadcast_peer _ _ _ _ _ _ _ _ _ _ st)
      as [e|[[w' st'] r]] eqn:E; [by left|].
    right. split; [done|]. right. right. by exists w', st'. }
  destruct (String.eqb (route req) "/connect-peer"); [|by left].
  destruct (connect_peer _ st) as [e|[st' r]] eqn:E; [by left|].
  left. by apply connect_peer_state in E as ->.
Qed.

(** *** Joining a channel *)

Lemma with_channel_joined_twice k pid C :
  with_channel k (joined pid) (with_channel k (joined pid) C)
  = with_channel k (joined pid) C.
Proof.
  unfold with_channel. rewrite lookup_insert_eq, insert_insert_eq.
  f_equal. unfold joined. cbn [default peers messages]. f_equal.
  simpl. apply set_eq. intros x. rewrite !elem_of_union. tauto.
Qed.

(** X1. POST /add-list is idempotent, whatever its body: handling the
    same request a second time returns the same response and leaves the
    tracker exactly as the first call left it (so the member set of every
    channel keeps its size). Joining uses no network and registers
    nobody: the peer table is untouched. *)
Theorem join_is_idempotent w now1 now2 q content st :
  let first := handle_http w now1 (join_request q content) st in
  let second := handle_http first.1.1 now2 (join_request q content) first.1.2 in
  second = first
  ∧ first.1.1 = w
  ∧ PEERS first.1.2 = PEERS st
  ∧ ∀ name, size (members_of second.1.2 name) = size (members_of first.1.2 name).
Proof.
  intros first second. subst first second. unfold join_request.
  rewrite !handle_add_list.
  unfold Tracker.settle_at.
  destruct (add_list_cases content)
    as [[e H]|[(r & _ & H)|(k & pid & r & Hr & H)]].
  - by rewrite !H; cbn; rewrite ?H.
  - by rewrite !H; cbn; rewrite ?H.
  - rewrite H. destruct Hr as [->|[e ->]];
      cbn [fst snd]; rewrite H; cbn [PEERS CHANNELS fst snd];
      by rewrite with_channel_joined_twice.
Qed.

(** *** Looking a peer up *)

Lemma dict_set_nonempty d k v : dict_set d k v ≠ [].
Proof.
  destruct d as [|[k' v'] d]; [done|]. simpl.
  destruct (String.eqb k k'); discriminate.
Qed.

Lemma connect_peer_lookup content d to pid st :
  loads content = Some (JObj d) → dict_find d "to" = Some to →
  _peer_id to = inr pid →
  connect_peer content st
  = match PEERS st !! pid with
    | Some ((_ :: _) as info) =>
        match py_print (returning_line pid) with
        | Some e => inl e
        | None => inr (st, Response 200 (JObj [("peer", JObj info)]))
        end
    | _ => inr (st, Response 404 (JObj [("error", JStr "peer not found")]))
    end.
Proof.
  intros H Hto Hpid. unfold Tracker.connect_peer. rewrite H. simpl.
  unfold dict_get. rewrite Hto. simpl.
  destruct (peer_id_inv _ _ Hpid) as (f & ip & port & -> & Hi & _).
  destruct f; [done|]. simpl. rewrite Hpid. simpl.
  by destruct (PEERS st !! pid) as [[|]|].
Qed.

Lemma handle_connect_peer w now q content st :
  handle_http w now (connect_request q content) st
  = settle w st (connect_peer content st).
Proof.
  unfold Tracker.handle_http, dispatch. cbn.
  by destruct (connect_peer content st) as [e|[st' r]].
Qed.

(** X2. Registration followed by lookup: once a body with identity
    [pid] has been registered, POST /connect-peer for that identity
    returns the stored record, which is the submitted object stamped with
    the registration time, unless the tracker's own [print] of the
    identity raises, in which case the answer is 500 with that fault; for
    an identity that is not in the peer table the answer is 404 peer not
    found. A lookup changes nothing, whatever its answer. *)
Theorem connect_finds_registered w now now' q q' body d pid ask dto to st :
  loads body = Some (JObj d) → _peer_id (JObj d) = inr pid →
  loads ask = Some (JObj dto) → dict_find dto "to" = Some to →
  _peer_id to = inr pid →
  let reg := handle_http w now (submit q body) st in
  handle_http reg.1.1 now' (connect_request q' ask) reg.1.2
  = (w, reg.1.2,
     match py_print (returning_line pid) with
     | None =>
         Response 200 (JObj [("peer", JObj (dict_set d "ts" (JFloat now)))])
     | Some e => server_error e
     end)
  ∧ (PEERS st !! pid = None →
     handle_http w now' (connect_request q' ask) st
     = (w, st, Response 404 (JObj [("error", JStr "peer not found")]))).
Proof.
  intros Hb Hpid Ha Hto Hto_id reg. subst reg.
  rewrite handle_submit_info, (submit_info_ok now _ d pid) by done.
  cbn [Tracker.settle fst snd].
  rewrite !handle_connect_peer, !(connect_peer_lookup ask dto to pid) by done.
  cbn [Tracker.settle PEERS]. rewrite lookup_insert_eq. split.
  - pose proof (dict_set_nonempty d "ts" (JFloat now)).
    destruct (dict_set d "ts" (JFloat now)); [done|].
    by destruct (py_print _).
  - by intros ->.
Qed.

(** *** What a request can change *)

Lemma failure_cases w now req st :
  let out := handle_http w now req st in
  code out.2 ≠ 200 →
  out.1 = (w, st)
  ∨ (route req = "/add-list" ∧ code out.2 = 500
     ∧ out.1.1 = w ∧ PEERS out.1.2 = PEERS st
     ∧ ∃ k pid, CHANNELS out.1.2 = with_channel k (joined pid) (CHANNELS st)).
Proof.
  intros out Hno. subst out.
  destruct (handle_http_cases w now req st) as [H|[Hpost Hw]]; [by left|].
  destruct Hw as [(st' & E & H)|[[Hroute H]|(w' & st' & E & H)]].
  - left. rewrite H.
    destruct (submit_info_cases now (content req))
      as [[e E']|[(r & Hr & E')|(pid & d & _ & E')]]; rewrite E' in E.
    + done.
    + by injection E as <- _.
    + cbv zeta in E. injection E as _ Hresp. by rewrite <- Hresp in Hno.
  - rewrite H in Hno |- *. unfold Tracker.settle_at in *.
    destruct (add_list_cases (content req))
      as [[e E']|[(r & Hr & E')|(k & pid & r & Hr & E')]];
      rewrite E' in Hno |- *; cbn [fst snd] in *; [by left.. |].
    destruct Hr as [->|[e ->]]; [done|].
    right. repeat split; [done|]. by exists k, pid.
  - left. rewrite H.
    destruct (broadcast_peer_cases now (content req))
      as [[e E']|[(r & Hr & E')|[E'|(k & pid & entry & _ & _ & E')]]];
      rewrite E' in E.
    + done.
    + by injection E as <- <- _.
    + by injection E as <- <- _.
    + cbv zeta in E. injection E as _ _ Hresp. by rewrite <- Hresp in Hno.
Qed.

(** X3. What a request can change when it is not a POST answered
    200. A request with another method, one answered 400 or 404, and one
    answered 500 on a route other than /add-list leave the peer table and
    the channel table as they were and do not use the network. The one
    write a failed request can leave is that of POST /add-list, which
    updates the channel table before the [print] that can raise: it is
    then answered 500 with the member added; the peer table is as it was
    and the network is not used. *)
Theorem what_failures_leave_behind w now req st :
  let out := handle_http w now req st in
  (method req ≠ "POST"
   ∨ (code out.2 ≠ 200 ∧ (route req ≠ "/add-list" ∨ code out.2 ≠ 500)) →
   out.1 = (w, st))
  ∧ (code out.2 ≠ 200 →
     out.1.1 = w ∧ PEERS out.1.2 = PEERS st
     ∧ (CHANNELS out.1.2 = CHANNELS st
        ∨ ∃ k pid,
            CHANNELS out.1.2 = with_channel k (joined pid) (CHANNELS st))).
Proof.
  intros out. subst out. split.
  - intros [Hno|[Hno Hwhere]].
    + by destruct (handle_http_cases w now req st) as [H|[Hpost _]].
    + destruct (failure_cases w now req st Hno) as [H|(Hr & Hc & _)];
        [done|]. by destruct Hwhere.
  - intros Hno.
    destruct (failure_cases w now req st Hno) as [H|(_ & _ & Hw & HP & HC)].
    + rewrite H. cbn [fst snd]. split; [done|]. split; [done|]. by left.
    + split; [done|]. split; [done|]. by right.
Qed.

(** *** Nothing is ever removed *)

Lemma grows_refl st : grows st st.
Proof. split; [done|]. intros k ch H. by exists ch. Qed.

Lemma grows_trans st1 st2 st3 : grows st1 st2 → grows st2 st3 → grows st1 st3.
Proof.
  intros [HP HC] [HP' HC']. split; [set_solver|].
  intros k ch H. destruct (HC k ch H) as (ch2 & H2 & Hp & Hm).
  destruct (HC' k ch2 H2) as (ch3 & H3 & Hp' & Hm').
  exists ch3. split; [done|]. split; [set_solver|]. by etrans.
Qed.

Lemma grows_with_channel P C k f :
  (∀ ch, peers ch ⊆ peers (f ch) ∧ messages ch `prefix_of` messages (f ch)) →
  grows (Tracker P C) (Tracker P (with_channel k f C)).
Proof.
  intros Hf. split; [done|]. intros k' ch H. cbn [CHANNELS] in *.
  unfold with_channel. destruct (decide (k = k')) as [<-|Hne].
  - rewrite lookup_insert_eq, H. eexists. split; [done|]. apply Hf.
  - rewrite lookup_insert_ne by done. by exists ch.
Qed.

Lemma grows_step w now req st : grows st (handle_http w now req st).1.2.
Proof.
  destruct (handle_http_cases w now req st)
    as [H|[_ [(st' & E & H)|[[_ H]|(w' & st' & E & H)]]]];
    rewrite H; cbn [snd]; [apply grows_refl|..].
  - destruct (submit_info_cases now (content req))
      as [[e E']|[(r & _ & E')|(pid & d & _ & E')]]; rewrite E' in E.
    + done.
    + injection E as <- _. apply grows_refl.
    + cbv zeta in E. injection E as <- _. split.
      * cbn [PEERS]. rewrite dom_insert_L. set_solver.
      * intros k ch Hk. by exists ch.
  - unfold Tracker.settle_at.
    destruct (add_list_cases (content req))
      as [[e E']|[(r & _ & E')|(k & pid & r & Hr & E')]];
      rewrite E'; cbn [fst snd]; [apply grows_refl..|].
    assert (grows st (Tracker (PEERS st)
                        (with_channel k (joined pid) (CHANNELS st)))) as Hg.
    { destruct st as [P C]. apply grows_with_channel.
      intros ch. unfold joined. cbn [peers messages].
      split; [apply union_subseteq_l|done]. }
    by destruct Hr as [->|[e ->]].
  - destruct (broadcast_peer_cases now (content req))
      as [[e E']|[(r & _ & E')|[E'|(k & pid & entry & _ & _ & E')]]];
      rewrite E' in E.
    + done.
    + injection E as _ <- _. apply grows_refl.
    + injection E as _ <- _. apply grows_refl.
    + cbv zeta in E. injection E as _ <- _. destruct st as [P C].
      apply grows_with_channel. intros ch. unfold logged.
      cbn [peers messages]. split; [set_solver|]. by apply prefix_app_r.
Qed.

(** X4. The tracker never forgets: whatever requests it serves, every
    registered identity stays registered, every channel stays, with at
    least the members it had, and its log only grows at the end. *)
Theorem nothing_is_ever_removed w reqs st :
  let st' := (serve w reqs st).1.2 in
  dom (PEERS st) ⊆ dom (PEERS st')
  ∧ (∀ name, members_of st name ⊆ members_of st' name)
  ∧ (∀ name, log_of st name `prefix_of` log_of st' name)
  ∧ (∀ k, is_Some (CHANNELS st !! k) → is_Some (CHANNELS st' !! k)).
Proof.
  intros st'. assert (grows st st') as [HP HC].
  { subst st'. revert w st. induction reqs as [|[now req] reqs IH]; intros w st.
    - apply grows_refl.
    - rewrite tracker_serve_cons. cbn [fst snd].
      eapply grows_trans; [apply grows_step | apply IH]. }
  split; [done|]. repeat split.
  - intros name. unfold members_of.
    destruct (CHANNELS st !! HStr name) as [ch|] eqn:E; [|set_solver].
    destruct (HC _ _ E) as (ch' & -> & Hp & _). done.
  - intros name. unfold log_of.
    destruct (CHANNELS st !! HStr name) as [ch|] eqn:E; [|apply prefix_nil].
    destruct (HC _ _ E) as (ch' & -> & _ & Hm). done.
  - intros k [ch E]. destruct (HC _ _ E) as (ch' & -> & _). by eexists.
Qed.

(** *** The reserved channel *)

Lemma private_log_step w now req st :
  log_of (handle_http w now req st).1.2 "private" = log_of st "private".
Proof.
  destruct (handle_http_cases w now req st)
    as [H|[_ [(st' & E & H)|[[_ H]|(w' & st' & E & H)]]]];
    rewrite H; cbn [snd]; [done|..].
  - destruct (submit_info_cases now (content req))
      as [[e E']|[(r & _ & E')|(pid & d & _ & E')]]; rewrite E' in E.
    + done.
    + by injection E as <- _.
    + cbv zeta in E. by injection E as <- _.
  - unfold Tracker.settle_at.
    destruct (add_list_cases (content req))
      as [[e E']|[(r & _ & E')|(k & pid & r & Hr & E')]];
      rewrite E'; cbn [fst snd]; [done..|].
    assert (log_of (Tracker (PEERS st)
                      (with_channel k (joined pid) (CHANNELS st))) "private"
            = log_of st "private") as Hlog.
    { unfold log_of, with_channel. cbn [CHANNELS].
      destruct (decide (k = HStr "private")) as [->|Hne].
      - by rewrite lookup_insert_eq.
      - by rewrite lookup_insert_ne. }
    by destruct Hr as [->|[e ->]].
  - destruct (broadcast_peer_cases now (content req))
      as [[e E']|[(r & _ & E')|[E'|(k & pid & entry & Hk & _ & E')]]];
      rewrite E' in E.
    + done.
    + by injection E as _ <- _.
    + by injection E as _ <- _.
    + cbv zeta in E. injection E as _ <- _.
      unfold log_of, with_channel. cbn [CHANNELS].
      by rewrite lookup_insert_ne.
Qed.

(** X5. No request ever writes to the log of the channel private:
    after any sequence of requests its log is what it was, so in a tracker
    started empty it is empty for ever (a join can create the channel and
    give it members, a broadcast never stores its message). *)
Theorem private_is_never_logged w reqs st :
  log_of (serve w reqs st).1.2 "private" = log_of st "private"
  ∧ log_of (serve w reqs (Tracker ∅ ∅)).1.2 "private" = [].
Proof.
  assert (∀ w st, log_of (serve w reqs st).1.2 "private" = log_of st "private")
    as H.
  { clear w st. induction reqs as [|[now req] reqs IH]; intros w st; [done|].
    rewrite tracker_serve_cons. cbn [fst snd].
    by rewrite IH, private_log_step. }
  split; [apply H|]. by rewrite H.
Qed.

(** *** Identities in reachable states *)

Lemma count_absent P pid :
  peers_wf P → P !! pid = None →
  filter (λ r, has_id pid r = true) (map_to_list P).*2 = [].
Proof.
  intros HP Hnone. apply filter_none.
  intros r [[k r'] [-> Hin]]%list_elem_of_fmap.
  apply elem_of_map_to_list in Hin. cbn [snd].
  unfold Tracker.has_id. rewrite (HP k r' Hin).
  intros Heq%String.eqb_eq. congruence.
Qed.

(** X6. In every state reached from the empty tracker, each record of
    the peer table is stored under its own identity [ip:port], and the
    listing GET /get-list returns holds exactly one record with a given
    identity if that identity is registered, and none otherwise: no two
    listed records share an identity. *)
Theorem identities_are_unique w reqs pid :
  let st := (serve w reqs (Tracker ∅ ∅)).1.2 in
  peers_wf (PEERS st)
  ∧ length (filter (λ r, has_id pid r = true) (listing st))
    = (if bool_decide (is_Some (PEERS st !! pid)) then 1 else 0)%nat.
Proof.
  intros st. assert (peers_wf (PEERS st)) as HP.
  { subst st. apply peers_wf_serve. cbn. apply peers_wf_empty. }
  split; [done|]. unfold listing.
  destruct (PEERS st !! pid) as [v|] eqn:E.
  - rewrite bool_decide_true by by eexists. by apply (count_identity _ _ v).
  - rewrite bool_decide_false by by intros [? ?]. by rewrite count_absent.
Qed.

(** *** A broadcast as the channel listing shows it *)

(** X7. After a well-formed broadcast to a channel other than private,
    GET /get-list for that channel returns the log ending with the
    broadcast entry, and as peers the same records the broadcast returned;
    the listing itself changes nothing. *)
Theorem broadcast_is_listed w now now' q q' rest content f c msg st :
  well_formed_broadcast content f c msg →
  c ≠ "private" →
  q' !! "channel" = Some (c :: rest) →
  ∃ pid,
    _peer_id (JObj f) = inr pid
    ∧ let entry := JObj [("from", JObj f); ("message", msg);
                         ("ts", JFloat now)] in
      let snapshot :=
        member_records (PEERS st) (members_of st c ∪ {[pid]}) in
      let out := handle_http w now (broadcast_request q content) st in
      dict_find (match body out.2 with JObj d => d | _ => [] end) "peers"
      = Some (JArr (JObj <$> snapshot))
      ∧ handle_http out.1.1 now' (list_request q') out.1.2
        = (out.1.1, out.1.2,
           Response 200
             (JObj [("channel", JStr c);
                    ("peers", JArr (JObj <$> snapshot));
                    ("messages", JArr (log_of st c ++ [entry]))])).
Proof.
  intros Hwf Hc%String.eqb_neq Hq.
  destruct (broadcast_peer_wf w now content f c msg st Hwf)
    as (pid & Hpid & Hb).
  exists pid. split; [done|]. intros entry snapshot out. subst out.
  unfold broadcast_request. rewrite handle_broadcast_peer, Hb. cbv zeta.
  rewrite Hc. cbn [fst snd body ok_broadcast]. split; [done|].
  unfold list_request. rewrite handle_get_list.
  unfold Tracker.get_list, channel_param. rewrite Hq. simpl.
  destruct Hwf as (_ & _ & _ & _ & _ & _ & Hne%String.eqb_neq & _).
  rewrite Hne, lookup_insert_eq. done.
Qed.

(** *** Who is skipped by the fan-out *)

Lemma excluded_nothing x : excluded None x = false ∧ excluded (Some "") x = false.
Proof. done. Qed.

Lemma attempted_all ex (targets : list dict) :
  (∀ x, excluded ex x = false) → attempted py_str ex targets = targets.
Proof.
  intros Hex. unfold attempted. induction targets as [|p l IH]; [done|].
  rewrite filter_cons_True by apply Hex. by rewrite IH.
Qed.

Lemma zip_entries_named ex targets os :
  Forall (λ e, ∃ p, p ∈ targets
                    ∧ excluded ex (target_id py_str p) = false
                    ∧ entry_peer e = Some (JStr (target_id py_str p)))
    (zip_with (result_entry exn_str)
       (target_id py_str <$> attempted py_str ex targets) os).
Proof.
  assert (∀ l os',
            Forall (λ p, p ∈ targets
                         ∧ excluded ex (target_id py_str p) = false) l →
            Forall (λ e, ∃ p, p ∈ targets
                              ∧ excluded ex (target_id py_str p) = false
                              ∧ entry_peer e = Some (JStr (target_id py_str p)))
              (zip_with (result_entry exn_str) (target_id py_str <$> l) os'))
    as H.
  { induction l as [|p l IH]; intros [|o os'] Hl; simpl; try by constructor.
    inversion Hl as [|?? [Hin Hex] Hl']; subst. constructor; [|by apply IH].
    exists p. split; [done|]. split; [done|]. by destruct o. }
  apply H. apply Forall_forall. intros p Hp.
  by apply list_elem_of_filter in Hp as [? ?].
Qed.


End Registry.

End TrackerSpec.

(** ** From the tracker and the sample application into a peer's inbox *)

Module RelaySpec.
Import Json Exn JsonFacts.
Local Open Scope list_scope.

Section Relayed.

Variable json_loads : string → option json.
Variable json_dumps : json → string.
Variable py_str : json → string.
Variable py_int : json → option Z.
Variable exn_str : pyexn → string.
Variable py_print : string → option pyexn.
Variable py_decode : string → string.
Variable py_split : string → list string.
Variable py_strip : string → string.

Local Abbreviation listeners := (gmap (string * Z) PeerAgent.peer).
Local Abbreviation deliver clock :=
  (Relay.deliver json_loads py_str py_int clock py_decode py_split py_strip).
Local Abbreviation accepted :=
  (Relay.accepted json_loads py_str py_int py_decode py_split py_strip).
Local Abbreviation arrives :=
  (Relay.arrives py_str py_decode py_split py_strip).
Local Abbreviation tracker_handle clock :=
  (Tracker.handle_http json_loads json_dumps py_str py_int exn_str
     listeners (deliver clock) py_print).
Local Abbreviation peer_handle := (PeerAgent._handle_conn json_loads py_str py_int).
Local Abbreviation key_of := (PeerAgent.dedupe_key py_str py_int).
Local Abbreviation parse := (PeerAgent.parse_payload json_loads).
Local Abbreviation target_id := (Tracker.target_id py_str).

Local Abbreviation received := (Relay.received json_loads py_str py_int).
Local Abbreviation reached_at := (Relay.reached_at py_int).

Lemma deliver_here clock L host n b st :
  L !! (host, n) = Some st →
  deliver clock L (JStr host) n b
  = (<[(host, n) := accepted host (clock host n) b st]> L, Replied).
Proof. intros H. unfold Relay.deliver. by rewrite H. Qed.

Lemma eq_str_spec ip host : eq_str ip host = true ↔ ip = JStr host.
Proof.
  destruct ip; simpl; try (split; [done | intros [=]]).
  rewrite String.eqb_eq. split; [by intros -> | by intros [= ->]].
Qed.

Lemma deliver_lookup clock L ip n' b host n :
  (deliver clock L ip n' b).1 !! (host, n)
  = if eq_str ip host && (n' =? n)
    then accepted host (clock host n) b <$> L !! (host, n)
    else L !! (host, n).
Proof.
  unfold Relay.deliver.
  destruct (eq_str ip host && (n' =? n)) eqn:Hdec.
  - apply andb_true_iff in Hdec as [->%eq_str_spec ->%Z.eqb_eq].
    destruct (L !! (host, n)) as [st|] eqn:E; cbn [fst].
    + by rewrite lookup_insert_eq.
    + by rewrite E.
  - destruct ip as [| | | |h| |]; try done.
    destruct (L !! (h, n')) as [st|] eqn:E; [|done]. cbn [fst].
    rewrite lookup_insert_ne; [done|]. intros [= -> ->].
    simpl in Hdec. by rewrite String.eqb_refl, Z.eqb_refl in Hdec.
Qed.

Lemma attempt_lookup clock L p b host n :
  let L' := (Tracker.attempt py_int listeners (deliver clock) L p b).1 in
  (reached_at p host n
   ∧ L' !! (host, n) = accepted host (clock host n) b <$> L !! (host, n))
  ∨ (¬ reached_at p host n ∧ L' !! (host, n) = L !! (host, n)).
Proof.
  unfold Tracker.attempt, Relay.reached_at.
  destruct (py_int (dict_get p "port" JNull)) as [n'|] eqn:Hn.
  - pose proof (deliver_lookup clock L (dict_get p "ip" JNull) n' b host n)
      as Hl.
    assert ((deliver clock L (dict_get p "ip" JNull) n' b).1
            = (let '(w', d) := deliver clock L (dict_get p "ip" JNull) n' b in
               match d with
               | ConnectFailed e => (w', raise e)
               | ReplyFailed _ => (w', mret ())
               | Replied => (w', mret ())
               end : listeners * result unit).1) as <-.
    { by destruct (deliver clock L (dict_get p "ip" JNull) n' b) as [L1 []]. }
    rewrite Hl.
    destruct (eq_str (dict_get p "ip" JNull) host && (n' =? n)) eqn:Hdec.
    + apply andb_true_iff in Hdec as [->%eq_str_spec ->%Z.eqb_eq]. by left.
    + right. split; [|done]. intros [Hi [= ->]].
      rewrite Hi in Hdec. simpl in Hdec.
      by rewrite String.eqb_refl, Z.eqb_refl in Hdec.
  - right. split; [|done]. by intros [_ ?].
Qed.

Lemma forward_loop_delivers clock b ex host n st0 st1 targets :
  accepted host (clock host n) b st0 = st1 →
  accepted host (clock host n) b st1 = st1 →
  ∀ L results,
    L !! (host, n) = Some st0 ∨ L !! (host, n) = Some st1 →
    let L' := (Tracker.forward_loop py_str py_int exn_str listeners
                 (deliver clock) L results targets b ex).1 in
    (L' !! (host, n) = Some st0 ∨ L' !! (host, n) = Some st1)
    ∧ (L !! (host, n) = Some st1 → L' !! (host, n) = Some st1)
    ∧ ((∃ p, p ∈ targets ∧ Tracker.excluded ex (target_id p) = false
             ∧ reached_at p host n) →
       L' !! (host, n) = Some st1).
Proof.
  intros H0 H1. induction targets as [|p rest IH]; intros L results HL.
  - cbn. split; [done|]. split; [done|].
    intros (p & Hp & _). by apply elem_of_nil in Hp.
  - cbn [Tracker.forward_loop].
    destruct (Tracker.excluded ex (target_id p)) eqn:Hex.
    + destruct (IH L results HL) as (HI & HD & HT).
      split; [done|]. split; [done|].
      intros (p' & [->|Hp']%elem_of_cons & Hex' & Hat); [congruence|].
      apply HT. eauto.
    + pose proof (attempt_lookup clock L p b host n) as Hstep.
      destruct (Tracker.attempt py_int listeners (deliver clock) L p b)
        as [L1 r]. cbn [fst] in Hstep.
      assert (L1 !! (host, n) = Some st0 ∨ L1 !! (host, n) = Some st1) as HL1.
      { destruct Hstep as [[_ ->]|[_ ->]]; [|done].
        destruct HL as [->| ->]; cbn; rewrite ?H0, ?H1; by right. }
      destruct (IH L1 (results ++ [Tracker.result_entry exn_str (target_id p) r])
                  HL1) as (HI & HD & HT).
      split; [done|]. split.
      * intros HLd. apply HD.
        destruct Hstep as [[_ ->]|[_ ->]]; [|done].
        rewrite HLd. cbn. by rewrite H1.
      * intros (p' & [->|Hp']%elem_of_cons & Hex' & Hat).
        -- apply HD. destruct Hstep as [[_ ->]|[Hno _]]; [|done].
           destruct HL as [->| ->]; cbn; by rewrite ?H0, ?H1.
        -- apply HT. eauto.
Qed.

Lemma first_bytes_fits n s :
  (N.of_nat (String.length s) <= n)%N → Relay.first_bytes n s = s.
Proof.
  unfold Relay.first_bytes. intros H.
  assert (String.length s ≤ N.to_nat n)%nat as Hle by lia.
  clear H. revert Hle. generalize (N.to_nat n) as m.
  induction s as [|c s IH]; intros [|m] Hle; simpl in *; try done; try lia.
  f_equal. apply IH. lia.
Qed.

(** A request that arrives whole is handled as the POST it is. *)
Lemma accepted_arrives host t b st :
  arrives host b → accepted host t b st = received t b st.
Proof.
  intros [Hfits Hread]. unfold Relay.accepted.
  by rewrite first_bytes_fits, Hread.
Qed.

(** What acceptance of a fresh body does to a peer, and what a second
    delivery of the same body at the same time does. *)
Lemma received_fresh t b d st :
  parse b = JObj d →
  ¬ PeerAgent.younger st (key_of d) t →
  received t b st
  = PeerAgent.Peer
      (PeerAgent.messages st ++ [JObj (dict_set d "ts" (JFloat t))])
      (PeerAgent.prune t (<[key_of d := t]> (PeerAgent._recent_keys st))).
Proof.
  intros Hp Hfresh. unfold Relay.received.
  rewrite PeerAgentSpec.handle_delivery.
  rewrite (PeerAgentSpec.receive_fresh _ _ _ t b d); [done | done |].
  apply not_true_iff_false. intros Hdup. apply Hfresh.
  apply PeerAgentSpec.is_duplicate_true in Hdup as (l & Hl & _ & Hage).
  by exists l.
Qed.

Lemma received_again t b d st :
  parse b = JObj d → ¬ (t == 0)%Q →
  ¬ PeerAgent.younger st (key_of d) t →
  received t b (received t b st) = received t b st.
Proof.
  intros Hp Ht Hfresh. rewrite (received_fresh t b d st) by done.
  unfold Relay.received at 1. rewrite PeerAgentSpec.handle_delivery.
  rewrite (PeerAgentSpec.receive_duplicate _ _ _ t b d); [done | done |].
  cbn [PeerAgent._recent_keys]. rewrite PeerAgentSpec.prune_keeps_fresh.
  apply PeerAgentSpec.is_duplicate_true. exists t.
  split; [done|]. split; [done|]. lra.
Qed.


(** A second body with the key of the first, delivered less than 2
    seconds after the first was accepted, changes nothing. *)
Lemma received_repeat t t2 b b2 d d2 st :
  parse b = JObj d → parse b2 = JObj d2 → key_of d2 = key_of d →
  ¬ (t == 0)%Q → (t2 - t < 2)%Q →
  ¬ PeerAgent.younger st (key_of d) t →
  received t2 b2 (received t b st) = received t b st.
Proof.
  intros Hp Hp2 Hkey Ht Hage Hfresh. rewrite (received_fresh t b d st) by done.
  unfold Relay.received at 1. rewrite PeerAgentSpec.handle_delivery.
  rewrite (PeerAgentSpec.receive_duplicate _ _ _ t2 b2 d2); [done | done |].
  cbn [PeerAgent._recent_keys]. rewrite Hkey, PeerAgentSpec.prune_keeps_fresh.
  apply PeerAgentSpec.is_duplicate_true. by exists t.
Qed.

(** The listeners after a well-formed broadcast has been handled. *)
Lemma broadcast_world clock L now q content f c msg st :
  Tracker.well_formed_broadcast json_loads content f c msg →
  ∃ pid,
    Tracker._peer_id py_str (JObj f) = inr pid
    ∧ (tracker_handle clock L now
         (Tracker.broadcast_request q content) st).1
      = if String.eqb c "private" then (L, st)
        else
          let members := Tracker.members_of st c ∪ {[pid]} in
          ((Tracker._forward_to_peers json_dumps py_str py_int exn_str
              listeners (deliver clock) L
              (Tracker.member_records (Tracker.PEERS st) members)
              (JObj [("from", JObj f); ("message", msg); ("ts", JFloat now)])
              (Some pid)).1,
           Tracker.Tracker (Tracker.PEERS st)
             (<[Tracker.HStr c :=
                  Tracker.Channel members
                    (Tracker.log_of st c
                     ++ [JObj [("from", JObj f); ("message", msg);
                               ("ts", JFloat now)]])]>
                (Tracker.CHANNELS st))).
Proof.
  intros Hwf.
  destruct (TrackerSpec.broadcast_peer_wf json_loads json_dumps py_str py_int
              exn_str listeners (deliver clock) L now content f c msg st Hwf)
    as (pid & Hpid & Hb).
  exists pid. split; [done|]. unfold Tracker.broadcast_request.
  rewrite TrackerSpec.handle_broadcast_peer, Hb. cbv zeta.
  by destruct (String.eqb c "private").
Qed.


End Relayed.

End RelaySpec.

(** ** The sample application's /send-peer *)

Module BackendSpec.
Import Json Exn JsonFacts Backend.
Local Open Scope list_scope.

Section SendPeer.

Variable json_loads : string → option json.
Variable json_dumps : json → string.
Variable py_str : json → string.
Variable py_int : json → option Z.
Variable exn_str : pyexn → string.

Section AnyNetwork.

Variable World : Type.
Variable exchange : World → json → Z → string → World * delivery.

Local Abbreviation send_peer :=
  (send_peer json_loads json_dumps py_int exn_str World exchange).

Lemma send_peer_object w body d :
  json_loads (if String.eqb body "" then "{}" else body) = Some (JObj d) →
  send_peer w body
  = match port_of py_int (JObj d) with
    | inl e => (w, inl e)
    | inr port =>
        let ip := dict_get d "ip" JNull in
        let message := dict_get d "message" JNull in
        if negb (truthy ip) || (port =? 0)
           || match message with JNull => true | _ => false end
        then (w, inr missing_fields)
        else
          let x := exchange w ip port (json_dumps (webapp_payload message)) in
          (x.1, inr (answer exn_str x.2))
    end.
Proof.
  intros H. unfold Backend.send_peer. rewrite H.
  cbn [get mbind result_bind mret result_ret].
  destruct (port_of py_int (JObj d)) as [e|port];
    cbn [mbind result_bind mret result_ret]; [done|].
  destruct (_ || _); [done|]. cbv zeta.
  by destruct (exchange _ _ _ _) as [w' []].
Qed.

(** X18. [send_peer] contacts the peer only when the body is an object
    with a true [ip], a port that [int] turns into a nonzero number and a
    message that is not null, and then exactly once, with the payload
    [{'from': 'webapp', 'message': message}]; a failure of that exchange
    is returned as [{"error": ...}], never raised. An unparsable body is
    answered invalid json. When an exception does leave the handler (a
    body that is not an object, a port [int] rejects) nothing was sent. *)
Theorem send_peer_contains_failures w body :
  let out := send_peer w body in
  let parsed := json_loads (if String.eqb body "" then "{}" else body) in
  (∀ e, out.2 = inl e → out.1 = w)
  ∧ (parsed = None → out = (w, inr (JObj [("error", JStr "invalid json")])))
  ∧ (∀ d port,
       parsed = Some (JObj d) → port_of py_int (JObj d) = inr port →
       let ip := dict_get d "ip" JNull in
       let message := dict_get d "message" JNull in
       (truthy ip = false ∨ port = 0 ∨ message = JNull →
        out = (w, inr (JObj [("error", JStr "missing fields")])))
       ∧ (truthy ip = true → port ≠ 0 → message ≠ JNull →
          let x := exchange w ip port (json_dumps (webapp_payload message)) in
          out = (x.1, inr (answer exn_str x.2)))).
Proof.
  intros out parsed. subst out parsed. split; [|split].
  - intros e. unfold Backend.send_peer.
    destruct (json_loads _) as [payload|]; [|done].
    destruct (get payload "ip") as [e0|ip]; [done|]. cbn.
    destruct (port_of py_int payload) as [e0|port]; [done|]. cbn.
    destruct (get payload "message") as [e0|message]; [done|]. cbn.
    destruct (_ || _); [done|].
    by destruct (exchange _ _ _ _) as [w' []].
  - intros H. unfold Backend.send_peer. by rewrite H.
  - intros d port H Hport. rewrite (send_peer_object w body d H), Hport.
    cbv zeta. split.
    + intros [Hip|[->|Hm]].
      * by rewrite Hip.
      * by rewrite orb_true_r.
      * rewrite Hm. by rewrite orb_true_r.
    + intros Hip Hp%Z.eqb_neq Hm. rewrite Hip, Hp.
      by destruct (dict_get d "message" JNull).
Qed.

End AnyNetwork.

(** *** Into the inbox of a listening peer *)

Variable py_decode : string → string.
Variable py_split : string → list string.
Variable py_strip : string → string.

Local Abbreviation listeners := (gmap (string * Z) PeerAgent.peer).
Local Abbreviation deliver clock :=
  (Relay.deliver json_loads py_str py_int clock py_decode py_split py_strip).
Local Abbreviation accepted :=
  (Relay.accepted json_loads py_str py_int py_decode py_split py_strip).
Local Abbreviation arrives :=
  (Relay.arrives py_str py_decode py_split py_strip).
Local Abbreviation received := (Relay.received json_loads py_str py_int).
Local Abbreviation key_of := (PeerAgent.dedupe_key py_str py_int).
Local Abbreviation parse := (PeerAgent.parse_payload json_loads).
Local Abbreviation send_to_listener clock :=
  (send_peer json_loads json_dumps py_int exn_str listeners (deliver clock)).

(** X19. A message posted through /send-peer to a listening peer that
    holds no recent entry for it, in a request that fits in the 8192
    bytes the peer reads and is read as the POST it is, is queued in that
    peer's inbox, stamped with the receipt time, and the application
    answers ok. Posted again less than 2 seconds later, the application
    answers ok again although the peer has ignored the repetition: its
    state is that after the first message. *)
Theorem webapp_message_is_queued clock clock' L body d host port n message stB :
  json_loads (if String.eqb body "" then "{}" else body) = Some (JObj d) →
  dict_find d "ip" = Some (JStr host) → host ≠ "" →
  dict_find d "port" = Some port → truthy port = true →
  py_int port = Some n → n ≠ 0 →
  dict_find d "message" = Some message → message ≠ JNull →
  L !! (host, n) = Some stB →
  let payload := [("from", JStr "webapp"); ("message", message)] in
  let t := clock host n in
  let t' := clock' host n in
  arrives host (json_dumps (JObj payload)) →
  parse (json_dumps (JObj payload)) = JObj payload →
  ¬ PeerAgent.younger stB (key_of payload) t →
  ¬ (t == 0)%Q → (t' - t < 2)%Q →
  let stB' := PeerAgent.Peer
                (PeerAgent.messages stB
                 ++ [JObj [("from", JStr "webapp"); ("message", message);
                           ("ts", JFloat t)]])
                (PeerAgent.prune t
                   (<[key_of payload := t]> (PeerAgent._recent_keys stB))) in
  send_to_listener clock L body = (<[(host, n) := stB']> L, inr sent_ok)
  ∧ send_to_listener clock' (<[(host, n) := stB']> L) body
    = (<[(host, n) := stB']> L, inr sent_ok).
Proof.
  intros H Hip Hhost%String.eqb_neq Hport Htruthy Hn Hn0%Z.eqb_neq Hm Hmsg HL
    payload t t' Harrives Hparse Hfresh Ht Ht' stB'.
  change (webapp_payload message) with (JObj payload) in *.
  assert (port_of py_int (JObj d) = inr n) as Hp.
  { unfold port_of. cbn. unfold dict_get. rewrite Hport. cbn.
    by rewrite Htruthy, Hn. }
  assert (accepted host t (json_dumps (JObj payload)) stB = stB') as Hrec.
  { rewrite (RelaySpec.accepted_arrives _ _ _ _ _ _ _ _ _ _ Harrives).
    by rewrite (RelaySpec.received_fresh _ _ _ t _ payload stB Hparse Hfresh). }
  assert (accepted host t' (json_dumps (JObj payload)) stB' = stB') as Hrec'.
  { rewrite (RelaySpec.accepted_arrives _ _ _ _ _ _ _ _ _ _ Harrives).
    unfold Relay.received. rewrite PeerAgentSpec.handle_delivery.
    rewrite (PeerAgentSpec.receive_duplicate _ _ _ t' _ payload); [done|done|].
    subst stB'. cbn [PeerAgent._recent_keys].
    rewrite PeerAgentSpec.prune_keeps_fresh.
    apply PeerAgentSpec.is_duplicate_true. by exists t. }
  assert (negb (truthy (dict_get d "ip" JNull)) || (n =? 0)
          || match dict_get d "message" JNull with
             | JNull => true | _ => false end = false) as Hvalid.
  { unfold dict_get. rewrite Hip, Hm. cbn. rewrite Hhost, Hn0.
    by destruct message. }
  split.
  - rewrite (send_peer_object _ _ _ body d H), Hp. cbv zeta.
    rewrite Hvalid. unfold dict_get. rewrite Hip, Hm. cbn [default from_option id].
    change (webapp_payload message) with (JObj payload).
    rewrite (RelaySpec.deliver_here _ _ _ _ _ _ _ _ _ _ _ stB HL).
    cbn [fst snd answer]. fold t. by rewrite Hrec.
  - rewrite (send_peer_object _ _ _ body d H), Hp. cbv zeta.
    rewrite Hvalid. unfold dict_get. rewrite Hip, Hm. cbn [default from_option id].
    change (webapp_payload message) with (JObj payload).
    rewrite (RelaySpec.deliver_here _ _ _ _ _ _ _ _ _ _ _ stB'
               (lookup_insert_eq _ _ _)).
    cbn [fst snd answer]. fold t'. rewrite Hrec'.
    by rewrite insert_insert_eq.
Qed.

End SendPeer.

End BackendSpec.

(** ** Reading a request, and the chat prompt *)

Module FramingSpec.
Import Framing.

Lemma append_nil_r (a : string) : (a +:+ "")%string = a.
Proof.
  induction a as [|x a IH]; [done|].
  change (String x (a +:+ "") = String x a)%string. by f_equal.
Qed.

Lemma chunks_append_assoc (a b c : string) :
  ((a +:+ b) +:+ c)%string = (a +:+ (b +:+ c))%string.
Proof.
  induction a as [|x a IH]; [done|].
  change (String x ((a +:+ b) +:+ c) = String x (a +:+ b +:+ c))%string.
  by f_equal.
Qed.

Lemma full_chunk_continues raw c rest :
  (8192 <= N.of_nat (String.length c))%N →
  read_request raw (Chunk c :: rest) = read_request (raw +:+ c)%string rest.
Proof.
  intros Hlen. cbn [read_request]. destruct c as [|x c]; [done|].
  cbn [String.eqb]. cbv zeta.
  by rewrite (proj2 (N.ltb_ge _ _) Hlen).
Qed.

Lemma read_full_chunks raw full rest :
  Forall (λ c, (8192 <= N.of_nat (String.length c))%N) full →
  read_request raw ((Chunk <$> full) ++ rest)
  = read_request (raw +:+ stream full)%string rest.
Proof.
  intros Hfull. revert raw. induction Hfull as [|c full Hc _ IH]; intros raw.
  - cbn. by rewrite append_nil_r.
  - cbn [fmap list_fmap app stream]. rewrite full_chunk_continues by done.
    fold (@fmap list _). rewrite IH. by rewrite chunks_append_assoc.
Qed.

(** X20. The receive loop of the tracker keeps reading while the chunks
    are full (8192 bytes) and stops at the first chunk that is shorter, at
    the end of the stream, or at the timeout, whichever comes first. What
    it returns is what arrived up to there: bytes that come after a short
    chunk (a body sent in a segment of its own, say) are never read. *)
Theorem read_stops_at_short_chunk raw full c rest :
  Forall (λ c, (8192 <= N.of_nat (String.length c))%N) full →
  (N.of_nat (String.length c) < 8192)%N →
  read_request raw ((Chunk <$> full) ++ Chunk c :: rest)
  = (raw +:+ stream full +:+ c)%string
  ∧ read_request raw ((Chunk <$> full) ++ TimedOut :: rest)
    = (raw +:+ stream full)%string
  ∧ read_request raw (Chunk <$> full) = (raw +:+ stream full)%string.
Proof.
  intros Hfull Hshort. split; [|split].
  - rewrite read_full_chunks by done. cbn [read_request].
    destruct (String.eqb c "") eqn:Hc.
    + apply String.eqb_eq in Hc as ->.
      by rewrite <- chunks_append_assoc, append_nil_r.
    + cbv zeta. rewrite (proj2 (N.ltb_lt _ _) Hshort).
      by rewrite chunks_append_assoc.
  - by rewrite read_full_chunks.
  - rewrite <- (app_nil_r (Chunk <$> full)). by rewrite read_full_chunks.
Qed.

End FramingSpec.

Module PromptSpec.
Import Prompt.
Local Open Scope list_scope.

Section Loop.

Variable strip : string → string.

Local Abbreviation broadcasts := (broadcasts strip).

Lemma broadcasts_plain c lines :
  Forall (λ m, is_command m = false) lines →
  broadcasts (Some c) lines = (λ m, (m, c)) <$> filter (λ m, m ≠ "") lines.
Proof.
  induction 1 as [|m lines Hm _ IH]; [done|].
  cbn [Prompt.broadcasts]. destruct m as [|x m].
  - rewrite filter_cons_False by (by intros ?). by cbn [turn].
  - cbn in Hm. cbn [turn]. rewrite Hm.
    rewrite filter_cons_True by done. by rewrite fmap_cons, IH.
Qed.

Lemma broadcasts_silent lines :
  Forall (λ m, is_command m = false) lines → broadcasts None lines = [].
Proof.
  induction 1 as [|m lines Hm _ IH]; [done|].
  cbn [Prompt.broadcasts]. destruct m as [|x m]; [done|].
  cbn in Hm. cbn [turn]. by rewrite Hm.
Qed.

Lemma broadcasts_command ch pre x rest :
  broadcasts ch (pre ++ String "#" x :: rest)
  = broadcasts ch pre ++ broadcasts (Some (strip x)) rest.
Proof.
  revert ch. induction pre as [|m pre IH]; intros ch.
  - done.
  - cbn [app Prompt.broadcasts].
    destruct (turn strip ch m) as [ch' [b|]]; cbn; by rewrite IH.
Qed.


End Loop.

End PromptSpec.

(** ** The properties at work on the sample instance *)

Module Examples.
Import Json Exn JsonFacts FanoutSpec TrackerSpec.
Local Open Scope list_scope.
Local Open Scope Q_scope.

Section PeerExamples.
Import PeerAgent PeerAgentSpec.

Lemma empty_peer_clock : clock_started Sample.empty_peer.
Proof. intros k t H. cbn in H. by rewrite lookup_empty in H. Qed.

Lemma empty_peer_fresh key now : ¬ younger Sample.empty_peer key now.
Proof. intros (l & H & _). cbn in H. by rewrite lookup_empty in H. Qed.

Lemma receive_dedupe_witness :
  parse_payload Sample.loads Sample.hi
  = JObj (Sample.record_of (Sample.chat Sample.alice "team" "hi"))
  ∧ clock_started Sample.empty_peer
  ∧ (Sample.peer_serve
       [(1, delivery_of Sample.hi); (2, delivery_of Sample.hi);
        (3, delivery_of Sample.hi)] Sample.empty_peer).2
    = [ok_response; duplicate_ignored; ok_response].
Proof.
  assert (parse_payload Sample.loads Sample.hi
          = JObj (Sample.record_of (Sample.chat Sample.alice "team" "hi")))
    as Hp by (vm_compute; reflexivity).
  split; [exact Hp|]. split; [exact empty_peer_clock|].
  destruct (receive_dedupe Sample.loads Sample.str Sample.int 1 Sample.hi _
              Sample.empty_peer Hp empty_peer_clock) as (_ & _ & Hrun).
  apply Hrun.
  - apply empty_peer_fresh.
  - intros H. vm_compute in H. discriminate.
  - vm_compute. reflexivity.
  - vm_compute. intros H. discriminate.
Defined.

(** C1. The handler at a body that is a JSON array: nothing in the
    cache is younger than 2 seconds and the answer is ok, and yet no
    message is appended to the inbox and no key is recorded
    ([obj['ts'] = now_ts] raises on a list, and the handler answers ok
    all the same). *)
Lemma receive_array_not_enqueued :
  let content := Sample.dumps (JArr []) in
  let out := Sample.peer_step 1 (delivery_of content) Sample.empty_peer in
  Sample.loads content = Some (JArr [])
  ∧ (∀ key, ¬ younger Sample.empty_peer key 1)
  ∧ out.2 = ok_response
  ∧ _recent_keys out.1 = ∅
  ∧ ¬ (∃ m, messages out.1 = messages Sample.empty_peer ++ [m]).
Proof.
  cbv zeta. split; [by vm_compute|]. split; [intros; apply empty_peer_fresh|].
  split; [by vm_compute|]. split; [by vm_compute|].
  intros [m Hm]. vm_compute in Hm. discriminate.
Qed.

Lemma duplicate_is_noop_witness :
  let accepted := Sample.peer_step 1 (delivery_of Sample.hi) Sample.empty_peer in
  let run := Sample.peer_serve
               [(3 # 2, delivery_of Sample.hi); (5 # 2, delivery_of Sample.hi)]
               accepted.1 in
  accepted.2 = ok_response
  ∧ Forall (λ t', t' - 1 < 2) [3 # 2; 5 # 2]
  ∧ (Sample.peer_step (5 # 2) (delivery_of Sample.hi) accepted.1).1 = accepted.1
  ∧ run = (accepted.1, [duplicate_ignored; duplicate_ignored])
  ∧ (Sample.peer_step 3 (delivery_of Sample.hi) run.1).2 = ok_response.
Proof.
  cbv zeta.
  assert ((Sample.peer_step 1 (delivery_of Sample.hi) Sample.empty_peer).2
          = ok_response) as Hok by (vm_compute; reflexivity).
  assert (Forall (λ t', t' - 1 < 2) [3 # 2; 5 # 2]) as Hts
    by (repeat constructor).
  destruct (duplicate_is_noop Sample.loads Sample.str Sample.int)
    as [Hnoop Hstream].
  destruct (Hstream Sample.hi
              (Sample.record_of (Sample.chat Sample.alice "team" "hi"))
              Sample.empty_peer 1 [3 # 2; 5 # 2] 3)
    as (Hrun & _ & Hagain & _).
  - vm_compute. reflexivity.
  - intros H. vm_compute in H. discriminate.
  - exact Hok.
  - exact Hts.
  - vm_compute. intros H. discriminate.
  - split; [exact Hok|]. split; [exact Hts|]. split.
    + apply Hnoop. vm_compute. reflexivity.
    + split; [exact Hrun | exact Hagain].
Defined.

Lemma drain_inbox_witness :
  let st := (Sample.peer_step 1 (delivery_of Sample.hi) Sample.empty_peer).1 in
  let out := Sample.peer_step 2 poll st in
  is_poll poll = true
  ∧ length (messages st) = 1%nat
  ∧ out.2 = Response 200 (Some (JArr (messages st)))
  ∧ messages out.1 = []
  ∧ Sample.peer_step 3 poll out.1 = (out.1, Response 200 (Some (JArr []))).
Proof.
  cbv zeta.
  destruct (drain_inbox Sample.loads Sample.str Sample.int 2 poll
              (Sample.peer_step 1 (delivery_of Sample.hi) Sample.empty_peer).1
              eq_refl)
    as (Hout & Hempty & _ & Hagain & _).
  split; [reflexivity|]. split; [vm_compute; reflexivity|].
  split; [exact Hout|]. split; [exact Hempty | exact (Hagain 3)].
Defined.

End PeerExamples.

Section FanoutExamples.
Import Tracker.

Lemma trio_has_fields : Forall PeerAgent.has_fields Sample.trio.
Proof.
  repeat constructor; eexists _, _, _; repeat split; reflexivity.
Qed.

Lemma trio_printable :
  Forall (PeerAgent.printable Sample.print_line) Sample.trio.
Proof.
  repeat constructor; intros l name ip port Hn Hi Hp;
    vm_compute in Hn; injection Hn as <-;
    intros [->|[->|[[e ->]|[n ->]]]]; reflexivity.
Qed.

(** Three targets, the second of which refuses the connection: three
    exchanges are made, three entries come back, the second with
    [ok: False], and the third target was still contacted. The loop of
    [Peer.broadcast] makes the same three exchanges and prints three
    lines, the second saying refused. *)
Lemma fanout_isolates_failures_witness :
  Forall PeerAgent.has_fields Sample.trio
  ∧ Forall (PeerAgent.printable Sample.print_line) Sample.trio
  ∧ Sample.fan_out [] (Sample.record_of <$> Sample.trio) (JStr "hi") None
    = ([(JStr "10.0.0.1", 7000%Z); (JStr "10.0.0.2", 9%Z);
        (JStr "10.0.0.3", 7002%Z)],
       [JObj [("peer", JStr "10.0.0.1:7000"); ("ok", JBool true)];
        JObj [("peer", JStr "10.0.0.2:9"); ("ok", JBool false);
              ("error", JStr "Connection refused")];
        JObj [("peer", JStr "10.0.0.3:7002"); ("ok", JBool true)]])
  ∧ (∃ w' lines,
       PeerAgent.broadcast_loop Sample.int Sample.world Sample.exchange
         Sample.print_line [] [] Sample.trio "hi" = (w', lines, None)
       ∧ PeerAgent.sends Sample.int Sample.world Sample.exchange "hi"
           [] Sample.trio w' lines
       ∧ length lines = 3%nat).
Proof.
  destruct (fanout_isolates_failures Sample.dumps Sample.str Sample.int
              Sample.exn_str Sample.world Sample.exchange Sample.print_line)
    as (Hforward & _ & Hloop).
  split; [exact trio_has_fields|]. split; [exact trio_printable|]. split.
  - destruct (Hforward [] (Sample.record_of <$> Sample.trio) (JStr "hi") None)
      as (Hfan & _).
    unfold Sample.fan_out. rewrite Hfan. vm_compute. reflexivity.
  - destruct (Hloop [] [] Sample.trio "hi"%string trio_has_fields
                trio_printable)
      as (w' & lines & Hrun & Hsends & Hlines).
    exists w', lines. split; [exact Hrun|]. split; [exact Hsends|].
    rewrite <- (Forall2_length _ _ _ Hlines). reflexivity.
Defined.

(** A target that accepts the request and never answers: the wait for
    the reply times out, and the entry of that target says [ok: True] and
    carries no error. *)
Lemma reply_timeout_is_reported_ok :
  let fan := Tracker._forward_to_peers Sample.dumps Sample.str Sample.int
               Sample.exn_str Sample.world Sample.slow_exchange []
               [Sample.record_of Sample.dave] (JStr "hi") None in
  Sample.slow_exchange [] (JStr "10.0.0.6") 8 (Sample.dumps (JStr "hi"))
  = ([(JStr "10.0.0.6", 8%Z)], ReplyFailed SocketTimeout)
  ∧ fan = ([(JStr "10.0.0.6", 8%Z)],
           [JObj [("peer", JStr "10.0.0.6:8"); ("ok", JBool true)]])
  ∧ ¬ (∃ e, e ∈ fan.2
            ∧ entry_peer e = Some (JStr "10.0.0.6:8")
            ∧ match e with
              | JObj d => dict_find d "ok" = Some (JBool false)
              | _ => False
              end).
Proof.
  cbv zeta. split; [reflexivity|]. split; [vm_compute; reflexivity|].
  intros (e & He & _ & Hok). vm_compute in He.
  apply list_elem_of_singleton in He as ->. vm_compute in Hok. discriminate.
Qed.

(** A record without a name, as POST /submit-info accepts them, is not
    a peer record with its three fields: formatting the log line raises,
    and the targets after it are not contacted. *)
Example broadcast_loop_nameless_target :
  PeerAgent.broadcast_loop Sample.int Sample.world Sample.exchange
    Sample.print_line [] [] [Sample.nameless; Sample.carol] "hi"
  = ([(JStr "10.0.0.4", 7003%Z)], [], Some (KeyError "name")).
Proof. vm_compute. reflexivity. Qed.

End FanoutExamples.

Section TrackerExamples.
Import Tracker.

Lemma registration_is_upsert_witness :
  let first := Sample.tracker_step [] 1
                 (submit ∅ (Sample.dumps Sample.alice)) Sample.empty_tracker in
  let second := Sample.tracker_step first.1.1 2
                  (submit ∅ (Sample.dumps Sample.alice)) first.1.2 in
  loads Sample.loads (Sample.dumps Sample.alice) = Some Sample.alice
  ∧ _peer_id Sample.str Sample.alice = inr "10.0.0.1:7000"%string
  ∧ peers_wf Sample.str (PEERS Sample.empty_tracker)
  ∧ first.2 = ok_registration 1
  ∧ second.2 = ok_registration 1
  ∧ length (filter (λ r, has_id Sample.str "10.0.0.1:7000" r = true)
              (listing second.1.2)) = 1%nat.
Proof.
  cbv zeta.
  assert (loads Sample.loads (Sample.dumps Sample.alice) = Some Sample.alice)
    as Hl by (vm_compute; reflexivity).
  assert (_peer_id Sample.str Sample.alice = inr "10.0.0.1:7000"%string)
    as Hp by (vm_compute; reflexivity).
  destruct (registration_is_upsert Sample.loads Sample.dumps Sample.str
              Sample.int Sample.exn_str Sample.world Sample.exchange Sample.print
              [] 1 2 ∅ _ _ _ Sample.empty_tracker Hl Hp)
    as (H1 & H2 & _ & _ & _ & _ & Hcount).
  split; [exact Hl|]. split; [exact Hp|].
  split; [apply peers_wf_empty|].
  unfold Sample.tracker_step.
  split; [rewrite H1; vm_compute; reflexivity|].
  split; [rewrite H2; vm_compute; reflexivity|].
  apply Hcount, peers_wf_empty.
Defined.

(** Registering alone: the answer is ok and the peer is in no channel. *)
Lemma register_alone_joins_nothing :
  let out := Sample.tracker_step [] 1
               (submit ∅ (Sample.dumps Sample.alice)) Sample.empty_tracker in
  out.2 = ok_registration 1
  ∧ PEERS out.1.2 !! "10.0.0.1:7000"%string
    = Some (dict_set (Sample.record_of Sample.alice) "ts" (JFloat 1))
  ∧ CHANNELS out.1.2 = ∅
  ∧ ¬ ("10.0.0.1:7000"%string ∈ members_of out.1.2 "general").
Proof.
  cbv zeta. split; [by vm_compute|]. split; [by vm_compute|].
  assert (CHANNELS (Sample.tracker_step [] 1
                      (submit ∅ (Sample.dumps Sample.alice))
                      Sample.empty_tracker).1.2 = ∅) as HC by by vm_compute.
  split; [exact HC|]. unfold members_of. rewrite HC, lookup_empty.
  set_solver.
Qed.

Lemma register_does_not_join_witness :
  let join := Sample.join "general" Sample.alice in
  let out := Sample.tracker_serve []
               (zip [1; 2] (PeerAgent.register_to_tracker Sample.dumps
                              "10.0.0.1" 7000 "alice"))
               Sample.empty_tracker in
  loads Sample.loads (Sample.dumps Sample.alice) = Some Sample.alice
  ∧ loads Sample.loads (Sample.dumps join) = Some join
  ∧ CHANNELS (Sample.tracker_step [] 1
                (submit ∅ (Sample.dumps Sample.alice))
                Sample.empty_tracker).1.2 = ∅
  ∧ "10.0.0.1:7000"%string ∈ members_of out.1.2 "general".
Proof.
  cbv zeta.
  destruct (register_does_not_join Sample.loads Sample.dumps Sample.str
              Sample.int Sample.exn_str Sample.world Sample.exchange Sample.print)
    as [Hframe Hjoin].
  assert (loads Sample.loads (Sample.dumps Sample.alice) = Some Sample.alice)
    as Hl by (vm_compute; reflexivity).
  assert (loads Sample.loads (Sample.dumps (Sample.join "general" Sample.alice))
          = Some (Sample.join "general" Sample.alice))
    as Hj by (vm_compute; reflexivity).
  split; [exact Hl|]. split; [exact Hj|]. split.
  - apply (Hframe [] 1 ∅ (Sample.dumps Sample.alice) Sample.empty_tracker).
  - apply (Hjoin [] 1 2 "10.0.0.1"%string 7000%Z "alice"%string
             Sample.empty_tracker Hl Hj).
Defined.

(** A registration without a name is accepted, and one without a port is
    answered with status 500: neither is refused as a client error. *)
Lemma nameless_registration_accepted :
  let out := Sample.tracker_step [] 1
               (submit ∅ (Sample.dumps Sample.nameless)) Sample.empty_tracker in
  let out' := Sample.tracker_step [] 1
                (submit ∅ (Sample.dumps Sample.portless)) Sample.empty_tracker in
  loads Sample.loads (Sample.dumps Sample.nameless) = Some Sample.nameless
  ∧ subscript Sample.nameless "name" = inl (KeyError "name")
  ∧ out.2 = ok_registration 1
  ∧ ¬ ((400 <= code out.2 < 500)%Z ∧ PEERS out.1.2 = PEERS Sample.empty_tracker)
  ∧ subscript Sample.portless "port" = inl (KeyError "port")
  ∧ code out'.2 = 500%Z.
Proof.
  cbv zeta. split; [by vm_compute|]. split; [by vm_compute|].
  split; [by vm_compute|]. split; [|split; by vm_compute].
  intros [[H _] _]. vm_compute in H. by apply H.
Qed.

Lemma malformed_registration_witness :
  let bad := "{ip: 10.0.0.1"%string in
  let out := Sample.tracker_step [] 1 (submit ∅ bad) Sample.empty_tracker in
  let out' := Sample.tracker_step [] 1
                (submit ∅ (Sample.dumps Sample.portless)) Sample.empty_tracker in
  loads Sample.loads bad = None
  ∧ loads Sample.loads (Sample.dumps Sample.portless) = Some Sample.portless
  ∧ dict_find (Sample.record_of Sample.portless) "port" = None
  ∧ code out.2 = 400%Z ∧ out.1.2 = Sample.empty_tracker
  ∧ (∃ e, out' = ([], Sample.empty_tracker,
                  Response 500 (JObj [("error", JStr (Sample.exn_str e))]))).
Proof.
  cbv zeta.
  assert (loads Sample.loads "{ip: 10.0.0.1" = None)
    as Hbad by (vm_compute; reflexivity).
  assert (loads Sample.loads (Sample.dumps Sample.portless)
          = Some Sample.portless) as Hl by (vm_compute; reflexivity).
  split; [exact Hbad|]. split; [exact Hl|]. split; [reflexivity|].
  destruct (malformed_registration Sample.loads Sample.dumps Sample.str
              Sample.int Sample.exn_str Sample.world Sample.exchange Sample.print
              [] 1 ∅ "{ip: 10.0.0.1"%string Sample.empty_tracker)
    as (H400 & _).
  destruct (malformed_registration Sample.loads Sample.dumps Sample.str
              Sample.int Sample.exn_str Sample.world Sample.exchange Sample.print
              [] 1 ∅ (Sample.dumps Sample.portless) Sample.empty_tracker)
    as (_ & H500 & _).
  unfold Sample.tracker_step.
  rewrite (H400 Hbad). split; [reflexivity|]. split; [reflexivity|].
  apply (H500 Sample.portless Hl). right.
  exists (Sample.record_of Sample.portless). split; [reflexivity|].
  right. reflexivity.
Defined.

Lemma list_absent_channel_witness :
  Sample.nowhere !! "channel"%string = Some ["nowhere"%string]
  ∧ CHANNELS Sample.team_tracker !! HStr "nowhere" = None
  ∧ Sample.tracker_step [] 7 (Request "GET" "/get-list" Sample.nowhere "")
      Sample.team_tracker
    = ([], Sample.team_tracker,
       Response 200 (JObj [("channel", JStr "nowhere"); ("peers", JArr []);
                           ("messages", JArr [])])).
Proof.
  assert (Sample.nowhere !! "channel"%string = Some ["nowhere"%string])
    as Hq by (vm_compute; reflexivity).
  assert (CHANNELS Sample.team_tracker !! HStr "nowhere" = None)
    as Hc by (vm_compute; reflexivity).
  split; [exact Hq|]. split; [exact Hc|].
  apply (list_absent_channel Sample.loads Sample.dumps Sample.str Sample.int
           Sample.exn_str Sample.world Sample.exchange Sample.print
           [] 7 Sample.nowhere "nowhere"%string [] ""%string
           Sample.team_tracker Hq); [discriminate | exact Hc].
Defined.

Lemma psst_well_formed :
  well_formed_broadcast Sample.loads Sample.psst
    (Sample.record_of Sample.alice) "private" (JStr "psst").
Proof.
  exists (Sample.record_of (Sample.chat Sample.alice "private" "psst")).
  split; [by vm_compute|]. split; [reflexivity|].
  split; [by eexists|]. split; [by eexists|].
  split; [reflexivity|]. split; [discriminate|].
  split; [reflexivity | discriminate].
Qed.

Lemma hi_well_formed :
  well_formed_broadcast Sample.loads Sample.hi
    (Sample.record_of Sample.alice) "team" (JStr "hi").
Proof.
  exists (Sample.record_of (Sample.chat Sample.alice "team" "hi")).
  split; [by vm_compute|]. split; [reflexivity|].
  split; [by eexists|]. split; [by eexists|].
  split; [reflexivity|]. split; [discriminate|].
  split; [reflexivity | discriminate].
Qed.

Lemma private_broadcast_is_isolated_witness :
  well_formed_broadcast Sample.loads Sample.psst
    (Sample.record_of Sample.alice) "private" (JStr "psst")
  ∧ Sample.tracker_step [] 7 (Request "POST" "/broadcast-peer" ∅ Sample.psst)
      Sample.team_tracker
    = ([], Sample.team_tracker,
       Response 200 (JObj [("status", JStr "ok"); ("peers", JArr []);
                           ("forwarded", JArr [])])).
Proof.
  split; [exact psst_well_formed|].
  apply (private_broadcast_is_isolated Sample.loads Sample.dumps Sample.str
           Sample.int Sample.exn_str Sample.world Sample.exchange Sample.print
           [] 7 ∅ Sample.psst _ _ Sample.team_tracker psst_well_formed).
Defined.

(** Alice broadcasts to the three members of team, Bob being
    unreachable: the entry is logged, the snapshot has the three records,
    and two deliveries are attempted, of which one fails. *)
Lemma broadcast_persists_and_fans_out_witness :
  let out := Sample.tracker_step [] 7
               (Request "POST" "/broadcast-peer" ∅ Sample.hi)
               Sample.team_tracker in
  let entry := JObj [("from", Sample.alice); ("message", JStr "hi");
                     ("ts", JFloat 7)] in
  well_formed_broadcast Sample.loads Sample.hi
    (Sample.record_of Sample.alice) "team" (JStr "hi")
  ∧ log_of out.1.2 "team" = log_of Sample.team_tracker "team" ++ [entry]
  ∧ PEERS out.1.2 = PEERS Sample.team_tracker
  ∧ out.1.1 = [(JStr "10.0.0.3", 7002%Z); (JStr "10.0.0.2", 9%Z)]
  ∧ dict_find (Sample.record_of (body out.2)) "forwarded"
    = Some (JArr [JObj [("peer", JStr "10.0.0.3:7002"); ("ok", JBool true)];
                  JObj [("peer", JStr "10.0.0.2:9"); ("ok", JBool false);
                        ("error", JStr "Connection refused")]]).
Proof.
  cbv zeta. split; [exact hi_well_formed|].
  destruct (broadcast_persists_and_fans_out Sample.loads Sample.dumps
              Sample.str Sample.int Sample.exn_str Sample.world
              Sample.exchange Sample.print [] 7 ∅ Sample.hi _ "team"%string _
              Sample.team_tracker hi_well_formed)
    as (pid & Hpid & Hout & Hlog & _ & _ & Hpeers & _); [discriminate|].
  split; [exact Hlog|]. split; [exact Hpeers|].
  split; vm_compute; reflexivity.
Defined.

End TrackerExamples.

Section MoreTrackerExamples.
Import Tracker.

Lemma connect_finds_registered_witness :
  let reg := Sample.relay_step Sample.listening 1
               (submit ∅ (Sample.dumps Sample.alice)) Sample.empty_tracker in
  loads Sample.relay_loads (Sample.dumps Sample.alice) = Some Sample.alice
  ∧ loads Sample.relay_loads (Sample.dumps (Sample.ask Sample.alice))
    = Some (Sample.ask Sample.alice)
  ∧ _peer_id Sample.str Sample.alice = inr "10.0.0.1:7000"%string
  ∧ Sample.relay_step reg.1.1 2
      (connect_request ∅ (Sample.dumps (Sample.ask Sample.alice))) reg.1.2
    = (Sample.listening, reg.1.2,
       Response 200
         (JObj [("peer",
                 JObj (dict_set (Sample.record_of Sample.alice) "ts"
                         (JFloat 1)))]))
  ∧ Sample.relay_step Sample.listening 2
      (connect_request ∅ (Sample.dumps (Sample.ask Sample.alice)))
      Sample.empty_tracker
    = (Sample.listening, Sample.empty_tracker,
       Response 404 (JObj [("error", JStr "peer not found")])).
Proof.
  cbv zeta.
  assert (loads Sample.relay_loads (Sample.dumps Sample.alice)
          = Some Sample.alice) as Hl by (vm_compute; reflexivity).
  assert (loads Sample.relay_loads (Sample.dumps (Sample.ask Sample.alice))
          = Some (Sample.ask Sample.alice)) as Ha by (vm_compute; reflexivity).
  assert (_peer_id Sample.str Sample.alice = inr "10.0.0.1:7000"%string)
    as Hp by (vm_compute; reflexivity).
  split; [exact Hl|]. split; [exact Ha|]. split; [exact Hp|].
  destruct (connect_finds_registered Sample.relay_loads Sample.dumps
              Sample.str Sample.int Sample.exn_str _
              (Sample.deliver Sample.at_eight) Sample.print
              Sample.listening 1 2 ∅ ∅ (Sample.dumps Sample.alice)
              (Sample.record_of Sample.alice) "10.0.0.1:7000"%string
              (Sample.dumps (Sample.ask Sample.alice))
              [("to", Sample.alice)] Sample.alice Sample.empty_tracker
              Hl Hp Ha eq_refl Hp) as [Hfound Hmissing].
  split; [exact Hfound|]. apply Hmissing. reflexivity.
Defined.

(** A registration without port is answered 500 and a listing is a
    GET: both leave everything as it was. A join of a channel whose name
    cannot be printed is answered 500 as well, with the member added. *)
Lemma what_failures_leave_behind_witness :
  let bad := Sample.tracker_step [] 1
               (submit ∅ (Sample.dumps Sample.portless)) Sample.team_tracker in
  let read := Sample.tracker_step [] 1 (list_request ∅) Sample.team_tracker in
  let join := Sample.relay_step Sample.listening 1
                (join_request ∅ (Sample.dumps (Sample.join Sample.odd
                                                 Sample.alice)))
                Sample.team_tracker in
  code bad.2 = 500%Z ∧ bad.1 = ([], Sample.team_tracker)
  ∧ method (list_request ∅) ≠ "POST"%string
  ∧ read.1 = ([], Sample.team_tracker)
  ∧ code join.2 = 500%Z
  ∧ join.1.1 = Sample.listening
  ∧ PEERS join.1.2 = PEERS Sample.team_tracker
  ∧ members_of join.1.2 Sample.odd = {[ "10.0.0.1:7000"%string ]}.
Proof.
  cbv zeta.
  assert (code (Sample.tracker_step [] 1
                  (submit ∅ (Sample.dumps Sample.portless))
                  Sample.team_tracker).2 = 500%Z) as H500
    by (vm_compute; reflexivity).
  assert (code (Sample.relay_step Sample.listening 1
                  (join_request ∅ (Sample.dumps (Sample.join Sample.odd
                                                   Sample.alice)))
                  Sample.team_tracker).2 = 500%Z) as Hjoin
    by (vm_compute; reflexivity).
  split; [exact H500|]. split.
  { apply (what_failures_leave_behind Sample.loads Sample.dumps
             Sample.str Sample.int Sample.exn_str Sample.world
             Sample.exchange Sample.print).
    right. unfold Sample.tracker_step in H500. rewrite H500.
    split; [discriminate|]. left. discriminate. }
  split; [discriminate|]. split.
  { apply (what_failures_leave_behind Sample.loads Sample.dumps
             Sample.str Sample.int Sample.exn_str Sample.world
             Sample.exchange Sample.print).
    left. discriminate. }
  split; [exact Hjoin|].
  destruct (what_failures_leave_behind Sample.relay_loads Sample.dumps
              Sample.str Sample.int Sample.exn_str _
              (Sample.deliver Sample.at_eight) Sample.print
              Sample.listening 1
              (join_request ∅ (Sample.dumps (Sample.join Sample.odd
                                               Sample.alice)))
              Sample.team_tracker) as (_ & Hleft).
  destruct Hleft as (Hw & HP & _).
  { unfold Sample.relay_step in Hjoin. rewrite Hjoin. discriminate. }
  split; [exact Hw|]. split; [exact HP|].
  vm_compute. reflexivity.
Defined.

Lemma nothing_is_ever_removed_witness :
  let later := (Sample.tracker_serve []
                  [(7, broadcast_request ∅ Sample.hi);
                   (8, submit ∅ (Sample.dumps Sample.nameless))]
                  Sample.team_tracker).1.2 in
  is_Some (CHANNELS Sample.team_tracker !! HStr "team")
  ∧ is_Some (CHANNELS later !! HStr "team")
  ∧ dom (PEERS Sample.team_tracker) ⊆ dom (PEERS later)
  ∧ members_of Sample.team_tracker "team" ⊆ members_of later "team".
Proof.
  cbv zeta.
  destruct (nothing_is_ever_removed Sample.loads Sample.dumps Sample.str
              Sample.int Sample.exn_str Sample.world Sample.exchange Sample.print []
              [(7, broadcast_request ∅ Sample.hi);
               (8, submit ∅ (Sample.dumps Sample.nameless))]
              Sample.team_tracker) as (Hdom & Hmem & _ & Hchan).
  assert (is_Some (CHANNELS Sample.team_tracker !! HStr "team")) as Hteam.
  { vm_compute. by eexists. }
  split; [exact Hteam|]. split; [exact (Hchan _ Hteam)|].
  split; [exact Hdom | exact (Hmem "team"%string)].
Defined.

Lemma broadcast_is_listed_witness :
  let q := {[ "channel"%string := ["team"%string] ]} in
  let out := Sample.tracker_step [] 7 (broadcast_request ∅ Sample.hi)
               Sample.team_tracker in
  well_formed_broadcast Sample.loads Sample.hi
    (Sample.record_of Sample.alice) "team" (JStr "hi")
  ∧ ∃ peers,
      Sample.tracker_step out.1.1 8 (list_request q) out.1.2
      = (out.1.1, out.1.2,
         Response 200
           (JObj [("channel", JStr "team"); ("peers", JArr peers);
                  ("messages",
                   JArr (log_of Sample.team_tracker "team"
                         ++ [JObj (Sample.relayed Sample.alice "hi" 7)]))])).
Proof.
  cbv zeta. split; [exact hi_well_formed|].
  destruct (broadcast_is_listed Sample.loads Sample.dumps Sample.str
              Sample.int Sample.exn_str Sample.world Sample.exchange Sample.print
              [] 7 8 ∅ {[ "channel"%string := ["team"%string] ]} []
              Sample.hi _ "team"%string _ Sample.team_tracker hi_well_formed)
    as (pid & _ & _ & Hlist); [discriminate | reflexivity |].
  eexists. exact Hlist.
Defined.


End MoreTrackerExamples.

Section MorePeerExamples.
Import PeerAgent PeerAgentSpec.

(** Alice's message is accepted at 1; a poll at 1.5 and another payload
    at 1.75 are served; the repetition at 2.5 is still ignored. *)
Lemma window_survives_traffic_witness :
  let d := Sample.record_of (Sample.chat Sample.alice "team" "hi") in
  let st := (Sample.peer_step 1 (delivery_of Sample.hi) Sample.empty_peer).1 in
  let reqs := [(3 # 2, poll); (7 # 4, delivery_of Sample.psst)] in
  let st' := (Sample.peer_serve reqs st).1 in
  parse_payload Sample.loads Sample.hi = JObj d
  ∧ _recent_keys st !! dedupe_key Sample.str Sample.int d = Some 1
  ∧ Forall (λ r, r.1 - 1 < 2) reqs
  ∧ Sample.peer_step (5 # 2) (delivery_of Sample.hi) st'
    = (st', duplicate_ignored).
Proof.
  cbv zeta.
  assert (parse_payload Sample.loads Sample.hi
          = JObj (Sample.record_of (Sample.chat Sample.alice "team" "hi")))
    as Hp by (vm_compute; reflexivity).
  assert (_recent_keys
            (Sample.peer_step 1 (delivery_of Sample.hi) Sample.empty_peer).1
          !! dedupe_key Sample.str Sample.int
               (Sample.record_of (Sample.chat Sample.alice "team" "hi"))
          = Some 1) as Hk by (vm_compute; reflexivity).
  assert (Forall (λ r : Q * request, r.1 - 1 < 2)
            [(3 # 2, poll); (7 # 4, delivery_of Sample.psst)]) as Hts
    by (repeat constructor).
  split; [exact Hp|]. split; [exact Hk|]. split; [exact Hts|].
  apply (window_survives_traffic Sample.loads Sample.str Sample.int
           Sample.hi _ _ 1 _ (5 # 2) Hp Hk).
  - intros H. vm_compute in H. discriminate.
  - exact Hts.
  - vm_compute. reflexivity.
Defined.

(** A cache of one key is left alone, however old the key; of a cache
    of 501 keys read at time 500, the key recorded at 500 stays and the
    key recorded at 3 goes. *)
Lemma prune_spec_witness :
  let rk := _recent_keys
              (Sample.peer_step 1 (delivery_of Sample.hi)
                 Sample.empty_peer).1 in
  (size rk ≤ 500)%nat ∧ prune 100 rk = rk
  ∧ (500 < size Sample.crowded)%nat
  ∧ prune 500 Sample.crowded !! "500"%string = Some 500
  ∧ prune 500 Sample.crowded !! "3"%string = None.
Proof.
  cbv zeta.
  assert (size (_recent_keys
                  (Sample.peer_step 1 (delivery_of Sample.hi)
                     Sample.empty_peer).1) ≤ 500)%nat as Hsize.
  { apply Nat.leb_le. vm_compute. reflexivity. }
  assert (500 < size Sample.crowded)%nat as Hcrowd.
  { apply Nat.ltb_lt. vm_compute. reflexivity. }
  split; [exact Hsize|].
  destruct (prune_spec 100
              (_recent_keys
                 (Sample.peer_step 1 (delivery_of Sample.hi)
                    Sample.empty_peer).1)) as (Hsmall & _).
  split; [exact (Hsmall Hsize)|]. split; [exact Hcrowd|].
  destruct (prune_spec 500 Sample.crowded) as (_ & Hlarge & _).
  split.
  - apply (Hlarge Hcrowd). split.
    + vm_compute. reflexivity.
    + vm_compute. discriminate.
  - destruct (prune 500 Sample.crowded !! "3"%string) as [t|] eqn:E;
      [|reflexivity].
    apply (Hlarge Hcrowd) in E as [E1 E2].
    vm_compute in E1. injection E1 as <-.
    vm_compute in E2. contradiction E2. reflexivity.
Defined.

Lemma inbox_is_stamped_witness :
  messages Sample.empty_peer = []
  ∧ Forall (queued_at [1; 2; 3])
      (messages
         (Sample.peer_serve
            [(1, delivery_of Sample.hi); (2, poll);
             (3, delivery_of Sample.psst)] Sample.empty_peer).1).
Proof.
  split; [reflexivity|].
  apply (inbox_is_stamped Sample.loads Sample.str Sample.int
           [(1, delivery_of Sample.hi); (2, poll);
            (3, delivery_of Sample.psst)] Sample.empty_peer).
  reflexivity.
Defined.

(** The payload the web backend sends has no channel. *)
Lemma missing_channel_is_general_witness :
  let d := Sample.record_of (Backend.webapp_payload (JStr "hello")) in
  truthy (dict_get d "channel" JNull) = false
  ∧ dedupe_key Sample.str Sample.int d
    = dedupe_key Sample.str Sample.int
        (dict_set d "channel" (JStr "general")).
Proof.
  cbv zeta. split; [reflexivity|].
  apply (missing_channel_is_general Sample.str Sample.int). reflexivity.
Defined.

Lemma separator_collision_witness :
  let d := Sample.record_of (Sample.chat Sample.alice "team" "hi") in
  (∀ x, Sample.str (JStr x) = x)
  ∧ dedupe_key Sample.str Sample.int (labelled d "ops|urgent" "now")
    = dedupe_key Sample.str Sample.int (labelled d "ops" "urgent|now").
Proof.
  cbv zeta. split; [reflexivity|].
  apply (separator_collision Sample.str Sample.int
           (Sample.record_of (Sample.chat Sample.alice "team" "hi"))
           "ops" "urgent" "now").
  - reflexivity.
  - discriminate.
  - discriminate.
Defined.

(** A body that is a JSON array is answered ok and dropped. *)
Lemma delivery_is_never_refused_witness :
  let content := Sample.dumps (JArr []) in
  (∀ d, parse_payload Sample.loads content ≠ JObj d)
  ∧ Sample.peer_step 1 (delivery_of content) Sample.empty_peer
    = (Sample.empty_peer, ok_response).
Proof.
  cbv zeta.
  assert (∀ d, parse_payload Sample.loads (Sample.dumps (JArr [])) ≠ JObj d)
    as Hp by (intros d H; vm_compute in H; discriminate).
  split; [exact Hp|].
  destruct (delivery_is_never_refused Sample.loads Sample.str Sample.int 1
              (Sample.dumps (JArr [])) Sample.empty_peer) as (_ & _ & Hdrop).
  exact (Hdrop Hp).
Defined.

End MorePeerExamples.

Section MoreFanoutExamples.
Import PeerAgent.

Lemma others_printable :
  Forall (printable Sample.print_line) [Sample.bob; Sample.carol].
Proof.
  repeat constructor; intros l name ip port Hn Hi Hp;
    vm_compute in Hn; injection Hn as <-;
    intros [->|[->|[[e ->]|[n ->]]]]; reflexivity.
Qed.

(** Alice broadcasts to the list the tracker returned for team: Bob
    and Carol are the targets, both are contacted, Bob refuses, both get
    their line. *)
Lemma broadcast_reaches_the_others_witness :
  let b := Sample.dumps
             (JObj [("from", JObj [("ip", JStr "10.0.0.1");
                                   ("port", JInt 7000);
                                   ("name", JStr "alice")]);
                    ("channel", JStr "team"); ("message", JStr "hi")]) in
  Forall has_fields Sample.trio
  ∧ target_peers Sample.int "10.0.0.1" 7000 Sample.trio
    = inr [Sample.bob; Sample.carol]
  ∧ Forall (printable Sample.print_line) [Sample.bob; Sample.carol]
  ∧ ∃ w' lines,
      broadcast Sample.dumps Sample.int Sample.world Sample.exchange
        Sample.print_line [] Sample.trio "10.0.0.1" 7000 "alice" "hi"
        (JStr "team")
      = (w', Broadcasting 2 :: lines, None)
      ∧ sends Sample.int Sample.world Sample.exchange b []
          [Sample.bob; Sample.carol] w' lines
      ∧ Forall2 (line_for Sample.int) [Sample.bob; Sample.carol] lines.
Proof.
  cbv zeta.
  assert (target_peers Sample.int "10.0.0.1" 7000 Sample.trio
          = inr [Sample.bob; Sample.carol]) as Ht
    by (vm_compute; reflexivity).
  split; [exact trio_has_fields|]. split; [exact Ht|].
  split; [exact others_printable|].
  destruct (broadcast_reaches_the_others Sample.dumps Sample.int
              Sample.world Sample.exchange Sample.print_line [] Sample.trio
              "10.0.0.1" 7000 "alice" "hi" (JStr "team")
              [Sample.bob; Sample.carol] trio_has_fields Ht)
    as (_ & _ & _ & _ & Hsome).
  assert ([Sample.bob; Sample.carol] ≠ []) as Hne by discriminate.
  exact (Hsome Hne others_printable).
Defined.

(** Alice, then a record without a name, then Carol: Alice is sent the
    message, the nameless peer is contacted, and the call raises; Carol is
    not contacted. *)
Lemma broadcast_stops_at_nameless_witness :
  Forall has_fields [Sample.alice]
  ∧ Forall (printable Sample.print_line) [Sample.alice]
  ∧ subscript Sample.nameless "name" = inl (KeyError "name")
  ∧ ∃ w1 lines,
      sends Sample.int Sample.world Sample.exchange "hi" []
        [Sample.alice] w1 lines
      ∧ broadcast_loop Sample.int Sample.world Sample.exchange
          Sample.print_line [] []
          ([Sample.alice] ++ Sample.nameless :: [Sample.carol]) "hi"
        = ((Sample.exchange w1 (JStr "10.0.0.4") 7003 "hi").1,
           [] ++ lines, Some (KeyError "name")).
Proof.
  assert (Forall has_fields [Sample.alice]) as Hf.
  { repeat constructor; eexists _, _, _; repeat split; reflexivity. }
  assert (Forall (printable Sample.print_line) [Sample.alice]) as Hq.
  { repeat constructor; intros l name ip port Hn Hi Hp;
      vm_compute in Hn; injection Hn as <-;
      intros [->|[->|[[e ->]|[n ->]]]]; reflexivity. }
  split; [exact Hf|]. split; [exact Hq|]. split; [reflexivity|].
  exact (broadcast_stops_at_nameless Sample.int Sample.world
           Sample.exchange Sample.print_line [] [] [Sample.alice]
           Sample.nameless [Sample.carol] "hi" (JStr "10.0.0.4")
           (JInt 7003) (KeyError "name") Hf Hq eq_refl eq_refl eq_refl).
Defined.


End MoreFanoutExamples.

Section RelayExamples.

Local Abbreviation arrives :=
  (Relay.arrives Sample.str Sample.decode Sample.split Sample.strip).

(** The requests of the examples fit in the buffer of the peer and are
    read as the POST they are. *)
Lemma hi_arrives :
  arrives "10.0.0.3" (Sample.dumps (JObj (Sample.relayed Sample.alice "hi" 7))).
Proof. split; [vm_compute; discriminate | vm_compute; reflexivity]. Qed.

Lemma hi_ops_arrives :
  arrives "10.0.0.3"
    (Sample.dumps (JObj (Sample.relayed Sample.alice "hi" (15 # 2)))).
Proof. split; [vm_compute; discriminate | vm_compute; reflexivity]. Qed.

Lemma hello_arrives :
  arrives "10.0.0.3" (Sample.dumps (Backend.webapp_payload (JStr "hello"))).
Proof. split; [vm_compute; discriminate | vm_compute; reflexivity]. Qed.

Lemma hi_well_formed_relay :
  Tracker.well_formed_broadcast Sample.relay_loads Sample.hi
    (Sample.record_of Sample.alice) "team" (JStr "hi").
Proof.
  exists (Sample.record_of (Sample.chat Sample.alice "team" "hi")).
  split; [by vm_compute|]. split; [reflexivity|].
  split; [by eexists|]. split; [by eexists|].
  split; [reflexivity|]. split; [discriminate|].
  split; [reflexivity | discriminate].
Qed.


Lemma hi_ops_well_formed :
  Tracker.well_formed_broadcast Sample.relay_loads Sample.hi_ops
    (Sample.record_of Sample.alice) "ops" (JStr "hi").
Proof.
  exists (Sample.record_of (Sample.chat Sample.alice "ops" "hi")).
  split; [by vm_compute|]. split; [reflexivity|].
  split; [by eexists|]. split; [by eexists|].
  split; [reflexivity|]. split; [discriminate|].
  split; [reflexivity | discriminate].
Qed.


(** A relayed entry that does not fit: Carol reads the first 8192 bytes
    of the request, finds no JSON in the body she has, and queues what
    she has read as raw text. *)
Example long_relay_is_truncated :
  let b := Sample.dumps
             (JObj (Sample.relayed Sample.alice Sample.long_text 7)) in
  let read := Sample.strip
                (Relay.after (Relay.CRLF ++ Relay.CRLF)
                   (Relay.first_bytes 8192
                      (Relay.request_text Sample.str (JStr "10.0.0.3") b))) in
  ¬ arrives "10.0.0.3" b
  ∧ PeerAgent.messages
      (Relay.accepted Sample.relay_loads Sample.str Sample.int Sample.decode
         Sample.split Sample.strip "10.0.0.3" 8 b Sample.empty_peer)
    = [JObj [("raw", JStr read); ("ts", JFloat 8)]]
  ∧ (String.length read < String.length b)%nat.
Proof.
  cbv zeta. split; [|split].
  - intros [Hfit _]. vm_compute in Hfit. by apply Hfit.
  - vm_compute. reflexivity.
  - apply Nat.ltb_lt. vm_compute. reflexivity.
Qed.

(** A body without a port is answered missing fields and nothing is
    sent; a complete one is sent once and answered ok. *)
Lemma send_peer_contains_failures_witness :
  let send := Backend.send_peer Sample.relay_loads Sample.dumps Sample.int
                Sample.exn_str Sample.world Sample.exchange in
  Backend.port_of Sample.int Sample.no_port_body = inr 0%Z
  ∧ send [] (Sample.dumps Sample.no_port_body)
    = ([], inr (JObj [("error", JStr "missing fields")]))
  ∧ Backend.port_of Sample.int Sample.send_body = inr 7002%Z
  ∧ send [] (Sample.dumps Sample.send_body)
    = ([(JStr "10.0.0.3", 7002%Z)], inr (JObj [("status", JStr "ok")])).
Proof.
  cbv zeta.
  assert (Backend.port_of Sample.int Sample.no_port_body = inr 0%Z) as Hnone
    by reflexivity.
  assert (Backend.port_of Sample.int Sample.send_body = inr 7002%Z) as Hport
    by reflexivity.
  split; [exact Hnone|]. split; [|split; [exact Hport|]].
  - pose proof (BackendSpec.send_peer_contains_failures Sample.relay_loads
                  Sample.dumps Sample.int Sample.exn_str Sample.world
                  Sample.exchange [] (Sample.dumps Sample.no_port_body)) as H.
    cbv zeta in H. destruct H as (_ & _ & H).
    destruct (H (Sample.record_of Sample.no_port_body) 0%Z) as [Hmiss _].
    + vm_compute. reflexivity.
    + exact Hnone.
    + apply Hmiss. right. left. reflexivity.
  - pose proof (BackendSpec.send_peer_contains_failures Sample.relay_loads
                  Sample.dumps Sample.int Sample.exn_str Sample.world
                  Sample.exchange [] (Sample.dumps Sample.send_body)) as H.
    cbv zeta in H. destruct H as (_ & _ & H).
    destruct (H (Sample.record_of Sample.send_body) 7002%Z) as [_ Hsend].
    + vm_compute. reflexivity.
    + exact Hport.
    + etrans; [apply Hsend|].
      * reflexivity.
      * discriminate.
      * discriminate.
      * vm_compute. reflexivity.
Defined.

(** The application posts hello to Carol at 8 and again at 9. *)
Lemma webapp_message_is_queued_witness :
  let body := Sample.dumps Sample.send_body in
  let carol := ("10.0.0.3"%string, 7002%Z) in
  Sample.relay_loads body = Some Sample.send_body
  ∧ Sample.listening !! carol = Some Sample.empty_peer
  ∧ arrives "10.0.0.3"
      (Sample.dumps (Backend.webapp_payload (JStr "hello")))
  ∧ ∃ stB',
      PeerAgent.messages stB'
      = [JObj [("from", JStr "webapp"); ("message", JStr "hello");
               ("ts", JFloat 8)]]
      ∧ Sample.web_send Sample.at_eight Sample.listening body
        = (<[carol := stB']> Sample.listening, inr Backend.sent_ok)
      ∧ Sample.web_send Sample.at_nine (<[carol := stB']> Sample.listening)
          body
        = (<[carol := stB']> Sample.listening, inr Backend.sent_ok).
Proof.
  cbv zeta.
  assert (Sample.relay_loads (Sample.dumps Sample.send_body)
          = Some Sample.send_body) as Hl by (vm_compute; reflexivity).
  assert (Sample.listening !! ("10.0.0.3"%string, 7002%Z)
          = Some Sample.empty_peer) as Hlisten by (vm_compute; reflexivity).
  split; [exact Hl|]. split; [exact Hlisten|]. split; [exact hello_arrives|].
  pose proof (BackendSpec.webapp_message_is_queued Sample.relay_loads
                Sample.dumps Sample.str Sample.int Sample.exn_str
                Sample.decode Sample.split Sample.strip
                Sample.at_eight Sample.at_nine Sample.listening
                (Sample.dumps Sample.send_body)
                (Sample.record_of Sample.send_body) "10.0.0.3" (JInt 7002)
                7002 (JStr "hello") Sample.empty_peer) as H.
  cbv zeta in H.
  destruct H as [Hfirst Hsecond].
  - vm_compute. reflexivity.
  - reflexivity.
  - discriminate.
  - reflexivity.
  - reflexivity.
  - reflexivity.
  - discriminate.
  - reflexivity.
  - discriminate.
  - exact Hlisten.
  - exact hello_arrives.
  - vm_compute. reflexivity.
  - apply empty_peer_fresh.
  - intros H. vm_compute in H. discriminate.
  - vm_compute. reflexivity.
  - eexists. split; [|split; [exact Hfirst | exact Hsecond]]. reflexivity.
Defined.

End RelayExamples.

Section LoopExamples.
Import Framing Prompt.

(** A full chunk, then a short one, then more: the loop returns the
    first two and never reads the third. *)
Lemma read_stops_at_short_chunk_witness :
  Forall (λ c, (8192 <= N.of_nat (String.length c))%N) [Sample.full_chunk]
  ∧ (N.of_nat (String.length "tail") < 8192)%N
  ∧ read_request ""
      ((Chunk <$> [Sample.full_chunk]) ++ Chunk "tail" :: [Chunk "never"])
    = ("" +:+ stream [Sample.full_chunk] +:+ "tail")%string.
Proof.
  assert (Forall (λ c, (8192 <= N.of_nat (String.length c))%N)
            [Sample.full_chunk]) as Hfull.
  { constructor; [|constructor]. vm_compute. discriminate. }
  assert (N.of_nat (String.length "tail") < 8192)%N as Hshort
    by (vm_compute; reflexivity).
  split; [exact Hfull|]. split; [exact Hshort|].
  destruct (FramingSpec.read_stops_at_short_chunk "" [Sample.full_chunk]
              "tail" [Chunk "never"] Hfull Hshort) as (Hread & _).
  exact Hread.
Defined.


End LoopExamples.

End Examples.
